(** * Xcode cleanup tool: the cleanup engine of [xcode_cleanup.py]

    A shallow embedding of the measurement service ([get_directory_size]),
    the two deletion strategies ([clean_directory], [execute_command]) and the
    orchestrator ([perform_cleanup]), over an explicit model of what the
    script reaches through [os], [shutil] and [subprocess]:

    - a Python [str] is a [string] (code points below 256);
    - the file system is a tree of files and directories; a directory whose
      [writable] flag is off refuses to have entries unlinked from it;
    - an external process is an oracle ([spawn]) that reads and may change
      the world, and either completes with a return code and captured output
      or makes [subprocess.run] raise (missing executable, timeout, ...);
    - a Python function is a computation in a monad that threads the world,
      may raise an [Exception], and emits the progress-bar events;
    - the dicts of the registry and of the result list are records.

    Asynchronous interrupts ([KeyboardInterrupt], not an [Exception]),
    symbolic links and [..] path components are outside the model. *)

From Stdlib Require Import List String Ascii Bool Arith ZArith NArith Lia.
From Stdlib Require Import DecimalString.
Import ListNotations.
Open Scope string_scope.

Set Warnings "-register-all".

(* ================================================================= *)
(** ** Python strings *)

Module PyStr.

(** [str.isspace] on the code points below 256. *)
Definition is_space (c : ascii) : bool :=
  let n := nat_of_ascii c in
  (Nat.leb 9 n && Nat.leb n 13) || (Nat.leb 28 n && Nat.leb n 32)
  || Nat.eqb n 133 || Nat.eqb n 160.

Fixpoint lstrip (s : string) : string :=
  match s with
  | EmptyString => EmptyString
  | String c s' => if is_space c then lstrip s' else s
  end.

Fixpoint rstrip (s : string) : string :=
  match s with
  | EmptyString => EmptyString
  | String c s' =>
      match rstrip s' with
      | EmptyString => if is_space c then EmptyString else String c EmptyString
      | r => String c r
      end
  end.

(** [s.strip()] *)
Definition strip (s : string) : string := rstrip (lstrip s).

(** [s.rstrip(ch)] for a one-character argument. *)
Fixpoint rstrip_char (ch : ascii) (s : string) : string :=
  match s with
  | EmptyString => EmptyString
  | String c s' =>
      match rstrip_char ch s' with
      | EmptyString => if Ascii.eqb c ch then EmptyString else String c EmptyString
      | r => String c r
      end
  end.

(** [s.split(sep)] for a one-character separator: never the empty list. *)
Fixpoint split_on (sep : ascii) (s : string) : list string :=
  match s with
  | EmptyString => [EmptyString]
  | String c s' =>
      if Ascii.eqb c sep then EmptyString :: split_on sep s'
      else match split_on sep s' with
           | [] => [String c EmptyString]
           | w :: ws => String c w :: ws
           end
  end.

(** [s.split()]: the maximal runs of non-blank characters. *)
Fixpoint split_ws (s : string) : list string :=
  match s with
  | EmptyString => []
  | String c s' =>
      if is_space c then split_ws s'
      else match s' with
           | EmptyString => [String c EmptyString]
           | String c' _ =>
               if is_space c' then String c EmptyString :: split_ws s'
               else match split_ws s' with
                    | [] => [String c EmptyString]
                    | w :: ws => String c w :: ws
                    end
           end
  end.

Fixpoint ends_with (ch : ascii) (s : string) : bool :=
  match s with
  | EmptyString => false
  | String c EmptyString => Ascii.eqb c ch
  | String _ s' => ends_with ch s'
  end.

Definition starts_with (ch : ascii) (s : string) : bool :=
  match s with
  | String c _ => Ascii.eqb c ch
  | EmptyString => false
  end.

End PyStr.

(* ================================================================= *)
(** ** Exceptions *)

Inductive exn_class : Type :=
| FileNotFoundError
| NotADirectoryError
| PermissionError
| TimeoutExpired
| OtherException.

(** An instance of [Exception]: its class and what [str(e)] gives. *)
Record exn : Type := Exn { exn_cls : exn_class; exn_str : string }.

(** [repr(s)] of a [str], which is how [str(e)] of an [OSError] shows the
    file name: in single quotes, or in double quotes when the name holds
    an apostrophe and no double quote; the quote in use and the backslash
    are escaped, and so are the control characters. Characters outside
    ASCII are taken to be printable and stand as they are. *)
Definition hex_digit (n : nat) : ascii :=
  nth n [ "0"; "1"; "2"; "3"; "4"; "5"; "6"; "7"; "8"; "9";
          "a"; "b"; "c"; "d"; "e"; "f" ]%char "0"%char.

Fixpoint has_char (ch : ascii) (s : string) : bool :=
  match s with
  | EmptyString => false
  | String c s' => Ascii.eqb c ch || has_char ch s'
  end.

Definition escape_char (quote c : ascii) : string :=
  if Ascii.eqb c quote || Ascii.eqb c "\"%char then String "\"%char (String c "")
  else if Ascii.eqb c "009"%char then "\t"
  else if Ascii.eqb c "010"%char then "\n"
  else if Ascii.eqb c "013"%char then "\r"
  else
    let n := nat_of_ascii c in
    if Nat.ltb n 32 || Nat.eqb n 127 then
      "\x" ++ String (hex_digit (n / 16)) (String (hex_digit (n mod 16)) "")
    else String c "".

Fixpoint escape (quote : ascii) (s : string) : string :=
  match s with
  | EmptyString => EmptyString
  | String c s' => escape_char quote c ++ escape quote s'
  end.

Definition quoted (s : string) : string :=
  let quote := if has_char "'"%char s && negb (has_char "034"%char s)
               then "034"%char else "'"%char in
  String quote (escape quote s ++ String quote "").

Definition enoent (p : string) : exn :=
  Exn FileNotFoundError ("[Errno 2] No such file or directory: " ++ quoted p).
Definition enotdir (p : string) : exn :=
  Exn NotADirectoryError ("[Errno 20] Not a directory: " ++ quoted p).
Definition eacces (p : string) : exn :=
  Exn PermissionError ("[Errno 13] Permission denied: " ++ quoted p).
Definition eperm (p : string) : exn :=
  Exn PermissionError ("[Errno 1] Operation not permitted: " ++ quoted p).

(** What a call gives: a value, or a raised exception. *)
Inductive res (A : Type) : Type :=
| Ok (a : A)
| Raise (e : exn).
Arguments Ok {A} a.
Arguments Raise {A} e.

(* ================================================================= *)
(** ** The file system *)

Module FS.

Inductive node : Type :=
| File (size : N)
| Dir (writable : bool) (entries : list (string * node)).

(** Induction on trees, with the hypothesis for every entry of a directory. *)
Fixpoint node_rect' (P : node -> Prop)
         (HF : forall sz, P (File sz))
         (HD : forall w es, Forall (fun e => P (snd e)) es -> P (Dir w es))
         (n : node) : P n :=
  match n with
  | File sz => HF sz
  | Dir w es =>
      HD w es
         ((fix all (es : list (string * node)) : Forall (fun e => P (snd e)) es :=
             match es with
             | [] => Forall_nil _
             | e :: rest => Forall_cons e (node_rect' P HF HD (snd e)) (all rest)
             end) es)
  end.

Definition is_dir (n : node) : bool :=
  match n with Dir _ _ => true | File _ => false end.

(** *** Paths *)

(** A usable entry name: not empty, not [.], without a slash. *)
Definition proper_name (s : string) : bool :=
  negb (String.eqb s "") && negb (String.eqb s ".")
  && match PyStr.split_on "/"%char s with [_] => true | _ => false end.

Definition keep_component (s : string) : bool :=
  negb (String.eqb s "") && negb (String.eqb s ".").

(** The components of a path; every path is read from the root. Empty
    components and "." are dropped wherever they stand, so a slash after
    the last component is not told apart: the system refuses a file named
    with a trailing slash, the tree finds it. *)
Definition components (p : string) : list string :=
  filter keep_component (PyStr.split_on "/"%char p).

(** The empty path names nothing. *)
Definition resolve (p : string) : option (list string) :=
  if String.eqb p "" then None else Some (components p).

(** [os.path.join(a, b)] *)
Definition os_path_join (a b : string) : string :=
  if PyStr.starts_with "/"%char b then b
  else if String.eqb a "" || PyStr.ends_with "/"%char a then a ++ b
  else a ++ "/" ++ b.

(** *** Reading the tree *)

Fixpoint lookup_entry (name : string) (es : list (string * node)) : option node :=
  match es with
  | [] => None
  | (k, n) :: es' => if String.eqb k name then Some n else lookup_entry name es'
  end.

Fixpoint walk (cs : list string) (n : node) : option node :=
  match cs with
  | [] => Some n
  | c :: cs' =>
      match n with
      | Dir _ es =>
          match lookup_entry c es with
          | Some ch => walk cs' ch
          | None => None
          end
      | File _ => None
      end
  end.

(** What one path shows of itself: its kind, and for a directory its
    permission and the names in it. *)
Inductive info : Type :=
| IsFile (size : N)
| IsDir (writable : bool) (names : list string).

Definition info_of (n : node) : info :=
  match n with
  | File sz => IsFile sz
  | Dir w es => IsDir w (map fst es)
  end.

Definition stat (cs : list string) (root : node) : option info :=
  option_map info_of (walk cs root).

(** *** Changing the tree *)

(** Apply [f] to the first entry called [name]. *)
Fixpoint update_entry (name : string) (f : node -> node)
         (es : list (string * node)) : list (string * node) :=
  match es with
  | [] => []
  | (k, n) :: es' =>
      if String.eqb k name then (k, f n) :: es'
      else (k, n) :: update_entry name f es'
  end.

(** Drop the first entry called [name]. *)
Fixpoint remove_entry (name : string) (es : list (string * node))
  : list (string * node) :=
  match es with
  | [] => []
  | (k, n) :: es' =>
      if String.eqb k name then es' else (k, n) :: remove_entry name es'
  end.

(** Put [new] where the path [cs] leads (nothing happens if it leads nowhere). *)
Fixpoint replace_at (cs : list string) (new : node) (n : node) : node :=
  match cs with
  | [] => new
  | c :: cs' =>
      match n with
      | Dir w es => Dir w (update_entry c (replace_at cs' new) es)
      | File _ => n
      end
  end.

Fixpoint unsnoc (cs : list string) : option (list string * string) :=
  match cs with
  | [] => None
  | c :: cs' =>
      match unsnoc cs' with
      | None => Some ([], c)
      | Some (front, last) => Some (c :: front, last)
      end
  end.

(** The walk of [shutil.rmtree] inside a directory: entries are taken in
    listing order, a sub-directory is emptied and then removed, a file is
    unlinked; unlinking from a directory that is not writable raises, and
    the walk stops at the first error, leaving what it had not yet removed.
    The walk works relative to the open directory ([os.unlink(entry.name,
    dir_fd=topfd)]), so the exception names the entry, not its path. *)
Fixpoint empty_out (path : string) (n : node) : option exn * node :=
  match n with
  | File _ => (Some (enotdir path), n)
  | Dir w es =>
      let fix go (es : list (string * node)) : option exn * list (string * node) :=
        match es with
        | [] => (None, [])
        | (name, child) :: rest =>
            match child with
            | File _ => if w then go rest else (Some (eacces name), es)
            | Dir _ _ =>
                match empty_out (os_path_join path name) child with
                | (Some e, child') => (Some e, (name, child') :: rest)
                | (None, child') =>
                    if w then go rest
                    else (Some (eacces name), (name, child') :: rest)
                end
            end
        end in
      let (r, es') := go es in (r, Dir w es')
  end.

(** Nothing stands in the way of emptying a directory: it is writable
    unless it is already empty, and so is every directory below it. *)
Fixpoint clearable (n : node) : bool :=
  match n with
  | File _ => true
  | Dir w es =>
      match es with [] => true | _ :: _ => w end
      && (fix all (es : list (string * node)) : bool :=
            match es with
            | [] => true
            | (_, ch) :: rest => clearable ch && all rest
            end) es
  end.

(** *** The calls of [os], [os.path] and [shutil] on a tree *)

Definition exists_ (path : string) (root : node) : bool :=
  match resolve path with
  | Some cs => match walk cs root with Some _ => true | None => false end
  | None => false
  end.

Definition isdir (path : string) (root : node) : bool :=
  match resolve path with
  | Some cs => match walk cs root with Some n => is_dir n | None => false end
  | None => false
  end.

Definition listdir (path : string) (root : node) : res (list string) :=
  match resolve path with
  | None => Raise (enoent path)
  | Some cs =>
      match walk cs root with
      | Some (Dir _ es) => Ok (map fst es)
      | Some (File _) => Raise (enotdir path)
      | None => Raise (enoent path)
      end
  end.

(** [os.remove(path)]: unlink a file from its directory. *)
Definition remove (path : string) (root : node) : res unit * node :=
  match resolve path with
  | None => (Raise (enoent path), root)
  | Some cs =>
      match unsnoc cs with
      | None => (Raise (eperm path), root)
      | Some (parent, name) =>
          match walk parent root with
          | Some (Dir w es) =>
              match lookup_entry name es with
              | Some (File _) =>
                  if w then
                    (Ok tt, replace_at parent (Dir w (remove_entry name es)) root)
                  else (Raise (eacces path), root)
              | Some (Dir _ _) => (Raise (eperm path), root)
              | None => (Raise (enoent path), root)
              end
          | Some (File _) => (Raise (enotdir path), root)
          | None => (Raise (enoent path), root)
          end
      end
  end.

(** [shutil.rmtree(path)]: empty the directory, then remove it from its
    parent. *)
Definition rmtree (path : string) (root : node) : res unit * node :=
  match resolve path with
  | None => (Raise (enoent path), root)
  | Some cs =>
      match walk cs root with
      | None => (Raise (enoent path), root)
      | Some n =>
          match empty_out path n with
          | (Some e, n') => (Raise e, replace_at cs n' root)
          | (None, n') =>
              match unsnoc cs with
              | None => (Raise (eperm path), replace_at cs n' root)
              | Some (parent, name) =>
                  match walk parent root with
                  | Some (Dir w es) =>
                      if w then
                        (Ok tt,
                         replace_at parent (Dir w (remove_entry name es)) root)
                      else (Raise (eacces path), replace_at cs n' root)
                  | _ => (Raise (enoent path), root)
                  end
              end
          end
      end
  end.

End FS.

(* ================================================================= *)
(** ** The process environment *)

(** What [os.path.expanduser] consults: the [HOME] variable and the
    password database (the entry of the current user, the entries by name). *)
Record Env : Type := {
  HOME : option string;
  pw_dir_self : option string;
  pw_dir_of : string -> option string
}.

(** [os.path.expanduser(path)] (posixpath) *)
Definition expanduser (env : Env) (path : string) : string :=
  if negb (PyStr.starts_with "~"%char path) then path
  else
    let i := match String.index 1 "/" path with
             | Some i => i
             | None => String.length path
             end in
    let userhome :=
      if Nat.eqb i 1 then
        match HOME env with
        | Some h => Some h
        | None => pw_dir_self env
        end
      else pw_dir_of env (substring 1 (i - 1) path) in
    match userhome with
    | None => path
    | Some h =>
        let r := PyStr.rstrip_char "/"%char h
                 ++ substring i (String.length path - i) path in
        if String.eqb r "" then "/" else r
    end.

(** [subprocess.CompletedProcess], with output captured as text. *)
Record CompletedProcess : Type := {
  returncode : Z;
  stdout : string;
  stderr : string
}.

(** What the progress bar is told. *)
Inductive event : Type :=
| AddTask (description : string) (total : nat)
| Update (description : string)
| Advance.

(* ================================================================= *)
(** ** Computations: state, exceptions, progress events *)

Definition M (S A : Type) : Type := S -> res A * S * list event.

Definition ret {S A : Type} (a : A) : M S A := fun w => (Ok a, w, []).

Definition raise {S A : Type} (e : exn) : M S A := fun w => (Raise e, w, []).

Definition bind {S A B : Type} (m : M S A) (k : A -> M S B) : M S B :=
  fun w =>
    match m w with
    | (Ok a, w1, l1) => let '(r, w2, l2) := k a w1 in (r, w2, (l1 ++ l2)%list)
    | (Raise e, w1, l1) => (Raise e, w1, l1)
    end.

(** [try: m  except Exception as e: h e] *)
Definition try_except {S A : Type} (m : M S A) (h : exn -> M S A) : M S A :=
  fun w =>
    match m w with
    | (Ok a, w1, l1) => (Ok a, w1, l1)
    | (Raise e, w1, l1) => let '(r, w2, l2) := h e w1 in (r, w2, (l1 ++ l2)%list)
    end.

Definition emit {S : Type} (ev : event) : M S unit := fun w => (Ok tt, w, [ev]).

Declare Scope py_scope.
Delimit Scope py_scope with py.
Notation "x <- c1 ;; c2" := (bind c1 (fun x => c2))
  (at level 61, c1 at next level, right associativity) : py_scope.
Notation "' pat <- c1 ;; c2" := (bind c1 (fun x => match x with pat => c2 end))
  (at level 61, pat pattern, c1 at next level, right associativity) : py_scope.
Notation "c1 ;; c2" := (bind c1 (fun _ => c2))
  (at level 61, right associativity) : py_scope.
Open Scope py_scope.

(** [for x in xs: body x] *)
Fixpoint for_each {S A : Type} (xs : list A) (body : A -> M S unit) : M S unit :=
  match xs with
  | [] => ret tt
  | x :: xs' => body x ;; for_each xs' body
  end.

(* ================================================================= *)
(** ** Records of the script *)

(** An entry of [CATEGORIES]: a dict with exactly these seven keys, the
    values strings except for ['default']. The kind under ['type'] is any
    string; the registry uses "directory" and "command". *)
Record category : Type := {
  cat_name : string;
  cat_path : string;
  cat_description : string;
  cat_typical_size : string;
  cat_safety : string;
  cat_type : string;
  cat_default : bool
}.

(** An entry of the list [perform_cleanup] returns: a dict with the keys
    ['name'], ['success'], ['message'] and ['size']. *)
Record result : Type := {
  res_name : string;
  res_success : bool;
  res_message : string;
  res_size : string
}.

(* ================================================================= *)
(** ** The engine *)

Section Engine.

(** Whatever else external programs read and change (the simulator
    registry, the clock, ...). *)
Variable Ext : Type.

Record World : Type := { fs : FS.node; ext : Ext }.

(** [spawn argv timeout w]: what running [argv] under [subprocess.run] with
    that timeout does in the world [w]. *)
Variable spawn : list string -> Z -> World -> res CompletedProcess * World.

Variable env : Env.

Definition Py (A : Type) : Type := M World A.

(** *** Library calls *)

Definition os_path_expanduser (path : string) : string := expanduser env path.

Definition os_path_exists (path : string) : Py bool :=
  fun w => (Ok (FS.exists_ path (fs w)), w, []).

Definition os_path_isdir (path : string) : Py bool :=
  fun w => (Ok (FS.isdir path (fs w)), w, []).

Definition os_listdir (path : string) : Py (list string) :=
  fun w => (FS.listdir path (fs w), w, []).

Definition os_remove (path : string) : Py unit :=
  fun w => let (r, t) := FS.remove path (fs w) in
           (r, {| fs := t; ext := ext w |}, []).

Definition shutil_rmtree (path : string) : Py unit :=
  fun w => let (r, t) := FS.rmtree path (fs w) in
           (r, {| fs := t; ext := ext w |}, []).

(** [subprocess.run(argv, capture_output=True, text=True, timeout=timeout)] *)
Definition subprocess_run (argv : list string) (timeout : Z) : Py CompletedProcess :=
  fun w => let (r, w') := spawn argv timeout w in (r, w', []).

Definition progress_add_task (description : string) (total : nat) : Py unit :=
  emit (AddTask description total).
Definition progress_update (description : string) : Py unit :=
  emit (Update description).
Definition progress_advance : Py unit := emit Advance.

(** *** [get_directory_size] *)

Definition get_directory_size (path : string) : Py (string * Z) :=
  let expanded_path := os_path_expanduser path in
  present <- os_path_exists expanded_path ;;
  if negb present then ret ("Not found", 0%Z)
  else
    try_except
      (result <- subprocess_run ["du"; "-sh"; expanded_path] 10 ;;
       if (returncode result =? 0)%Z then
         let size := PyStr.strip (hd "" (PyStr.split_on "009"%char (stdout result))) in
         ret (size, 1%Z)
       else ret ("Error", 0%Z))
      (fun _ => ret ("Error", 0%Z)).

(** *** [clean_directory] *)

(** One turn of the [for item in os.listdir(expanded_path)] loop. *)
Definition remove_item (expanded_path item : string) : Py unit :=
  let item_path := FS.os_path_join expanded_path item in
  d <- os_path_isdir item_path ;;
  if d then shutil_rmtree item_path else os_remove item_path.

(** The loop over the names that were listed. *)
Definition remove_items (expanded_path : string) (items : list string) : Py unit :=
  for_each items (remove_item expanded_path).

(** The body of the [try]: list the directory, remove every entry. *)
Definition remove_contents (expanded_path : string) : Py unit :=
  items <- os_listdir expanded_path ;;
  remove_items expanded_path items.

Definition clean_directory (path : string) : Py (bool * string * string) :=
  let expanded_path := os_path_expanduser path in
  present <- os_path_exists expanded_path ;;
  if negb present then ret (true, "Directory not found", "0B")
  else
    ' (size_before, _) <- get_directory_size path ;;
    try_except
      (remove_contents expanded_path ;;
       ret (true, "Cleaned successfully", size_before))
      (fun e => ret (false, "Error: " ++ exn_str e, "0B")).

(** *** [execute_command] *)

Definition execute_command (command : string) : Py (bool * string) :=
  try_except
    (result <- subprocess_run (PyStr.split_ws command) 30 ;;
     if (returncode result =? 0)%Z then ret (true, "Executed successfully")
     else ret (true, "No unavailable simulators found"))
    (fun e => ret (false, "Error: " ++ exn_str e)).

(** *** [perform_cleanup] *)

(** The [for category in categories] loop; [results] is the list the loop
    appends to. *)
Fixpoint cleanup_loop (categories : list category) (results : list result)
  : Py (list result) :=
  match categories with
  | [] => ret results
  | category :: rest =>
      progress_update ("Cleaning: " ++ cat_name category) ;;
      results <-
        (if String.eqb (cat_type category) "directory" then
           ' (success, message, size) <- clean_directory (cat_path category) ;;
           ret (results ++ [ {| res_name := cat_name category;
                               res_success := success;
                               res_message := message;
                               res_size := size |} ])%list
         else if String.eqb (cat_type category) "command" then
           ' (success, message) <- execute_command (cat_path category) ;;
           ret (results ++ [ {| res_name := cat_name category;
                               res_success := success;
                               res_message := message;
                               res_size := "N/A" |} ])%list
         else ret results) ;;
      progress_advance ;;
      cleanup_loop rest results
  end.

Definition perform_cleanup (categories : list category) : Py (list result) :=
  progress_add_task "Cleaning..." (List.length categories) ;;
  cleanup_loop categories [].

End Engine.

Arguments fs {Ext} w.
Arguments ext {Ext} w.
Arguments os_path_exists {Ext} path w.
Arguments os_path_isdir {Ext} path w.
Arguments os_listdir {Ext} path w.
Arguments os_remove {Ext} path w.
Arguments shutil_rmtree {Ext} path w.
Arguments subprocess_run {Ext} spawn argv timeout w.
Arguments progress_add_task {Ext} description total w.
Arguments progress_update {Ext} description w.
Arguments progress_advance {Ext} w.
Arguments get_directory_size {Ext} spawn env path.
Arguments remove_item {Ext} expanded_path item.
Arguments remove_items {Ext} expanded_path items.
Arguments remove_contents {Ext} expanded_path.
Arguments clean_directory {Ext} spawn env path.
Arguments execute_command {Ext} spawn command.
Arguments cleanup_loop {Ext} spawn env categories results.
Arguments perform_cleanup {Ext} spawn env categories.

(* ================================================================= *)
(** ** The registry *)

Definition CATEGORIES : list category := [
  {| cat_name := "Derived Data";
     cat_path := "~/Library/Developer/Xcode/DerivedData";
     cat_description := "Build artifacts and intermediate files. Safe to delete - Xcode will rebuild them.";
     cat_typical_size := "5-50GB";
     cat_safety := "safe";
     cat_type := "directory";
     cat_default := true |};
  {| cat_name := "Unavailable Simulators";
     cat_path := "xcrun simctl delete unavailable";
     cat_description := "Removes old iOS Simulator instances that are no longer available.";
     cat_typical_size := "Varies";
     cat_safety := "safe";
     cat_type := "command";
     cat_default := true |};
  {| cat_name := "Device Support Files";
     cat_path := "~/Library/Developer/Xcode/iOS DeviceSupport";
     cat_description := "Support files for old iOS versions from connected devices.";
     cat_typical_size := "1-10GB";
     cat_safety := "safe";
     cat_type := "directory";
     cat_default := true |};
  {| cat_name := "Simulator Caches";
     cat_path := "~/Library/Developer/CoreSimulator/Caches";
     cat_description := "Cache files from iOS Simulators. Safe to delete - simulators will recreate them.";
     cat_typical_size := "1-5GB";
     cat_safety := "safe";
     cat_type := "directory";
     cat_default := true |};
  {| cat_name := "Archives";
     cat_path := "~/Library/Developer/Xcode/Archives";
     cat_description := "Old app builds (.xcarchive files). Only delete if you don't need old builds.";
     cat_typical_size := "1-20GB";
     cat_safety := "caution";
     cat_type := "directory";
     cat_default := false |};
  {| cat_name := "Device Logs";
     cat_path := "~/Library/Developer/Xcode/iOS Device Logs";
     cat_description := "Debug logs from connected iOS devices. Safe to delete.";
     cat_typical_size := "100MB-1GB";
     cat_safety := "safe";
     cat_type := "directory";
     cat_default := true |};
  {| cat_name := "Swift Package Manager Cache";
     cat_path := "~/Library/Caches/org.swift.swiftpm";
     cat_description := "Downloaded Swift packages. Safe to delete - they'll be re-downloaded when needed.";
     cat_typical_size := "1-5GB";
     cat_safety := "safe";
     cat_type := "directory";
     cat_default := true |};
  {| cat_name := "Xcode Previews";
     cat_path := "~/Library/Developer/Xcode/Previews";
     cat_description := "SwiftUI Preview cache files. Safe to delete - Xcode will regenerate them.";
     cat_typical_size := "500MB-2GB";
     cat_safety := "safe";
     cat_type := "directory";
     cat_default := true |};
  {| cat_name := "System Caches";
     cat_path := "~/Library/Caches/com.apple.dt.Xcode";
     cat_description := "Various Xcode-related system caches. Advanced option.";
     cat_typical_size := "1-3GB";
     cat_safety := "advanced";
     cat_type := "directory";
     cat_default := false |}
].

(* ================================================================= *)
(** ** Vocabulary of the statements *)

Section Observations.

Variable Ext : Type.
Variable spawn : list string -> Z -> World Ext -> res CompletedProcess * World Ext.
Variable env : Env.

(** The size computation [get_directory_size] starts for [path]. *)
Definition du (path : string) (w : World Ext) : res CompletedProcess * World Ext :=
  spawn ["du"; "-sh"; expanduser env path] 10%Z w.

(** The size computation did not deliver a size: it raised (timeout,
    missing utility, ...) or ended with a nonzero return code. *)
Definition du_failed (r : res CompletedProcess) : Prop :=
  match r with
  | Raise _ => True
  | Ok cp => returncode cp <> 0%Z
  end.

(** The second component of what the measurement returned. *)
Definition flag_of (r : res (string * Z) * World Ext * list event) : option Z :=
  match r with
  | (Ok (_, flag), _, _) => Some flag
  | (Raise _, _, _) => None
  end.

(** The kinds [perform_cleanup] has a strategy for. *)
Definition known_kind (c : category) : bool :=
  String.eqb (cat_type c) "directory" || String.eqb (cat_type c) "command".

(** The list a run of [perform_cleanup] returns, and the world it leaves. *)
Definition outcomes (categories : list category) (w : World Ext) : list result :=
  match perform_cleanup spawn env categories w with
  | (Ok results, _, _) => results
  | (Raise _, _, _) => []
  end.

Definition final (categories : list category) (w : World Ext) : World Ext :=
  snd (fst (perform_cleanup spawn env categories w)).

Definition failed (o : result) : bool := negb (res_success o).

Definition count_failed (results : list result) : nat :=
  List.length (filter failed results).

(** [o] reports a target called like [c] as cleaned. *)
Definition cleaned (c : category) (o : result) : Prop :=
  res_name o = cat_name c /\ res_success o = true.

(** The path [q] lies in the directory [cs], or is that directory. *)
Definition inside (cs q : list string) : Prop := exists r, q = (cs ++ r)%list.

(** The names listed in the directory [path] are usable entry names. *)
Definition proper_listing (path : string) (root : FS.node) : bool :=
  match FS.listdir path root with
  | Ok names => forallb FS.proper_name names
  | Raise _ => true
  end.

(** Running the size utility leaves the file system as it is. *)
Definition du_reads_only : Prop :=
  forall (p : string) (w : World Ext),
    fs (snd (spawn ["du"; "-sh"; p] 10%Z w)) = fs w.

End Observations.

Arguments du {Ext} spawn env path w.
Arguments outcomes {Ext} spawn env categories w.
Arguments final {Ext} spawn env categories w.
Arguments du_reads_only {Ext} spawn.
Arguments flag_of {Ext} r.

(* ================================================================= *)
(** ** A concrete machine *)

Module Demo.

Import FS.

(** The bytes under a node. *)
Fixpoint total_size (n : node) : N :=
  match n with
  | File sz => sz
  | Dir _ es =>
      (fix sum (es : list (string * node)) : N :=
         match es with
         | [] => 0%N
         | (_, ch) :: rest => (total_size ch + sum rest)%N
         end) es
  end.

Definition show_bytes (n : N) : string :=
  NilEmpty.string_of_uint (N.to_uint n) ++ "B".

Definition tab : string := String "009"%char EmptyString.
Definition newline : string := String "010"%char EmptyString.

(** A machine where [du] prints the bytes under a path, [xcrun] exits with
    the status held in the external state, [sleep] runs into its timeout and
    no other program is installed. *)
Definition spawn (argv : list string) (timeout : Z) (w : World Z)
  : res CompletedProcess * World Z :=
  match argv with
  | ["du"; "-sh"; p] =>
      match resolve p with
      | Some cs =>
          match walk cs (fs w) with
          | Some n =>
              (Ok {| returncode := 0;
                     stdout := show_bytes (total_size n) ++ tab ++ p ++ newline;
                     stderr := "" |}, w)
          | None =>
              (Ok {| returncode := 1; stdout := "";
                     stderr := "du: " ++ p ++ ": No such file or directory" |}, w)
          end
      | None =>
          (Ok {| returncode := 1; stdout := "";
                 stderr := "du: : No such file or directory" |}, w)
      end
  | "xcrun" :: _ =>
      (Ok {| returncode := ext w; stdout := ""; stderr := "" |}, w)
  | "sleep" :: _ =>
      (Raise (Exn TimeoutExpired "Command timed out"), w)
  | prog :: _ => (Raise (enoent prog), w)
  | [] => (Raise (Exn OtherException "list index out of range"), w)
  end.

Definition env : Env :=
  {| HOME := Some "/Users/dev";
     pw_dir_self := Some "/Users/dev";
     pw_dir_of := fun _ => None |}.

(** The same machine with a disk so slow that [du] runs into its timeout. *)
Definition stalled_spawn (argv : list string) (timeout : Z) (w : World Z)
  : res CompletedProcess * World Z :=
  match argv with
  | "du" :: _ =>
      (Raise (Exn TimeoutExpired "Command 'du' timed out after 10 seconds"), w)
  | _ => spawn argv timeout w
  end.

(** The same machine where [du] cannot read the tree and exits with 1. *)
Definition denied_spawn (argv : list string) (timeout : Z) (w : World Z)
  : res CompletedProcess * World Z :=
  match argv with
  | "du" :: _ =>
      (Ok {| returncode := 1; stdout := "";
             stderr := "du: Permission denied" |}, w)
  | _ => spawn argv timeout w
  end.

(** A home directory, given what [DerivedData] and [Archives] hold. *)
Definition disk_of (derived archived : list (string * node)) : node :=
  Dir true [
    ("Users", Dir true [
       ("dev", Dir true [
          ("Library", Dir true [
             ("Developer", Dir true [
                ("Xcode", Dir true [
                   ("DerivedData", Dir true derived);
                   ("Archives", Dir true archived);
                   ("Previews", File 7) ]) ]);
             ("Caches", Dir true [ ("org.swift.swiftpm", Dir true []) ])
          ]);
          ("notes.txt", File 10)
       ])
    ])
  ].

(** Two sub-folders and one file. *)
Definition derived : list (string * node) :=
  [ ("App-abc", Dir true [ ("Build", Dir true [ ("app.o", File 4096) ]) ]);
    ("ModuleCache", Dir true [ ("m.pcm", File 1000) ]);
    ("info.plist", File 120) ].

(** The folder [2024] is write-protected. *)
Definition locked : list (string * node) :=
  [ ("2024", Dir false [ ("App.xcarchive", File 9000) ]) ].

Definition archived : list (string * node) :=
  ("old.xcarchive", File 500) :: locked.

Definition disk : node := disk_of derived archived.

Definition world : World Z := {| fs := disk; ext := 1%Z |}.

(** The world once [DerivedData] is cleaned. *)
Definition world_cleaned : World Z := {| fs := disk_of [] archived; ext := 1%Z |}.

(** The world once the first archive is gone. *)
Definition world_partial : World Z := {| fs := disk_of derived locked; ext := 1%Z |}.

(** The world once [DerivedData] is cleaned and the first archive is gone. *)
Definition world_failed : World Z := {| fs := disk_of [] locked; ext := 1%Z |}.

Definition derived_data : string := "~/Library/Developer/Xcode/DerivedData".
Definition archives : string := "~/Library/Developer/Xcode/Archives".
Definition previews : string := "~/Library/Developer/Xcode/Previews".
Definition device_logs : string := "~/Library/Developer/Xcode/iOS Device Logs".

Definition target (name path kind : string) : category :=
  {| cat_name := name; cat_path := path; cat_description := "";
     cat_typical_size := ""; cat_safety := "safe"; cat_type := kind;
     cat_default := true |}.

Definition t_derived : category := target "Derived Data" derived_data "directory".
Definition t_archives : category := target "Archives" archives "directory".
Definition t_swiftpm : category :=
  target "Swift Package Manager Cache" "~/Library/Caches/org.swift.swiftpm" "directory".
Definition t_simulators : category :=
  target "Unavailable Simulators" "xcrun simctl delete unavailable" "command".
Definition t_missing_tool : category :=
  target "Brew" "brew cleanup" "command".
(** A record of a kind the loop has no branch for. *)
Definition t_file : category := target "Stray File" "~/notes.txt" "file".

(** What the run reports for [t_archives] on this disk. *)
Definition archives_failed : result :=
  {| res_name := "Archives";
     res_success := false;
     res_message := "Error: [Errno 13] Permission denied: 'App.xcarchive'";
     res_size := "0B" |}.

End Demo.

(* ================================================================= *)
(** ** The interface of the script *)

(** The rest of [xcode_cleanup.py]: the free-space probe, the tables, the
    prompts and [main]. The console of [rich] is the list of what it has
    shown; what [rich] does with text that holds data of the run is an
    oracle, for it reads such text as markup and raises on a closing tag
    that closes nothing. A prompt of [questionary] is an oracle for what
    the user answers ([None] when the prompt is interrupted). [df] is run
    without a timeout, so it is an oracle that may never answer. Text
    outside ASCII stands as its UTF-8 bytes; it is only concatenated and
    printed. *)

(** What reached the terminal. *)
Inductive shown : Type :=
| Cleared
| Printed (text : string)
| PanelShown (text : string)
| TableShown (title : string) (columns : list string) (rows : list (list string))
| Asked (message : string).

(** A choice handed to [questionary.checkbox]. *)
Record choice : Type := {
  ch_name : string;
  ch_value : category;
  ch_checked : bool
}.

(** How [main] ends: it returns, or it calls [sys.exit]. *)
Inductive ending : Type :=
| Returned
| SystemExit (code : Z).

Definition LF : string := String "010"%char EmptyString.
Definition DQ : string := String "034"%char EmptyString.

(** [str(n)] and [{n}] in an f-string, for a length. *)
Definition str_of_nat (n : nat) : string :=
  NilEmpty.string_of_uint (Nat.to_uint n).

(** [d.get(key, default)] on a dict literal. *)
Fixpoint dict_get (d : list (string * string)) (key default : string) : string :=
  match d with
  | [] => default
  | (k, v) :: d' => if String.eqb k key then v else dict_get d' key default
  end.

(** The truth value of what [.ask()] returned. *)
Definition truthy (answer : option bool) : bool :=
  match answer with
  | Some true => true
  | _ => false
  end.

(** The values of the choices the user ticked, in the order of the choices. *)
Fixpoint ticked (choices : list choice) (ticks : list bool) : list category :=
  match choices, ticks with
  | c :: choices', true :: ticks' => ch_value c :: ticked choices' ticks'
  | _ :: choices', false :: ticks' => ticked choices' ticks'
  | _, _ => []
  end.

(** [format_category_choice] *)
Definition format_category_choice (category : category) : string :=
  let safety_icons := [ ("safe", "🟢"); ("caution", "🟡"); ("advanced", "🟠") ] in
  let icon := dict_get safety_icons (cat_safety category) "⚪" in
  let name := cat_name category in
  let typical := cat_typical_size category in
  icon ++ " " ++ name ++ " (typically " ++ typical ++ ")".

(** The row [show_results] adds for one result. *)
Definition result_row (result : result) : list string :=
  let status_icon := if res_success result then "✓" else "✗" in
  [ res_name result;
    status_icon ++ " " ++ res_message result;
    res_size result ].

(** *** Computations that may wait for ever *)

(** How a computation that waits for a process without a timeout ends: it
    is over, with a value or an exception, or the process never ends and
    the computation is stuck in the call. *)
Inductive run (A : Type) : Type :=
| Over (r : res A)
| Stuck.

Arguments Over {A} r.
Arguments Stuck {A}.

(** The state and the events of a stuck computation are those it had
    reached when it got stuck. *)
Definition W (S A : Type) : Type := S -> run A * S * list event.

(** A computation that waits for nothing. *)
Definition now {S A : Type} (m : M S A) : W S A :=
  fun s => let '(r, s1, l1) := m s in (Over r, s1, l1).

Definition wait_bind {S A B : Type} (m : W S A) (k : A -> W S B) : W S B :=
  fun s =>
    match m s with
    | (Over (Ok a), s1, l1) => let '(r, s2, l2) := k a s1 in (r, s2, (l1 ++ l2)%list)
    | (Over (Raise e), s1, l1) => (Over (Raise e), s1, l1)
    | (Stuck, s1, l1) => (Stuck, s1, l1)
    end.

(** [try: m  except Exception as e: h e]; a stuck call is not an exception. *)
Definition wait_try {S A : Type} (m : W S A) (h : exn -> W S A) : W S A :=
  fun s =>
    match m s with
    | (Over (Ok a), s1, l1) => (Over (Ok a), s1, l1)
    | (Over (Raise e), s1, l1) => let '(r, s2, l2) := h e s1 in (r, s2, (l1 ++ l2)%list)
    | (Stuck, s1, l1) => (Stuck, s1, l1)
    end.

Declare Scope wait_scope.
Delimit Scope wait_scope with wait.
Notation "x <- c1 ;; c2" := (wait_bind c1 (fun x => c2))
  (at level 61, c1 at next level, right associativity) : wait_scope.
Notation "c1 ;; c2" := (wait_bind c1 (fun _ => c2))
  (at level 61, right associativity) : wait_scope.

Section Interface.

Variable Ext : Type.
Variable spawn : list string -> Z -> World Ext -> res CompletedProcess * World Ext.
Variable env : Env.

(** [spawn_wait argv w]: what running [argv] under [subprocess.run] without
    a timeout does: the process ends, or could not be started, or it never
    ends. *)
Variable spawn_wait : list string -> World Ext -> run CompletedProcess * World Ext.

(** What [rich] does when it renders a text, or a table with its cells, as
    console markup: it shows it ([None]) or raises. *)
Variable rich_markup : string -> option exn.
Variable rich_table : string -> list string -> list (list string) -> option exn.

(** Whatever the user at the terminal remembers. *)
Variable User : Type.

Record Session : Type := {
  world : World Ext;
  user : User;
  screen : list shown
}.

(** What the user answers to a yes/no prompt and to a checkbox prompt (one
    tick per choice), seeing the session so far. *)
Variable ask_confirm : string -> bool -> Session -> option bool * User.
Variable ask_checkbox : string -> list choice -> Session -> option (list bool) * User.

Definition Ui (A : Type) : Type := M Session A.

(** A computation on the world, run inside a session. *)
Definition lift {A : Type} (m : Py Ext A) : Ui A :=
  fun s => let '(r, w, l) := m (world s) in
           (r, {| world := w; user := user s; screen := screen s |}, l).

Definition lift_wait {A : Type} (m : W (World Ext) A) : W Session A :=
  fun s => let '(r, w, l) := m (world s) in
           (r, {| world := w; user := user s; screen := screen s |}, l).

Definition show (x : shown) : Ui unit :=
  fun s => (Ok tt, {| world := world s; user := user s;
                      screen := (screen s ++ [x])%list |}, []).

(** [console.clear()], [console.print()] and [console.print(text)] for a
    literal of the script: the literals are well-formed markup, each tag
    closed by its own closing tag, and [rich] shows them. *)
Definition console_clear : Ui unit := show Cleared.
Definition console_print_blank : Ui unit := show (Printed "").
Definition console_print (text : string) : Ui unit := show (Printed text).

(** [console.print(f"...")]: a text that holds data of the run. *)
Definition console_print_f (text : string) : Ui unit :=
  match rich_markup text with
  | Some e => raise e
  | None => show (Printed text)
  end.

(** [console.print(table)]: the cells are rendered when the table is
    printed. *)
Definition console_print_table (title : string) (columns : list string)
           (rows : list (list string)) : Ui unit :=
  match rich_table title columns rows with
  | Some e => raise e
  | None => show (TableShown title columns rows)
  end.

(** [questionary.confirm(message, default=default, style=custom_style).ask()] *)
Definition questionary_confirm (message : string) (default : bool)
  : Ui (option bool) :=
  fun s => let (answer, u) := ask_confirm message default s in
           (Ok answer, {| world := world s; user := u;
                          screen := (screen s ++ [Asked message])%list |}, []).

(** [questionary.checkbox(message, choices=choices, style=custom_style).ask()] *)
Definition questionary_checkbox (message : string) (choices : list choice)
  : Ui (option (list category)) :=
  fun s => let (answer, u) := ask_checkbox message choices s in
           (Ok (option_map (ticked choices) answer),
            {| world := world s; user := u;
               screen := (screen s ++ [Asked message])%list |}, []).

(** [subprocess.run(argv, capture_output=True, text=True)]: no timeout. *)
Definition subprocess_run_wait (argv : list string) : W (World Ext) CompletedProcess :=
  fun w => let (r, w') := spawn_wait argv w in (r, w', []).

(** *** [get_available_space] *)

Definition get_available_space : W (World Ext) string :=
  wait_try
    (result <- subprocess_run_wait ["df"; "-h"; "/"] ;;
     now (if (returncode result =? 0)%Z then
            let lines := PyStr.split_on "010"%char (PyStr.strip (stdout result)) in
            if Nat.leb 2 (List.length lines) then
              let parts := PyStr.split_ws (nth 1 lines "") in
              if Nat.leb 4 (List.length parts) then ret (nth 3 parts "")
              else ret "Unknown"
            else ret "Unknown"
          else ret "Unknown"))%wait
    (fun _ => now (ret "Unknown")).

(** *** [show_header] *)

Definition show_header : W Session unit :=
  (now console_clear ;;
   let header := PanelShown ("[bold]🧹 Xcode Cleanup Tool[/bold]" ++ LF
                             ++ "Free up disk space by removing Xcode cache files") in
   now (show header) ;;
   now console_print_blank ;;
   available <- lift_wait get_available_space ;;
   now (console_print_f ("[bold]Available Disk Space:[/bold] " ++ available)) ;;
   now console_print_blank)%wait.

(** *** [show_category_details] *)

(** The [for category in CATEGORIES] loop; [rows] is what [table.add_row]
    has collected. *)
Fixpoint details_loop (categories : list category) (rows : list (list string))
  : Py Ext (list (list string)) :=
  match categories with
  | [] => ret rows
  | category :: rest =>
      let safety_display :=
        [ ("safe", "✓ Safe"); ("caution", "⚠️  Caution"); ("advanced", "⚡ Advanced") ] in
      size <-
        (if String.eqb (cat_type category) "directory" then
           ' (size, _) <- get_directory_size spawn env (cat_path category) ;;
           ret size
         else ret "N/A") ;;
      details_loop rest
        (rows ++ [ [ cat_name category;
                     cat_description category;
                     size;
                     dict_get safety_display (cat_safety category) "Unknown" ] ])%list
  end.

Definition show_category_details : Ui unit :=
  rows <- lift (details_loop CATEGORIES []) ;;
  console_print_table "Cleanup Categories"
                      ["Category"; "Description"; "Size"; "Safety"] rows ;;
  console_print_blank.

(** *** [select_categories] *)

Definition select_categories : Ui (list category) :=
  let choices :=
    map (fun cat => {| ch_name := format_category_choice cat;
                       ch_value := cat;
                       ch_checked := cat_default cat |}) CATEGORIES in
  console_print "[bold]Select items to clean:[/bold]" ;;
  console_print "Use ↑↓ to navigate, Space to toggle, 'a' to select all, Enter to confirm" ;;
  console_print_blank ;;
  selected <- questionary_checkbox "" choices ;;
  ret (match selected with
       | Some (c :: cs) => c :: cs
       | _ => []
       end).

(** *** [show_results] *)

Definition show_results (results : list result) : W Session unit :=
  (now console_print_blank ;;
   now (console_print "[bold]✨ Cleanup Completed![/bold]") ;;
   now console_print_blank ;;
   now (console_print_table "Results" ["Category"; "Status"; "Size Freed"]
                            (map result_row results)) ;;
   now console_print_blank ;;
   new_space <- lift_wait get_available_space ;;
   now (console_print_f ("[bold]New Available Space:[/bold] " ++ new_space)) ;;
   now console_print_blank)%wait.

(** *** [main] *)

Definition details_question : string :=
  "Would you like to see detailed information about all categories?".

Definition delete_question (n : nat) : string :=
  "⚠️  Delete cache files from " ++ str_of_nat n ++ " categories? "
  ++ "(Your projects and source code will NOT be affected)".

Definition trash_question : string := "Would you like to empty the Trash?".

Definition empty_trash_argv : list string :=
  ["osascript"; "-e";
   "tell application " ++ DQ ++ "Finder" ++ DQ ++ " to empty trash"].

(** The [if empty_trash:] block. *)
Definition empty_the_trash : Ui unit :=
  console_print "Emptying trash..." ;;
  try_except
    (lift (subprocess_run spawn empty_trash_argv 30) ;;
     console_print "✓ Trash emptied")
    (fun _ => console_print "✗ Failed to empty trash").

Definition main : W Session ending :=
  wait_try
    (show_header ;;
     show_details <- now (questionary_confirm details_question false) ;;
     (if truthy show_details then
        now console_print_blank ;;
        now show_category_details
      else now (ret tt)) ;;
     selected_categories <- now select_categories ;;
     match selected_categories with
     | [] =>
         now (console_print "[yellow]No categories selected. Exiting.[/yellow]") ;;
         now (ret Returned)
     | _ :: _ =>
         now console_print_blank ;;
         now (console_print_f ("Selected "
                               ++ str_of_nat (List.length selected_categories)
                               ++ " categories for cleanup")) ;;
         now console_print_blank ;;
         confirm <- now (questionary_confirm
                           (delete_question (List.length selected_categories))
                           false) ;;
         if negb (truthy confirm) then
           now (console_print "[yellow]Cleanup cancelled.[/yellow]") ;;
           now (ret Returned)
         else
           now console_print_blank ;;
           results <- now (lift (perform_cleanup spawn env selected_categories)) ;;
           show_results results ;;
           empty_trash <- now (questionary_confirm trash_question false) ;;
           (if truthy empty_trash then now empty_the_trash else now (ret tt)) ;;
           now console_print_blank ;;
           now (console_print "[bold]🎉 All done![/bold]") ;;
           now (ret Returned)
     end)%wait
    (fun e =>
       (now console_print_blank ;;
        now (console_print_f ("[bold]Error: " ++ exn_str e ++ "[/bold]")) ;;
        now (ret (SystemExit 1)))%wait).

End Interface.

Arguments world {Ext User} s.
Arguments user {Ext User} s.
Arguments screen {Ext User} s.
Arguments lift {Ext User A} m s.
Arguments lift_wait {Ext User A} m s.
Arguments show {Ext User} x s.
Arguments console_clear {Ext User} s.
Arguments console_print {Ext User} text s.
Arguments console_print_blank {Ext User} s.
Arguments console_print_f {Ext} rich_markup {User} text s.
Arguments console_print_table {Ext} rich_table {User} title columns rows s.
Arguments questionary_confirm {Ext User} ask_confirm message default s.
Arguments questionary_checkbox {Ext User} ask_checkbox message choices s.
Arguments subprocess_run_wait {Ext} spawn_wait argv w.
Arguments get_available_space {Ext} spawn_wait.
Arguments show_header {Ext} spawn_wait rich_markup {User}.
Arguments details_loop {Ext} spawn env categories rows.
Arguments show_category_details {Ext} spawn env rich_table {User}.
Arguments select_categories {Ext User} ask_checkbox.
Arguments show_results {Ext} spawn_wait rich_markup rich_table {User} results.
Arguments empty_the_trash {Ext} spawn {User}.
Arguments main {Ext} spawn env spawn_wait rich_markup rich_table {User}
  ask_confirm ask_checkbox.

(* ================================================================= *)
(** ** Vocabulary for text *)

Module Text.

(** Every character of [s] satisfies [p]. *)
Fixpoint every (p : ascii -> bool) (s : string) : bool :=
  match s with
  | EmptyString => true
  | String c s' => p c && every p s'
  end.

Definition not_blank (c : ascii) : bool := negb (PyStr.is_space c).

(** Only blanks. *)
Definition blank (s : string) : bool := every PyStr.is_space s.

(** A word: not empty, and without any blank. *)
Definition solid (s : string) : bool :=
  negb (String.eqb s "") && every not_blank s.

Definition without (ch : ascii) (s : string) : bool :=
  every (fun c => negb (Ascii.eqb c ch)) s.

(** [n] spaces. *)
Fixpoint spaces (n : nat) : string :=
  match n with
  | O => EmptyString
  | S n' => String " "%char (spaces n')
  end.

(** Nothing, or text that starts with a blank. *)
Definition detached (s : string) : bool :=
  match s with
  | EmptyString => true
  | String c _ => PyStr.is_space c
  end.

End Text.

(** Running [df] leaves the file system as it is. *)
Definition df_reads_only {Ext : Type}
           (spawn_wait : list string -> World Ext -> run CompletedProcess * World Ext)
  : Prop :=
  forall w : World Ext, fs (snd (spawn_wait ["df"; "-h"; "/"] w)) = fs w.

(** [df] never ends, in some world. *)
Definition df_hangs {Ext : Type}
           (spawn_wait : list string -> World Ext -> run CompletedProcess * World Ext)
  : Prop :=
  exists w : World Ext, fst (spawn_wait ["df"; "-h"; "/"] w) = Stuck.

(** [e] is an exception that [rich] raises on some text or table. *)
Definition raised_by_rich
           (rich_markup : string -> option exn)
           (rich_table : string -> list string -> list (list string) -> option exn)
           (e : exn) : Prop :=
  (exists text, rich_markup text = Some e)
  \/ (exists title columns rows, rich_table title columns rows = Some e).

(* ================================================================= *)
(** ** Vocabulary for the interface *)

(** [l1] is [l2] with some elements left out, the order kept. *)
Inductive Subseq {A : Type} : list A -> list A -> Prop :=
| Subseq_nil : forall l, Subseq [] l
| Subseq_take : forall x l1 l2, Subseq l1 l2 -> Subseq (x :: l1) (x :: l2)
| Subseq_skip : forall x l1 l2, Subseq l1 l2 -> Subseq l1 (x :: l2).

(** The home directory [os.path.expanduser] finds for the current user. *)
Definition home_of (env : Env) : option string :=
  match HOME env with
  | Some h => Some h
  | None => pw_dir_self env
  end.

(** [m] keeps the invariant [I] of the state however it ends, and ends
    with a value in [Q], with an exception in [E], or stuck when [B]. *)
Definition ends_in {S A : Type} (I : S -> Prop) (m : W S A)
           (Q : A -> Prop) (E : exn -> Prop) (B : Prop) : Prop :=
  forall s, I s ->
    I (snd (fst (m s)))
    /\ match fst (fst (m s)) with
       | Over (Ok a) => Q a
       | Over (Raise e) => E e
       | Stuck => B
       end.

Section Users.

Variable Ext : Type.
Variable User : Type.

(** A user who never answers yes when asked to confirm the deletion. *)
Definition never_confirms_deletion
           (ask_confirm : string -> bool -> Session Ext User -> option bool * User)
  : Prop :=
  forall (n : nat) (default : bool) (s : Session Ext User),
    truthy (fst (ask_confirm (delete_question n) default s)) = false.

(** A user who interrupts the checkbox prompt or ticks no box. *)
Definition ticks_nothing
           (ask_checkbox : string -> list choice -> Session Ext User
                           -> option (list bool) * User)
  : Prop :=
  forall (message : string) (choices : list choice) (s : Session Ext User),
    match fst (ask_checkbox message choices s) with
    | Some ticks => ticked choices ticks = []
    | None => True
    end.

End Users.

Arguments never_confirms_deletion {Ext User} ask_confirm.
Arguments ticks_nothing {Ext User} ask_checkbox.

(* ================================================================= *)
(** ** A concrete desk *)

Module Desk.

(** [df -h /] as macOS prints it; no other program answers. *)
Definition df_output : string :=
  "Filesystem      Size   Used  Avail Capacity iused ifree %iused  Mounted on" ++ LF
  ++ "/dev/disk3s1   460Gi   10Gi  212Gi     5%    404k  2.2G    0%   /" ++ LF.

Definition spawn_wait (argv : list string) (w : World Z)
  : run CompletedProcess * World Z :=
  match argv with
  | ["df"; "-h"; "/"] =>
      (Over (Ok {| returncode := 0; stdout := df_output; stderr := "" |}), w)
  | prog :: _ => (Over (Raise (enoent prog)), w)
  | [] => (Over (Raise (Exn OtherException "list index out of range")), w)
  end.

(** A [df] that never ends. *)
Definition hanging_df (argv : list string) (w : World Z)
  : run CompletedProcess * World Z := (Stuck, w).

(** A [df] whose fourth column closes a tag that was never opened. *)
Definition odd_df (argv : list string) (w : World Z)
  : run CompletedProcess * World Z :=
  (Over (Ok {| returncode := 0;
               stdout := "Filesystem Size Used Avail" ++ LF
                         ++ "/dev/disk3s1 460Gi 10Gi [/x]" ++ LF;
               stderr := "" |}), w).

(** A [rich] that shows whatever it is given, and one that raises on a
    text or a cell holding the closing tag [[/x]]. *)
Definition rich_markup (text : string) : option exn := None.

Definition rich_table (title : string) (columns : list string)
           (rows : list (list string)) : option exn := None.

Definition markup_error : exn :=
  Exn OtherException "closing tag '[/x]' doesn't match any open tag".

Definition strict_markup (text : string) : option exn :=
  match String.index 0 "[/x]" text with
  | Some _ => Some markup_error
  | None => None
  end.

Definition strict_table (title : string) (columns : list string)
           (rows : list (list string)) : option exn :=
  if existsb (existsb (fun cell => match String.index 0 "[/x]" cell with
                                   | Some _ => true
                                   | None => false
                                   end)) rows
  then Some markup_error else None.

(** A user who looks at the details, keeps the boxes as they are offered
    and then answers as [consent] says to the deletion and no to the rest. *)
Definition ask_confirm (consent : bool) (message : string) (default : bool)
           (s : Session Z unit) : option bool * unit :=
  if String.eqb message details_question then (Some true, tt)
  else if String.eqb message trash_question then (Some false, tt)
  else (Some consent, tt).

Definition ask_checkbox (message : string) (choices : list choice)
           (s : Session Z unit) : option (list bool) * unit :=
  (Some (map ch_checked choices), tt).

(** A user who unticks every box. *)
Definition untick_all (message : string) (choices : list choice)
           (s : Session Z unit) : option (list bool) * unit :=
  (Some (map (fun _ => false) choices), tt).

Definition start : Session Z unit :=
  {| world := Demo.world; user := tt; screen := [] |}.

End Desk.

(* ================================================================= *)
(** ** Properties *)

(** Unfold the plumbing of a computation applied to a world. *)
Ltac unfold_py :=
  unfold Py, bind, ret, raise, try_except,
    os_path_exists, os_path_isdir, os_listdir, os_remove, shutil_rmtree,
    subprocess_run, progress_add_task, progress_update, progress_advance,
    os_path_expanduser, emit in *;
  cbv beta iota in *.

Lemma split_on_not_nil (sep : ascii) (s : string) : PyStr.split_on sep s <> [].
Proof.
  induction s as [|c s IH]; simpl; [discriminate|].
  destruct (Ascii.eqb c sep); [discriminate|].
  destruct (PyStr.split_on sep s); [contradiction|discriminate].
Qed.

Section Measurement.

Variable Ext : Type.
Variable spawn : list string -> Z -> World Ext -> res CompletedProcess * World Ext.
Variable env : Env.

Lemma get_directory_size_absent (path : string) (w : World Ext) :
  FS.exists_ (expanduser env path) (fs w) = false ->
  get_directory_size spawn env path w = (Ok ("Not found", 0%Z), w, []).
Proof.
  intros H. unfold get_directory_size, du in *. unfold_py. rewrite H. reflexivity.
Qed.

Lemma get_directory_size_raised (path : string) (w w' : World Ext) (e : exn) :
  FS.exists_ (expanduser env path) (fs w) = true ->
  du spawn env path w = (Raise e, w') ->
  get_directory_size spawn env path w = (Ok ("Error", 0%Z), w', []).
Proof.
  intros H D. unfold get_directory_size, du in *. unfold_py.
  rewrite H. simpl. rewrite D. reflexivity.
Qed.

Lemma get_directory_size_completed (path : string) (w w' : World Ext)
      (cp : CompletedProcess) :
  FS.exists_ (expanduser env path) (fs w) = true ->
  du spawn env path w = (Ok cp, w') ->
  get_directory_size spawn env path w =
    (Ok (if (returncode cp =? 0)%Z
         then (PyStr.strip (hd "" (PyStr.split_on "009"%char (stdout cp))), 1%Z)
         else ("Error", 0%Z)), w', []).
Proof.
  intros H D. unfold get_directory_size, du in *. unfold_py.
  rewrite H. simpl. rewrite D.
  destruct (returncode cp =? 0)%Z; reflexivity.
Qed.

(** The measurement never raises and never touches the progress bar. *)
Lemma get_directory_size_returns (path : string) (w : World Ext) :
  exists v w', get_directory_size spawn env path w = (Ok v, w', []).
Proof.
  destruct (FS.exists_ (expanduser env path) (fs w)) eqn:H.
  - destruct (du spawn env path w) as [[cp|e] w'] eqn:D.
    + eexists _, _. eapply get_directory_size_completed; eauto.
    + eexists _, _. eapply get_directory_size_raised; eauto.
  - eexists _, _. apply get_directory_size_absent; assumption.
Qed.

(** C8. For every path: if the expanded path does not exist the measurement
    returns the marker "Not found" with flag 0 (exists = false) and leaves
    the world alone; if it exists and the size computation, run with
    timeout 10, raises (a timeout or any other invocation failure) or ends
    with a nonzero return code, the measurement returns the marker "Error"
    instead of raising; in no case does an exception leave
    [get_directory_size]; and the two markers differ. *)
Theorem get_directory_size_degrades (path : string) (w : World Ext) :
  (FS.exists_ (expanduser env path) (fs w) = false ->
     get_directory_size spawn env path w = (Ok ("Not found", 0%Z), w, []))
  /\ (forall e w',
        FS.exists_ (expanduser env path) (fs w) = true ->
        spawn ["du"; "-sh"; expanduser env path] 10%Z w = (Raise e, w') ->
        get_directory_size spawn env path w = (Ok ("Error", 0%Z), w', []))
  /\ (forall cp w',
        FS.exists_ (expanduser env path) (fs w) = true ->
        spawn ["du"; "-sh"; expanduser env path] 10%Z w = (Ok cp, w') ->
        returncode cp <> 0%Z ->
        get_directory_size spawn env path w = (Ok ("Error", 0%Z), w', []))
  /\ (exists v w', get_directory_size spawn env path w = (Ok v, w', []))
  /\ "Not found" <> "Error".
Proof.
  split; [|split; [|split; [|split]]].
  - apply get_directory_size_absent.
  - intros e w' H D. eapply get_directory_size_raised; eauto.
  - intros cp w' H D R.
    rewrite (get_directory_size_completed path w w' cp H D).
    destruct (returncode cp =? 0)%Z eqn:E; [|reflexivity].
    apply Z.eqb_eq in E. contradiction.
  - apply get_directory_size_returns.
  - discriminate.
Qed.

(** C10. For every path that exists but whose size computation fails or
    times out, the flag returned is 0, the very flag returned for any
    absent path. *)
Theorem get_directory_size_flag_conflates (path : string) (w : World Ext)
        (absent : string) (w0 : World Ext) :
  FS.exists_ (expanduser env path) (fs w) = true ->
  du_failed (fst (du spawn env path w)) ->
  FS.exists_ (expanduser env absent) (fs w0) = false ->
  flag_of (get_directory_size spawn env path w) = Some 0%Z
  /\ flag_of (get_directory_size spawn env absent w0) = flag_of (get_directory_size spawn env path w).
Proof.
  intros H F H0.
  rewrite (get_directory_size_absent _ _ H0).
  destruct (du spawn env path w) as [[cp|e] w'] eqn:D; simpl in F.
  - rewrite (get_directory_size_completed _ _ _ _ H D).
    destruct (returncode cp =? 0)%Z eqn:R.
    + apply Z.eqb_eq in R. contradiction.
    + split; reflexivity.
  - rewrite (get_directory_size_raised _ _ _ _ H D). split; reflexivity.
Qed.

End Measurement.

Section Deletion.

Variable Ext : Type.
Variable spawn : list string -> Z -> World Ext -> res CompletedProcess * World Ext.
Variable env : Env.

Lemma remove_item_silent (p item : string) (w w' : World Ext) r l :
  remove_item p item w = (r, w', l) -> l = [].
Proof.
  unfold remove_item. unfold_py.
  destruct (FS.isdir _ _).
  - destruct (FS.rmtree _ _) as [r0 t]. destruct r0; intros E; inversion E; reflexivity.
  - destruct (FS.remove _ _) as [r0 t]. destruct r0; intros E; inversion E; reflexivity.
Qed.

Lemma remove_items_nil (p : string) (w : World Ext) :
  remove_items p [] w = (Ok tt, w, []).
Proof. reflexivity. Qed.

Lemma remove_items_cons (p item : string) (items : list string) (w : World Ext) :
  remove_items p (item :: items) w =
    match remove_item p item w with
    | (Ok _, w0, _) =>
        let '(r, w1, l1) := remove_items p items w0 in (r, w1, l1)
    | (Raise e, w0, _) => (Raise e, w0, [])
    end.
Proof.
  unfold remove_items at 1. simpl. unfold bind at 1.
  destruct (remove_item p item w) as [[r0 w0] l0] eqn:E0.
  apply remove_item_silent in E0. subst l0.
  destruct r0; reflexivity.
Qed.

Lemma remove_items_silent (p : string) (items : list string) :
  forall (w w' : World Ext) r l, remove_items p items w = (r, w', l) -> l = [].
Proof.
  induction items as [|item items IH]; intros w w' r l.
  - rewrite remove_items_nil. intros E; inversion E; reflexivity.
  - rewrite remove_items_cons.
    destruct (remove_item p item w) as [[[[]|e] w0] l0].
    + destruct (remove_items p items w0) as [[r1 w1] l1] eqn:E1.
      apply IH in E1. subst l1. intros E; inversion E; reflexivity.
    + intros E; inversion E; reflexivity.
Qed.

Lemma remove_contents_unfold (p : string) (w : World Ext) :
  remove_contents p w =
    match FS.listdir p (fs w) with
    | Ok items => remove_items p items w
    | Raise e => (Raise e, w, [])
    end.
Proof.
  unfold remove_contents. unfold bind at 1. unfold os_listdir.
  destruct (FS.listdir p (fs w)) as [items|e]; [|reflexivity].
  destruct (remove_items p items w) as [[r w'] l]. reflexivity.
Qed.

Lemma remove_contents_silent (p : string) (w w' : World Ext) r l :
  remove_contents p w = (r, w', l) -> l = [].
Proof.
  rewrite remove_contents_unfold.
  destruct (FS.listdir p (fs w)).
  - apply remove_items_silent.
  - intros E; inversion E; reflexivity.
Qed.

Lemma clean_directory_absent (path : string) (w : World Ext) :
  FS.exists_ (expanduser env path) (fs w) = false ->
  clean_directory spawn env path w = (Ok (true, "Directory not found", "0B"), w, []).
Proof.
  intros H. unfold clean_directory. unfold_py. rewrite H. reflexivity.
Qed.

Lemma clean_directory_present (path : string) (w w1 : World Ext)
      (size_before : string) (flag : Z) :
  FS.exists_ (expanduser env path) (fs w) = true ->
  get_directory_size spawn env path w = (Ok (size_before, flag), w1, []) ->
  clean_directory spawn env path w =
    match remove_contents (expanduser env path) w1 with
    | (Ok _, w2, _) => (Ok (true, "Cleaned successfully", size_before), w2, [])
    | (Raise e, w2, _) => (Ok (false, "Error: " ++ exn_str e, "0B"), w2, [])
    end.
Proof.
  intros H G. unfold clean_directory.
  unfold bind at 1. unfold os_path_exists, os_path_expanduser. rewrite H. simpl.
  unfold bind at 1. rewrite G. unfold try_except, bind.
  destruct (remove_contents (expanduser env path) w1) as [[r w2] l] eqn:R.
  apply remove_contents_silent in R. subst l.
  destruct r; reflexivity.
Qed.

(** The deletion strategy never raises and never touches the progress bar. *)
Lemma clean_directory_returns (path : string) (w : World Ext) :
  exists o w', clean_directory spawn env path w = (Ok o, w', []).
Proof.
  destruct (FS.exists_ (expanduser env path) (fs w)) eqn:H.
  - destruct (get_directory_size_returns _ spawn env path w) as [[sz fl] [w1 G]].
    rewrite (clean_directory_present path w w1 sz fl H G).
    destruct (remove_contents (expanduser env path) w1) as [[[[]|e] w2] l];
      eexists _, _; reflexivity.
  - eexists _, _. apply clean_directory_absent; assumption.
Qed.

(** C4. For every path whose expanded form does not exist, [clean_directory]
    returns success with the message "Directory not found" and the size
    "0B", leaves the world (the file system included) as it was, and run
    a second time returns the same outcome again. *)
Theorem clean_directory_absent_noop (path : string) (w : World Ext) :
  FS.exists_ (expanduser env path) (fs w) = false ->
  clean_directory spawn env path w
    = (Ok (true, "Directory not found", "0B"), w, [])
  /\ bind (clean_directory spawn env path)
          (fun _ => clean_directory spawn env path) w
    = (Ok (true, "Directory not found", "0B"), w, []).
Proof.
  intros H. split.
  - apply clean_directory_absent; assumption.
  - unfold bind. rewrite !(clean_directory_absent path w H). reflexivity.
Qed.

(** A success report comes from a measurement followed by a removal that
    met no error. *)
Lemma clean_directory_success_inv (path : string) (w w' : World Ext)
      (message size : string) (l : list event) :
  FS.exists_ (expanduser env path) (fs w) = true ->
  clean_directory spawn env path w = (Ok (true, message, size), w', l) ->
  exists flag w1,
    get_directory_size spawn env path w = (Ok (size, flag), w1, [])
    /\ remove_contents (expanduser env path) w1 = (Ok tt, w', [])
    /\ message = "Cleaned successfully".
Proof.
  intros H C.
  destruct (get_directory_size_returns _ spawn env path w) as [[sz fl] [w1 G]].
  rewrite (clean_directory_present path w w1 sz fl H G) in C.
  destruct (remove_contents (expanduser env path) w1) as [[[[]|e] w2] l2] eqn:R.
  - inversion C; subst. exists fl, w1. split; [assumption|].
    split; [|reflexivity].
    rewrite (remove_contents_silent _ _ _ _ _ R) in R. exact R.
  - inversion C.
Qed.

(** C6. For every existing path on which the deletion succeeds, the size
    in the outcome is the size [get_directory_size] returned in the world
    [clean_directory] was started in, before the removal began: the
    removal ran in the world the measurement left. *)
Theorem clean_directory_reports_size_before (path : string) (w w' : World Ext)
        (message size : string) (l : list event) :
  FS.exists_ (expanduser env path) (fs w) = true ->
  clean_directory spawn env path w = (Ok (true, message, size), w', l) ->
  exists flag w1,
    get_directory_size spawn env path w = (Ok (size, flag), w1, [])
    /\ remove_contents (expanduser env path) w1 = (Ok tt, w', []).
Proof.
  intros H C.
  destruct (clean_directory_success_inv path w w' message size l H C)
    as [flag [w1 [G [R _]]]].
  exists flag, w1. split; assumption.
Qed.

Lemma remove_items_stops (p item : string) (rest : list string) (e : exn) :
  forall (done : list string) (w wk w2 : World Ext),
    remove_items p done w = (Ok tt, wk, []) ->
    remove_item p item wk = (Raise e, w2, []) ->
    remove_items p (done ++ item :: rest) w = (Raise e, w2, []).
Proof.
  induction done as [|d done IH]; intros w wk w2 D I; simpl.
  - rewrite remove_items_nil in D. inversion D; subst.
    rewrite remove_items_cons, I. reflexivity.
  - rewrite remove_items_cons in D |- *.
    destruct (remove_item p d w) as [[[[]|e0] w0] l0]; [|discriminate].
    destruct (remove_items p done w0) as [[r1 w1] l1] eqn:E1.
    inversion D; subst.
    rewrite (IH w0 wk w2 E1 I). reflexivity.
Qed.

(** C7. For every existing path: when, after some entries of the listing
    were removed, removing the next one raises [e], [clean_directory] does
    not raise; it returns success = false, the message "Error: " followed
    by the description of [e], and the size "0B". *)
Theorem clean_directory_reports_removal_error
        (path : string) (w w1 wk w2 : World Ext) (size_before : string) (flag : Z)
        (done rest : list string) (item : string) (e : exn) :
  FS.exists_ (expanduser env path) (fs w) = true ->
  get_directory_size spawn env path w = (Ok (size_before, flag), w1, []) ->
  FS.listdir (expanduser env path) (fs w1) = Ok (done ++ item :: rest)%list ->
  remove_items (expanduser env path) done w1 = (Ok tt, wk, []) ->
  remove_item (expanduser env path) item wk = (Raise e, w2, []) ->
  clean_directory spawn env path w
    = (Ok (false, "Error: " ++ exn_str e, "0B"), w2, []).
Proof.
  intros H G L D I.
  rewrite (clean_directory_present path w w1 size_before flag H G).
  rewrite remove_contents_unfold, L.
  rewrite (remove_items_stops _ _ rest _ done _ _ _ D I). reflexivity.
Qed.

End Deletion.

Section Orchestration.

Variable Ext : Type.
Variable spawn : list string -> Z -> World Ext -> res CompletedProcess * World Ext.
Variable env : Env.

Lemma execute_command_unfold (command : string) (w : World Ext) :
  execute_command spawn command w =
    match spawn (PyStr.split_ws command) 30%Z w with
    | (Ok cp, w') =>
        (Ok (true, if (returncode cp =? 0)%Z then "Executed successfully"
                   else "No unavailable simulators found"), w', [])
    | (Raise e, w') => (Ok (false, "Error: " ++ exn_str e), w', [])
    end.
Proof.
  unfold execute_command. unfold_py.
  destruct (spawn (PyStr.split_ws command) 30%Z w) as [[cp|e] w']; [|reflexivity].
  destruct (returncode cp =? 0)%Z; reflexivity.
Qed.

Lemma execute_command_returns (command : string) (w : World Ext) :
  exists o w', execute_command spawn command w = (Ok o, w', []).
Proof.
  rewrite execute_command_unfold.
  destruct (spawn (PyStr.split_ws command) 30%Z w) as [[cp|e] w'];
    eexists _, _; reflexivity.
Qed.

(** What one turn of the loop adds to the result list, whatever that list
    holds so far. *)
Lemma cleanup_loop_turn (c : category) (w : World Ext) :
  exists (new : list result) (w1 : World Ext),
    (forall rest acc,
        cleanup_loop spawn env (c :: rest) acc w =
          let '(r, w2, l) := cleanup_loop spawn env rest (acc ++ new)%list w1 in
          (r, w2, Update ("Cleaning: " ++ cat_name c) :: Advance :: l))
    /\ ((String.eqb (cat_type c) "directory" = true /\
         exists success message size,
           clean_directory spawn env (cat_path c) w
             = (Ok (success, message, size), w1, [])
           /\ new = [ {| res_name := cat_name c; res_success := success;
                         res_message := message; res_size := size |} ])
        \/ (String.eqb (cat_type c) "directory" = false /\
            String.eqb (cat_type c) "command" = true /\
            exists success message,
              execute_command spawn (cat_path c) w = (Ok (success, message), w1, [])
              /\ new = [ {| res_name := cat_name c; res_success := success;
                            res_message := message; res_size := "N/A" |} ])
        \/ (known_kind c = false /\ new = [] /\ w1 = w)).
Proof.
  unfold known_kind.
  destruct (String.eqb (cat_type c) "directory") eqn:Kd;
    [|destruct (String.eqb (cat_type c) "command") eqn:Kc].
  - destruct (clean_directory_returns _ spawn env (cat_path c) w)
      as [[[success message] size] [w1 C]].
    exists [ {| res_name := cat_name c; res_success := success;
                res_message := message; res_size := size |} ], w1. split.
    + intros rest acc. cbn [cleanup_loop]. rewrite Kd. unfold_py. rewrite C.
      destruct (cleanup_loop spawn env rest _ w1) as [[r w2] l]. reflexivity.
    + left. split; [reflexivity|]. eexists _, _, _. split; [exact C|reflexivity].
  - destruct (execute_command_returns (cat_path c) w) as [[success message] [w1 C]].
    exists [ {| res_name := cat_name c; res_success := success;
                res_message := message; res_size := "N/A" |} ], w1. split.
    + intros rest acc. cbn [cleanup_loop]. rewrite Kd, Kc. unfold_py. rewrite C.
      destruct (cleanup_loop spawn env rest _ w1) as [[r w2] l]. reflexivity.
    + right; left. split; [reflexivity|]. split; [reflexivity|].
      eexists _, _. split; [exact C|reflexivity].
  - exists [], w. split.
    + intros rest acc. cbn [cleanup_loop]. rewrite Kd, Kc. unfold_py. rewrite app_nil_r.
      destruct (cleanup_loop spawn env rest acc w) as [[r w2] l]. reflexivity.
    + right; right. auto.
Qed.

(** The loop never raises, and what it appends does not depend on what the
    list already holds. *)
Lemma cleanup_loop_appends (categories : list category) :
  forall (w : World Ext),
  exists (added : list result) (w' : World Ext) (l : list event),
    forall acc, cleanup_loop spawn env categories acc w = (Ok (acc ++ added)%list, w', l).
Proof.
  induction categories as [|c rest IH]; intros w.
  - exists [], w, []. intros acc. simpl. rewrite app_nil_r. reflexivity.
  - destruct (cleanup_loop_turn c w) as [new [w1 [T _]]].
    destruct (IH w1) as [added [w' [l A]]].
    exists (new ++ added)%list, w', (Update ("Cleaning: " ++ cat_name c) :: Advance :: l).
    intros acc. rewrite T, A, app_assoc. reflexivity.
Qed.

(** [perform_cleanup] never raises. *)
Lemma perform_cleanup_returns (categories : list category) (w : World Ext) :
  exists l,
    perform_cleanup spawn env categories w
      = (Ok (outcomes spawn env categories w), final spawn env categories w, l).
Proof.
  unfold outcomes, final, perform_cleanup. unfold_py.
  destruct (cleanup_loop_appends categories w) as [added [w' [l A]]].
  rewrite (A []). simpl. eexists. reflexivity.
Qed.

Lemma cleanup_loop_outcomes (categories : list category) (w : World Ext) :
  exists l, forall acc,
    cleanup_loop spawn env categories acc w
      = (Ok (acc ++ outcomes spawn env categories w)%list,
         final spawn env categories w, l).
Proof.
  unfold outcomes, final, perform_cleanup. unfold_py.
  destruct (cleanup_loop_appends categories w) as [added [w' [l A]]].
  rewrite (A []). simpl. exists l. exact A.
Qed.

(** A run is the run of its first target followed by the run of the others
    from the world the first one left. *)
Lemma outcomes_cons (c : category) (rest : list category) (w : World Ext) :
  outcomes spawn env (c :: rest) w
    = (outcomes spawn env [c] w
       ++ outcomes spawn env rest (final spawn env [c] w))%list
  /\ final spawn env (c :: rest) w
    = final spawn env rest (final spawn env [c] w).
Proof.
  destruct (cleanup_loop_turn c w) as [new [w1 [T _]]].
  assert (O1 : outcomes spawn env [c] w = new /\ final spawn env [c] w = w1).
  { unfold outcomes, final, perform_cleanup. unfold_py.
    rewrite (T [] []). simpl. split; reflexivity. }
  destruct O1 as [O1 F1]. rewrite O1, F1.
  destruct (cleanup_loop_outcomes rest w1) as [l A].
  unfold outcomes at 1. unfold final at 1. unfold perform_cleanup. unfold_py.
  rewrite (T rest []), A. simpl. split; reflexivity.
Qed.

Lemma outcomes_app (l1 l2 : list category) :
  forall (w : World Ext),
    outcomes spawn env (l1 ++ l2) w
      = (outcomes spawn env l1 w
         ++ outcomes spawn env l2 (final spawn env l1 w))%list
    /\ final spawn env (l1 ++ l2) w
      = final spawn env l2 (final spawn env l1 w).
Proof.
  induction l1 as [|c l1 IH]; intros w.
  - split; reflexivity.
  - simpl.
    destruct (outcomes_cons c (l1 ++ l2) w) as [O F].
    destruct (outcomes_cons c l1 w) as [O1 F1].
    destruct (IH (final spawn env [c] w)) as [IO IF].
    rewrite O, F, O1, F1, IO, IF, app_assoc. split; reflexivity.
Qed.

(** The run of a single target, by its kind. *)
Lemma outcomes_single (c : category) (w : World Ext) :
  (String.eqb (cat_type c) "directory" = true /\
   exists success message size,
     clean_directory spawn env (cat_path c) w
       = (Ok (success, message, size), final spawn env [c] w, [])
     /\ outcomes spawn env [c] w
        = [ {| res_name := cat_name c; res_success := success;
               res_message := message; res_size := size |} ])
  \/ (String.eqb (cat_type c) "directory" = false /\
      String.eqb (cat_type c) "command" = true /\
      exists success message,
        execute_command spawn (cat_path c) w
          = (Ok (success, message), final spawn env [c] w, [])
        /\ outcomes spawn env [c] w
           = [ {| res_name := cat_name c; res_success := success;
                  res_message := message; res_size := "N/A" |} ])
  \/ (known_kind c = false /\ outcomes spawn env [c] w = []
      /\ final spawn env [c] w = w).
Proof.
  destruct (cleanup_loop_turn c w) as [new [w1 [T K]]].
  assert (O1 : outcomes spawn env [c] w = new /\ final spawn env [c] w = w1).
  { unfold outcomes, final, perform_cleanup. unfold_py.
    rewrite (T [] []). simpl. split; reflexivity. }
  destruct O1 as [O1 F1]. rewrite O1, F1. exact K.
Qed.

Lemma outcomes_single_known (c : category) (w : World Ext) :
  known_kind c = true ->
  exists o, outcomes spawn env [c] w = [o] /\ res_name o = cat_name c.
Proof.
  intros K.
  destruct (outcomes_single c w)
    as [[_ [s [m [sz [_ O]]]]]|[[_ [_ [s [m [_ O]]]]]|[K' _]]].
  - eexists. split; [exact O|reflexivity].
  - eexists. split; [exact O|reflexivity].
  - congruence.
Qed.

Lemma outcomes_length_le (categories : list category) :
  forall (w : World Ext),
    List.length (outcomes spawn env categories w) <= List.length categories.
Proof.
  induction categories as [|c rest IH]; intros w.
  - simpl. lia.
  - destruct (outcomes_cons c rest w) as [O _]. rewrite O, length_app.
    specialize (IH (final spawn env [c] w)). simpl.
    destruct (outcomes_single c w)
      as [[_ [s [m [sz [_ O1]]]]]|[[_ [_ [s [m [_ O1]]]]]|[_ [O1 _]]]];
      rewrite O1; simpl; lia.
Qed.

Lemma outcomes_known (categories : list category) :
  forall (w : World Ext),
    forallb known_kind categories = true ->
    Forall2 (fun c o => res_name o = cat_name c)
            categories (outcomes spawn env categories w).
Proof.
  induction categories as [|c rest IH]; intros w K.
  - constructor.
  - simpl in K. apply andb_true_iff in K. destruct K as [Kc Kr].
    destruct (outcomes_cons c rest w) as [O _]. rewrite O.
    destruct (outcomes_single_known c w Kc) as [o [O1 N]]. rewrite O1. simpl.
    constructor; [exact N|]. apply IH. exact Kr.
Qed.

(** C1. For every input sequence (the empty one included) of selected
    targets, the kind of a target being "directory" or "command",
    [perform_cleanup] returns a list of outcomes as long as the input, in
    the order of the input: the i-th outcome carries the name of the i-th
    target and is the outcome that target's own run produces in the world
    the targets before it left. *)
Theorem perform_cleanup_one_outcome_per_target
        (categories : list category) (w : World Ext) :
  forallb known_kind categories = true ->
  exists results w' l,
    perform_cleanup spawn env categories w = (Ok results, w', l)
    /\ List.length results = List.length categories
    /\ Forall2 (fun c o => res_name o = cat_name c) categories results
    /\ forall before c after,
         categories = (before ++ c :: after)%list ->
         exists o,
           nth_error results (List.length before) = Some o
           /\ outcomes spawn env [c] (final spawn env before w) = [o].
Proof.
  intros K. destruct (perform_cleanup_returns categories w) as [l P].
  exists (outcomes spawn env categories w), (final spawn env categories w), l.
  split; [exact P|].
  pose proof (outcomes_known categories w K) as F.
  split; [symmetry; eapply Forall2_length; exact F|].
  split; [exact F|].
  intros before c after E. subst categories.
  rewrite forallb_app in K. apply andb_true_iff in K. destruct K as [Kb Kc].
  simpl in Kc. apply andb_true_iff in Kc. destruct Kc as [Kc _].
  destruct (outcomes_app before (c :: after) w) as [O _].
  destruct (outcomes_cons c after (final spawn env before w)) as [Oc _].
  destruct (outcomes_single_known c (final spawn env before w) Kc) as [o [O1 _]].
  pose proof (Forall2_length (outcomes_known before w Kb)) as Lb.
  exists o. split; [|exact O1].
  rewrite O, Oc, O1. rewrite nth_error_app2 by lia.
  rewrite <- Lb, Nat.sub_diag. reflexivity.
Qed.

(** C9. For every input sequence that contains a target whose kind is
    neither "directory" nor "command", [perform_cleanup] does not raise,
    appends nothing for that target and leaves the world to the next
    target as it found it, so that the targets after it are processed as
    if it were not there, and the list returned is shorter than the
    input. *)
Theorem perform_cleanup_skips_unknown_kind
        (before after : list category) (t : category) (w : World Ext) :
  known_kind t = false ->
  exists results w' l,
    perform_cleanup spawn env (before ++ t :: after) w = (Ok results, w', l)
    /\ outcomes spawn env [t] (final spawn env before w) = []
    /\ results = (outcomes spawn env before w
                  ++ outcomes spawn env after (final spawn env before w))%list
    /\ w' = final spawn env after (final spawn env before w)
    /\ List.length results < List.length (before ++ t :: after).
Proof.
  intros K.
  destruct (perform_cleanup_returns (before ++ t :: after) w) as [l P].
  destruct (outcomes_app before (t :: after) w) as [O F].
  destruct (outcomes_cons t after (final spawn env before w)) as [Ot Ft].
  destruct (outcomes_single t (final spawn env before w))
    as [[Kd _]|[[_ [Kc _]]|[_ [O1 F1]]]].
  - unfold known_kind in K. rewrite Kd in K. discriminate.
  - unfold known_kind in K. rewrite Kc, orb_true_r in K. discriminate.
  - rewrite O1, F1 in *. simpl in Ot.
    eexists _, _, l. split; [exact P|]. split; [reflexivity|].
    rewrite O, F, Ot, Ft. split; [reflexivity|]. split; [reflexivity|].
    rewrite !length_app. simpl.
    pose proof (outcomes_length_le before w).
    pose proof (outcomes_length_le after (final spawn env before w)). lia.
Qed.

(** C3. For every target of kind "command", the one outcome produced
    carries the target's name and the size "N/A"; it has success = true
    whenever the external command completes, whatever its return code, and
    success = false exactly when running it raised (missing executable,
    timeout), the message then being "Error: " followed by the description
    of the exception. *)
Theorem command_target_outcome (t : category) (w : World Ext) :
  cat_type t = "command" ->
  exists o w' l,
    perform_cleanup spawn env [t] w = (Ok [o], w', l)
    /\ res_name o = cat_name t
    /\ res_size o = "N/A"
    /\ match spawn (PyStr.split_ws (cat_path t)) 30%Z w with
       | (Ok cp, w1) =>
           res_success o = true /\ w' = w1
           /\ res_message o = (if (returncode cp =? 0)%Z
                               then "Executed successfully"
                               else "No unavailable simulators found")
       | (Raise e, w1) =>
           res_success o = false /\ w' = w1
           /\ res_message o = "Error: " ++ exn_str e
       end.
Proof.
  intros K. destruct (perform_cleanup_returns [t] w) as [l P].
  destruct (outcomes_single t w)
    as [[Kd _]|[[_ [_ [s [m [E O]]]]]|[K' _]]].
  - rewrite K in Kd. discriminate.
  - rewrite O in P. eexists _, _, l. split; [exact P|].
    split; [reflexivity|]. split; [reflexivity|]. simpl.
    rewrite execute_command_unfold in E.
    destruct (spawn (PyStr.split_ws (cat_path t)) 30%Z w) as [[cp|e] w1];
      inversion E; subst; auto.
  - unfold known_kind in K'. rewrite K in K'. discriminate.
Qed.

Lemma cleaned_count (categories : list category) (results : list result) :
  Forall2 cleaned categories results ->
  count_failed results = 0 /\ List.length results = List.length categories.
Proof.
  unfold count_failed.
  induction 1 as [|c o cs os [_ S] _ [IHc IHl]]; [split; reflexivity|].
  simpl. unfold failed at 1. rewrite S. simpl. split; [exact IHc|].
  f_equal. exact IHl.
Qed.

Lemma count_failed_app (r1 r2 : list result) :
  count_failed (r1 ++ r2) = count_failed r1 + count_failed r2.
Proof. unfold count_failed. rewrite filter_app, length_app. reflexivity. Qed.

(** C2. For every sequence of N targets in which the deletion of one
    directory target, when its turn comes, reports failure and every other
    target is reported as cleaned: [perform_cleanup] does not raise; the
    targets after the failing one are still processed, from the world the
    failed deletion left; the list returned holds N outcomes, exactly one of
    them with success = false, at the position of the failing target; and
    the other N-1 outcomes are those of the runs of the targets before it
    and of the targets after it, which depend on the failed deletion through
    the world it left only, not through its failure. *)
Theorem perform_cleanup_isolates_failure
        (before after : list category) (t : category) (w w2 : World Ext)
        (message size : string) :
  Forall2 cleaned before (outcomes spawn env before w) ->
  cat_type t = "directory" ->
  clean_directory spawn env (cat_path t) (final spawn env before w)
    = (Ok (false, message, size), w2, []) ->
  Forall2 cleaned after (outcomes spawn env after w2) ->
  exists results w' l,
    perform_cleanup spawn env (before ++ t :: after) w = (Ok results, w', l)
    /\ results
       = (outcomes spawn env before w
          ++ {| res_name := cat_name t; res_success := false;
                res_message := message; res_size := size |}
             :: outcomes spawn env after w2)%list
    /\ w' = final spawn env after w2
    /\ List.length results = List.length (before ++ t :: after)
    /\ count_failed results = 1
    /\ option_map res_success (nth_error results (List.length before))
       = Some false.
Proof.
  intros B K T A.
  destruct (perform_cleanup_returns (before ++ t :: after) w) as [l P].
  destruct (outcomes_app before (t :: after) w) as [O F].
  destruct (outcomes_cons t after (final spawn env before w)) as [Ot Ft].
  destruct (outcomes_single t (final spawn env before w))
    as [[_ [s [m [sz [C O1]]]]]|[[Kd _]|[K' _]]].
  - rewrite T in C. inversion C as [[Es Em Esz Ew]]. subst s m sz.
    rewrite <- Ew in *. rewrite O1 in Ot. simpl in Ot.
    destruct (cleaned_count _ _ B) as [Bc Bl].
    destruct (cleaned_count _ _ A) as [Ac Al].
    eexists _, _, l. split; [exact P|]. rewrite O, Ot, F, Ft.
    split; [reflexivity|]. split; [reflexivity|]. split; [|split].
    + rewrite !length_app. simpl. lia.
    + rewrite count_failed_app, Bc. unfold count_failed in *. simpl. rewrite Ac.
      reflexivity.
    + rewrite nth_error_app2 by lia. rewrite Bl, Nat.sub_diag. reflexivity.
  - rewrite K in Kd. discriminate.
  - unfold known_kind in K'. rewrite K in K'. discriminate.
Qed.

End Orchestration.

(* ----------------------------------------------------------------- *)
(** *** Paths and trees *)

Module FSFacts.

Import FS.

Lemma split_on_app (sep : ascii) (a b : string) :
  PyStr.split_on sep (a ++ String sep b)
    = (PyStr.split_on sep a ++ PyStr.split_on sep b)%list.
Proof.
  induction a as [|c a IH]; simpl.
  - rewrite Ascii.eqb_refl. reflexivity.
  - destruct (Ascii.eqb c sep); rewrite IH; [reflexivity|].
    pose proof (split_on_not_nil sep a) as NE.
    destruct (PyStr.split_on sep a); [contradiction|reflexivity].
Qed.

Lemma split_on_single (sep : ascii) (s x : string) :
  PyStr.split_on sep s = [x] -> x = s.
Proof.
  revert x. induction s as [|c s IH]; simpl; intros x E.
  - inversion E; reflexivity.
  - destruct (Ascii.eqb c sep).
    + inversion E as [[E1 E2]]. exfalso. exact (split_on_not_nil _ _ E2).
    + destruct (PyStr.split_on sep s) as [|y ys] eqn:S.
      * exfalso. exact (split_on_not_nil _ _ S).
      * inversion E; subst. rewrite (IH y eq_refl). reflexivity.
Qed.

Lemma proper_name_components (n : string) :
  proper_name n = true -> components n = [n].
Proof.
  unfold proper_name, components. intros P.
  apply andb_true_iff in P. destruct P as [K S].
  destruct (PyStr.split_on "/"%char n) as [|x [|y ys]] eqn:E; try discriminate.
  apply split_on_single in E. subst x. simpl.
  unfold keep_component. rewrite K. reflexivity.
Qed.

Lemma proper_name_no_leading_slash (n : string) :
  proper_name n = true -> PyStr.starts_with "/"%char n = false.
Proof.
  unfold proper_name. intros P.
  apply andb_true_iff in P. destruct P as [_ S].
  destruct n as [|c n]; [reflexivity|]. simpl in *.
  destruct (Ascii.eqb c "/"%char); [|reflexivity].
  pose proof (split_on_not_nil "/"%char n) as NE.
  destruct (PyStr.split_on "/"%char n); [contradiction|discriminate].
Qed.

Lemma proper_name_not_empty (n : string) : proper_name n = true -> n <> "".
Proof. intros P E. subst n. discriminate. Qed.

Lemma components_app_slash (a b : string) :
  components (a ++ String "/"%char b) = (components a ++ components b)%list.
Proof.
  unfold components. rewrite split_on_app, filter_app. reflexivity.
Qed.

Lemma ends_with_split (ch : ascii) (a : string) :
  PyStr.ends_with ch a = true -> exists a', a = a' ++ String ch "".
Proof.
  induction a as [|c a IH]; simpl; [discriminate|].
  destruct a as [|c' a].
  - intros E. apply Ascii.eqb_eq in E. subst c. exists "". reflexivity.
  - intros E. destruct (IH E) as [a' Ea]. exists (String c a').
    simpl. rewrite <- Ea. reflexivity.
Qed.

Lemma append_assoc (a b c : string) : (a ++ b) ++ c = a ++ (b ++ c).
Proof. induction a as [|x a IH]; simpl; [reflexivity|]. rewrite IH. reflexivity. Qed.

Lemma append_not_empty (a n : string) : n <> "" -> a ++ n <> "".
Proof. destruct a; simpl; [auto|discriminate]. Qed.

(** Joining a directory path and a usable name leads one step further. *)
Lemma components_join (a n : string) :
  proper_name n = true ->
  components (os_path_join a n) = (components a ++ [n])%list.
Proof.
  intros P. unfold os_path_join.
  rewrite (proper_name_no_leading_slash n P).
  destruct (String.eqb a "") eqn:Ea; cbn [orb].
  - apply String.eqb_eq in Ea. subst a.
    apply proper_name_components. exact P.
  - destruct (PyStr.ends_with "/"%char a) eqn:Es.
    + destruct (ends_with_split _ _ Es) as [a' E]. subst a.
      rewrite append_assoc.
      change (String "/"%char "" ++ n) with (String "/"%char n).
      rewrite (components_app_slash a' n), (proper_name_components n P).
      rewrite (components_app_slash a' ""). simpl. rewrite app_nil_r. reflexivity.
    + change ("/" ++ n) with (String "/"%char n).
      rewrite (components_app_slash a n), (proper_name_components n P). reflexivity.
Qed.

Lemma resolve_join (a n : string) :
  proper_name n = true ->
  resolve (os_path_join a n) = Some (components a ++ [n])%list.
Proof.
  intros P. unfold resolve.
  destruct (String.eqb (os_path_join a n) "") eqn:E.
  - apply String.eqb_eq in E. exfalso. revert E. unfold os_path_join.
    rewrite (proper_name_no_leading_slash n P).
    pose proof (proper_name_not_empty n P) as NE.
    destruct (String.eqb a "" || PyStr.ends_with "/"%char a).
    + apply append_not_empty. exact NE.
    + apply append_not_empty. discriminate.
  - rewrite (components_join a n P). reflexivity.
Qed.

Lemma clearable_cons (w : bool) (k : string) (ch : node) (es : list (string * node)) :
  clearable (Dir w ((k, ch) :: es)) = true ->
  w = true /\ clearable ch = true /\ clearable (Dir w es) = true.
Proof.
  simpl. intros C.
  apply andb_true_iff in C. destruct C as [W C].
  apply andb_true_iff in C. destruct C as [Cc Cr].
  subst w. repeat split; [exact Cc|]. rewrite Cr. destruct es; reflexivity.
Qed.

(** [empty_out], one entry at a time. *)
Lemma empty_out_nil (p : string) (w : bool) :
  empty_out p (Dir w []) = (None, Dir w []).
Proof. reflexivity. Qed.

Lemma empty_out_cons (p : string) (w : bool) (k : string) (ch : node)
      (es : list (string * node)) :
  empty_out p (Dir w ((k, ch) :: es)) =
    match ch with
    | File _ =>
        if w then empty_out p (Dir w es)
        else (Some (eacces k), Dir w ((k, ch) :: es))
    | Dir _ _ =>
        match empty_out (os_path_join p k) ch with
        | (Some e, ch') => (Some e, Dir w ((k, ch') :: es))
        | (None, ch') =>
            if w then empty_out p (Dir w es)
            else (Some (eacces k), Dir w ((k, ch') :: es))
        end
    end.
Proof.
  simpl. destruct ch as [sz|wc ces].
  - destruct w; reflexivity.
  - destruct (empty_out (os_path_join p k) (Dir wc ces)) as [[e|] ch'];
      [reflexivity|]. destruct w; reflexivity.
Qed.

(** A clearable directory is emptied without error. *)
Lemma empty_out_clearable (n : node) :
  forall p w es, n = Dir w es -> clearable n = true ->
                 empty_out p n = (None, Dir w []).
Proof.
  induction n as [sz|w0 es0 IH] using node_rect'; intros p w es E C; [discriminate|].
  inversion E; subst w0 es0. clear E.
  induction es as [|[k ch] es IHes]; [reflexivity|].
  destruct (clearable_cons w k ch es C) as [W [Cc Cr]]. subst w.
  inversion IH as [|e l Fh Ft]; subst.
  rewrite empty_out_cons.
  destruct ch as [sz|wc ces].
  - apply IHes; assumption.
  - cbn [snd] in Fh. cbv iota.
    rewrite (Fh (os_path_join p k) wc ces eq_refl Cc).
    apply IHes; assumption.
Qed.

Lemma unsnoc_snoc (cs : list string) (n : string) :
  unsnoc (cs ++ [n]) = Some (cs, n).
Proof.
  induction cs as [|c cs IH]; simpl; [reflexivity|]. rewrite IH. reflexivity.
Qed.

Lemma walk_snoc (cs : list string) (n : string) :
  forall t,
    walk (cs ++ [n]) t =
      match walk cs t with
      | Some (Dir _ es) => lookup_entry n es
      | _ => None
      end.
Proof.
  induction cs as [|c cs IH]; intros t; simpl.
  - destruct t as [sz|wr es]; [reflexivity|].
    destruct (lookup_entry n es); reflexivity.
  - destruct t as [sz|wr es]; [reflexivity|].
    destruct (lookup_entry c es); [apply IH|reflexivity].
Qed.

Lemma lookup_update_same (c : string) (f : node -> node) (es : list (string * node)) :
  lookup_entry c (update_entry c f es) = option_map f (lookup_entry c es).
Proof.
  induction es as [|[k n] es IH]; simpl; [reflexivity|].
  destruct (String.eqb k c) eqn:E; simpl; rewrite E; [reflexivity|exact IH].
Qed.

Lemma lookup_update_other (c d : string) (f : node -> node) (es : list (string * node)) :
  String.eqb c d = false ->
  lookup_entry d (update_entry c f es) = lookup_entry d es.
Proof.
  intros N. induction es as [|[k n] es IH]; simpl; [reflexivity|].
  destruct (String.eqb k c) eqn:E; simpl.
  - apply String.eqb_eq in E. subst k. rewrite N. reflexivity.
  - destruct (String.eqb k d); [reflexivity|exact IH].
Qed.

Lemma update_entry_names (c : string) (f : node -> node) (es : list (string * node)) :
  map fst (update_entry c f es) = map fst es.
Proof.
  induction es as [|[k n] es IH]; simpl; [reflexivity|].
  destruct (String.eqb k c); simpl; [reflexivity|]. rewrite IH. reflexivity.
Qed.

Lemma update_entry_ext (c : string) (f g : node -> node) (es : list (string * node)) :
  (forall n, f n = g n) -> update_entry c f es = update_entry c g es.
Proof.
  intros E. induction es as [|[k n] es IH]; simpl; [reflexivity|].
  destruct (String.eqb k c); [rewrite E|rewrite IH]; reflexivity.
Qed.

Lemma update_entry_twice (c : string) (f g : node -> node) (es : list (string * node)) :
  update_entry c g (update_entry c f es) = update_entry c (fun n => g (f n)) es.
Proof.
  induction es as [|[k n] es IH]; simpl; [reflexivity|].
  destruct (String.eqb k c) eqn:E; simpl; rewrite E; [reflexivity|].
  rewrite IH. reflexivity.
Qed.

Lemma update_entry_id (c : string) (f : node -> node) (es : list (string * node)) :
  (forall n, lookup_entry c es = Some n -> f n = n) ->
  update_entry c f es = es.
Proof.
  induction es as [|[k n] es IH]; simpl; intros E; [reflexivity|].
  destruct (String.eqb k c).
  - rewrite (E n eq_refl). reflexivity.
  - rewrite (IH E). reflexivity.
Qed.

(** Writing twice at one place keeps the second tree. *)
Lemma replace_at_twice (cs : list string) (a b : node) :
  forall t, replace_at cs b (replace_at cs a t) = replace_at cs b t.
Proof.
  induction cs as [|c cs IH]; intros t; simpl; [reflexivity|].
  destruct t as [sz|wr es]; simpl; [reflexivity|].
  rewrite update_entry_twice. f_equal. apply update_entry_ext. exact IH.
Qed.

(** Writing back what is there changes nothing. *)
Lemma replace_at_same (cs : list string) :
  forall t n, walk cs t = Some n -> replace_at cs n t = t.
Proof.
  induction cs as [|c cs IH]; intros t n W; simpl in *.
  - inversion W; reflexivity.
  - destruct t as [sz|wr es]; [reflexivity|]. f_equal.
    apply update_entry_id. intros ch L. rewrite L in W. apply IH. exact W.
Qed.

Lemma walk_replace_at (cs : list string) (new : node) :
  forall t old, walk cs t = Some old -> walk cs (replace_at cs new t) = Some new.
Proof.
  induction cs as [|c cs IH]; intros t old W; simpl in *; [reflexivity|].
  destruct t as [sz|wr es]; [discriminate|]. simpl.
  rewrite lookup_update_same.
  destruct (lookup_entry c es) as [ch|]; [|discriminate]. simpl.
  eapply IH. exact W.
Qed.

Lemma inside_cons (c : string) (cs q : list string) :
  inside (c :: cs) (c :: q) <-> inside cs q.
Proof.
  unfold inside. split; intros [r E].
  - exists r. simpl in E. inversion E. reflexivity.
  - exists r. simpl. rewrite E. reflexivity.
Qed.

(** Replacing a directory by a directory of the same permission shows only
    at the paths inside it. *)
Lemma stat_replace_at_outside (cs : list string) (wr : bool)
      (es es' : list (string * node)) :
  forall t q,
    walk cs t = Some (Dir wr es) ->
    ~ inside cs q ->
    stat q (replace_at cs (Dir wr es') t) = stat q t.
Proof.
  induction cs as [|c cs IH]; intros t q W O.
  - exfalso. apply O. exists q. reflexivity.
  - simpl in W. destruct t as [sz|w0 es0]; [discriminate|].
    destruct (lookup_entry c es0) as [ch|] eqn:L; [|discriminate].
    destruct q as [|d q]; unfold stat; simpl.
    + rewrite update_entry_names. reflexivity.
    + destruct (String.eqb c d) eqn:E.
      * apply String.eqb_eq in E. subst d.
        rewrite lookup_update_same, L. simpl.
        apply (IH ch q W). intros I. apply O. apply inside_cons. exact I.
      * rewrite (lookup_update_other _ _ _ _ E). reflexivity.
Qed.

End FSFacts.

Section BulkClear.

Import FS FSFacts.

Variable Ext : Type.
Variable spawn : list string -> Z -> World Ext -> res CompletedProcess * World Ext.
Variable env : Env.

(** Removing the entry the listing starts with, when it succeeds, takes
    exactly that entry out of the directory. *)
Lemma remove_item_head (p : string) (cs : list string) (wr : bool)
      (n : string) (ch : node) (es : list (string * node))
      (w w0 : World Ext) (l : list event) :
  resolve p = Some cs ->
  walk cs (fs w) = Some (Dir wr ((n, ch) :: es)) ->
  proper_name n = true ->
  remove_item p n w = (Ok tt, w0, l) ->
  fs w0 = replace_at cs (Dir wr es) (fs w) /\ ext w0 = ext w.
Proof.
  intros R W P.
  assert (C : components p = cs).
  { unfold resolve in R. destruct (String.eqb p ""); inversion R; reflexivity. }
  assert (Rn : resolve (os_path_join p n) = Some (cs ++ [n])%list).
  { rewrite (resolve_join p n P), C. reflexivity. }
  assert (Wn : walk (cs ++ [n]) (fs w) = Some ch).
  { rewrite walk_snoc, W. simpl. rewrite String.eqb_refl. reflexivity. }
  unfold remove_item. unfold_py. unfold isdir. rewrite Rn, Wn.
  destruct ch as [sz|wc ces]; simpl.
  - unfold remove. rewrite Rn, unsnoc_snoc, W. simpl. rewrite String.eqb_refl.
    destruct wr; intros E; inversion E; subst; simpl; auto.
  - unfold rmtree. rewrite Rn, Wn.
    destruct (empty_out (os_path_join p n) (Dir wc ces)) as [[e|] ch'].
    + intros E; inversion E.
    + rewrite unsnoc_snoc, W. simpl. rewrite String.eqb_refl.
      destruct wr; intros E; inversion E; subst; simpl; auto.
Qed.

(** The loop over the listing of a directory, when it succeeds, leaves the
    directory empty and everything else in place. *)
Lemma remove_items_clears (p : string) (cs : list string) (wr : bool) :
  forall (es : list (string * node)) (w w' : World Ext) (l : list event),
    resolve p = Some cs ->
    walk cs (fs w) = Some (Dir wr es) ->
    forallb proper_name (map fst es) = true ->
    remove_items p (map fst es) w = (Ok tt, w', l) ->
    fs w' = replace_at cs (Dir wr []) (fs w) /\ ext w' = ext w.
Proof.
  induction es as [|[n ch] es IH]; intros w w' l R W P I.
  - simpl in I. rewrite remove_items_nil in I. inversion I; subst.
    split; [|reflexivity]. symmetry.
    (* the directory is already empty *)
    apply replace_at_same. exact W.
  - simpl in P. apply andb_true_iff in P. destruct P as [Pn Pr].
    simpl in I. rewrite remove_items_cons in I.
    destruct (remove_item p n w) as [[[[]|e] w0] l0] eqn:E0; [|discriminate].
    destruct (remove_item_head p cs wr n ch es w w0 l0 R W Pn E0) as [F0 X0].
    destruct (remove_items p (map fst es) w0) as [[r1 w1] l1] eqn:E1.
    inversion I; subst.
    assert (W0 : walk cs (fs w0) = Some (Dir wr es)).
    { rewrite F0. eapply walk_replace_at. exact W. }
    destruct (IH w0 w' _ R W0 Pr E1) as [F1 X1].
    rewrite F1, F0, replace_at_twice, X1, X0. split; reflexivity.
Qed.

Lemma get_directory_size_keeps_fs (path : string) (w w1 : World Ext) v l :
  du_reads_only spawn ->
  get_directory_size spawn env path w = (Ok v, w1, l) ->
  fs w1 = fs w.
Proof.
  intros RO. unfold get_directory_size. unfold_py.
  destruct (negb (exists_ (expanduser env path) (fs w))).
  - intros E; inversion E; reflexivity.
  - pose proof (RO (expanduser env path) w) as K.
    destruct (spawn ["du"; "-sh"; expanduser env path] 10%Z w) as [[cp|e] w2].
    + simpl in K. destruct (returncode cp =? 0)%Z; intros E; inversion E; subst; exact K.
    + simpl in K. intros E; inversion E; subst; exact K.
Qed.

(** C5. For every path that exists, in a file system whose size utility
    only reads and where the names listed in that directory are usable
    entry names: after [clean_directory] returns success the path is still
    a directory, with the permission it had and with no entry left, and
    every path that does not lie inside that directory shows what it
    showed before. *)
Theorem clean_directory_empties_only_the_directory
        (path : string) (w w' : World Ext) (message size : string) (l : list event) :
  du_reads_only spawn ->
  exists_ (expanduser env path) (fs w) = true ->
  proper_listing (expanduser env path) (fs w) = true ->
  clean_directory spawn env path w = (Ok (true, message, size), w', l) ->
  exists (cs : list string) (wr : bool) (names : list string),
    resolve (expanduser env path) = Some cs
    /\ stat cs (fs w) = Some (IsDir wr names)
    /\ stat cs (fs w') = Some (IsDir wr [])
    /\ exists_ (expanduser env path) (fs w') = true
    /\ isdir (expanduser env path) (fs w') = true
    /\ listdir (expanduser env path) (fs w') = Ok []
    /\ forall q, ~ inside cs q -> stat q (fs w') = stat q (fs w).
Proof.
  intros RO H PL C.
  destruct (clean_directory_success_inv _ spawn env path w w' message size l H C)
    as [flag [w1 [G [RC _]]]].
  pose proof (get_directory_size_keeps_fs path w w1 _ _ RO G) as F1.
  rewrite remove_contents_unfold in RC. rewrite F1 in RC.
  unfold proper_listing in PL.
  unfold listdir in RC, PL.
  destruct (resolve (expanduser env path)) as [cs|] eqn:R; [|discriminate].
  destruct (walk cs (fs w)) as [[sz|wr es]|] eqn:W; try discriminate.
  assert (W1 : walk cs (fs w1) = Some (Dir wr es)) by (rewrite F1; exact W).
  destruct (remove_items_clears (expanduser env path) cs wr es w1 w' [] R W1 PL RC)
    as [F' _].
  rewrite F1 in F'.
  assert (W' : walk cs (fs w') = Some (Dir wr [])).
  { rewrite F'. eapply walk_replace_at. exact W. }
  exists cs, wr, (map fst es).
  split; [reflexivity|].
  split; [unfold stat; rewrite W; reflexivity|].
  split; [unfold stat; rewrite W'; reflexivity|].
  split; [unfold exists_; rewrite R, W'; reflexivity|].
  split; [unfold isdir; rewrite R, W'; reflexivity|].
  split; [unfold listdir; rewrite R, W'; reflexivity|].
  intros q O. rewrite F'. eapply stat_replace_at_outside; eauto.
Qed.

(** On a clearable directory the loop meets no error. *)
Lemma remove_item_head_succeeds (p : string) (cs : list string) (wr : bool)
      (n : string) (ch : node) (es : list (string * node)) (w : World Ext) :
  resolve p = Some cs ->
  walk cs (fs w) = Some (Dir wr ((n, ch) :: es)) ->
  proper_name n = true ->
  clearable (Dir wr ((n, ch) :: es)) = true ->
  exists w0, remove_item p n w = (Ok tt, w0, []).
Proof.
  intros R W P C.
  destruct (clearable_cons wr n ch es C) as [Wr [Cc _]]. subst wr.
  assert (Cp : components p = cs).
  { unfold resolve in R. destruct (String.eqb p ""); inversion R; reflexivity. }
  assert (Rn : resolve (os_path_join p n) = Some (cs ++ [n])%list).
  { rewrite (resolve_join p n P), Cp. reflexivity. }
  assert (Wn : walk (cs ++ [n]) (fs w) = Some ch).
  { rewrite walk_snoc, W. simpl. rewrite String.eqb_refl. reflexivity. }
  unfold remove_item. unfold_py. unfold isdir. rewrite Rn, Wn.
  destruct ch as [sz|wc ces]; cbn [is_dir].
  - unfold remove. rewrite Rn, unsnoc_snoc, W. simpl. rewrite String.eqb_refl.
    eexists. reflexivity.
  - unfold rmtree. rewrite Rn, Wn.
    rewrite (empty_out_clearable (Dir wc ces) (os_path_join p n) wc ces eq_refl Cc).
    rewrite unsnoc_snoc, W. eexists. reflexivity.
Qed.

Lemma remove_items_succeeds (p : string) (cs : list string) (wr : bool) :
  forall (es : list (string * node)) (w : World Ext),
    resolve p = Some cs ->
    walk cs (fs w) = Some (Dir wr es) ->
    forallb proper_name (map fst es) = true ->
    clearable (Dir wr es) = true ->
    exists w', remove_items p (map fst es) w = (Ok tt, w', []).
Proof.
  induction es as [|[n ch] es IH]; intros w R W P C.
  - exists w. reflexivity.
  - simpl in P. apply andb_true_iff in P. destruct P as [Pn Pr].
    destruct (remove_item_head_succeeds p cs wr n ch es w R W Pn C) as [w0 E0].
    destruct (remove_item_head p cs wr n ch es w w0 [] R W Pn E0) as [F0 _].
    destruct (clearable_cons wr n ch es C) as [_ [_ Cr]].
    assert (W0 : walk cs (fs w0) = Some (Dir wr es)).
    { rewrite F0. eapply walk_replace_at. exact W. }
    destruct (IH w0 R W0 Pr Cr) as [w' E'].
    exists w'. cbn [map fst]. rewrite remove_items_cons, E0, E'. reflexivity.
Qed.

(** The bulk-clear of a clearable directory succeeds. *)
Lemma clean_directory_succeeds (path : string) (w : World Ext)
      (cs : list string) (wr : bool) (es : list (string * node)) :
  du_reads_only spawn ->
  resolve (expanduser env path) = Some cs ->
  walk cs (fs w) = Some (Dir wr es) ->
  clearable (Dir wr es) = true ->
  proper_listing (expanduser env path) (fs w) = true ->
  exists size w',
    clean_directory spawn env path w
      = (Ok (true, "Cleaned successfully", size), w', []).
Proof.
  intros RO R W C PL.
  assert (H : exists_ (expanduser env path) (fs w) = true).
  { unfold exists_. rewrite R, W. reflexivity. }
  destruct (get_directory_size_returns _ spawn env path w) as [[sz fl] [w1 G]].
  pose proof (get_directory_size_keeps_fs path w w1 _ _ RO G) as F1.
  rewrite (clean_directory_present _ spawn env path w w1 sz fl H G).
  rewrite remove_contents_unfold, F1.
  unfold proper_listing in PL. unfold listdir in *. rewrite R, W in *.
  assert (W1 : walk cs (fs w1) = Some (Dir wr es)) by (rewrite F1; exact W).
  destruct (remove_items_succeeds (expanduser env path) cs wr es w1 R W1 PL C)
    as [w' E].
  rewrite E. exists sz, w'. reflexivity.
Qed.

End BulkClear.

(* ================================================================= *)
(** ** The properties on the concrete machine *)

Example split_ws_command :
  PyStr.split_ws "xcrun simctl delete unavailable"
    = ["xcrun"; "simctl"; "delete"; "unavailable"].
Proof. reflexivity. Qed.

Example split_ws_blank : PyStr.split_ws "   " = [].
Proof. reflexivity. Qed.

Example du_first_field :
  PyStr.strip (hd "" (PyStr.split_on "009"%char
                        (" 12G" ++ Demo.tab ++ "/Users/dev/x" ++ Demo.newline)))
    = "12G".
Proof. reflexivity. Qed.

Example expanduser_home :
  expanduser Demo.env "~/Library/Caches/org.swift.swiftpm"
    = "/Users/dev/Library/Caches/org.swift.swiftpm".
Proof. reflexivity. Qed.

Example expanduser_other_user : expanduser Demo.env "~ghost/x" = "~ghost/x".
Proof. reflexivity. Qed.

Example expanduser_root_home :
  expanduser {| HOME := Some "/"; pw_dir_self := None; pw_dir_of := fun _ => None |} "~"
    = "/".
Proof. reflexivity. Qed.

Example join_examples :
  FS.os_path_join "/Users/dev" "x" = "/Users/dev/x"
  /\ FS.os_path_join "/Users/dev/" "x" = "/Users/dev/x"
  /\ FS.os_path_join "/Users/dev" "/x" = "/x".
Proof. repeat split; reflexivity. Qed.

(** Selecting nothing: no outcome, the world untouched. *)
Lemma perform_cleanup_nothing {Ext : Type} spawn env (w : World Ext) :
  perform_cleanup spawn env [] w = (Ok [], w, [AddTask "Cleaning..." 0]).
Proof. reflexivity. Qed.

(** The whole registry on the concrete machine: one line per target, two
    of them failures, none of them stopping the run. *)
Example registry_run :
  map (fun o => (res_name o, res_success o, res_size o))
      (outcomes Demo.spawn Demo.env CATEGORIES Demo.world)
  = [ ("Derived Data", true, "5216B");
      ("Unavailable Simulators", true, "N/A");
      ("Device Support Files", true, "0B");
      ("Simulator Caches", true, "0B");
      ("Archives", false, "0B");
      ("Device Logs", true, "0B");
      ("Swift Package Manager Cache", true, "0B");
      ("Xcode Previews", false, "0B");
      ("System Caches", true, "0B") ].
Proof. vm_compute. reflexivity. Qed.

Lemma demo_du_reads_only : du_reads_only Demo.spawn.
Proof.
  intros p w. unfold Demo.spawn.
  destruct (FS.resolve p) as [cs|]; [|reflexivity].
  destruct (FS.walk cs (fs w)); reflexivity.
Qed.

Lemma get_directory_size_degrades_witness :
  FS.exists_ (expanduser Demo.env Demo.device_logs) (fs Demo.world) = false
  /\ get_directory_size Demo.spawn Demo.env Demo.device_logs Demo.world
     = (Ok ("Not found", 0%Z), Demo.world, [])
  /\ FS.exists_ (expanduser Demo.env Demo.derived_data) (fs Demo.world) = true
  /\ Demo.stalled_spawn ["du"; "-sh"; expanduser Demo.env Demo.derived_data]
                        10%Z Demo.world
     = (Raise (Exn TimeoutExpired "Command 'du' timed out after 10 seconds"),
        Demo.world)
  /\ get_directory_size Demo.stalled_spawn Demo.env Demo.derived_data Demo.world
     = (Ok ("Error", 0%Z), Demo.world, [])
  /\ Demo.denied_spawn ["du"; "-sh"; expanduser Demo.env Demo.derived_data]
                       10%Z Demo.world
     = (Ok {| returncode := 1; stdout := ""; stderr := "du: Permission denied" |},
        Demo.world)
  /\ get_directory_size Demo.denied_spawn Demo.env Demo.derived_data Demo.world
     = (Ok ("Error", 0%Z), Demo.world, []).
Proof.
  split; [reflexivity|]. split.
  { apply (get_directory_size_degrades Z Demo.spawn Demo.env
             Demo.device_logs Demo.world). reflexivity. }
  split; [reflexivity|]. split; [reflexivity|]. split.
  { apply (proj1 (proj2 (get_directory_size_degrades Z Demo.stalled_spawn Demo.env
                           Demo.derived_data Demo.world))
             (Exn TimeoutExpired "Command 'du' timed out after 10 seconds")
             Demo.world); reflexivity. }
  split; [reflexivity|].
  apply (proj1 (proj2 (proj2 (get_directory_size_degrades Z Demo.denied_spawn Demo.env
                                Demo.derived_data Demo.world)))
           {| returncode := 1; stdout := ""; stderr := "du: Permission denied" |}
           Demo.world); [reflexivity|reflexivity|discriminate].
Defined.

Lemma get_directory_size_flag_conflates_witness :
  FS.exists_ (expanduser Demo.env Demo.derived_data) (fs Demo.world) = true
  /\ du_failed (fst (du Demo.stalled_spawn Demo.env Demo.derived_data Demo.world))
  /\ FS.exists_ (expanduser Demo.env Demo.device_logs) (fs Demo.world) = false
  /\ flag_of (get_directory_size Demo.stalled_spawn Demo.env
                                 Demo.derived_data Demo.world) = Some 0%Z
  /\ flag_of (get_directory_size Demo.stalled_spawn Demo.env
                                 Demo.device_logs Demo.world)
     = flag_of (get_directory_size Demo.stalled_spawn Demo.env
                                   Demo.derived_data Demo.world).
Proof.
  split; [reflexivity|]. split; [exact I|]. split; [reflexivity|].
  apply (get_directory_size_flag_conflates Z Demo.stalled_spawn Demo.env
           Demo.derived_data Demo.world Demo.device_logs Demo.world).
  - reflexivity.
  - exact I.
  - reflexivity.
Defined.

Lemma clean_directory_absent_noop_witness :
  FS.exists_ (expanduser Demo.env Demo.device_logs) (fs Demo.world) = false
  /\ clean_directory Demo.spawn Demo.env Demo.device_logs Demo.world
     = (Ok (true, "Directory not found", "0B"), Demo.world, [])
  /\ bind (clean_directory Demo.spawn Demo.env Demo.device_logs)
          (fun _ => clean_directory Demo.spawn Demo.env Demo.device_logs)
          Demo.world
     = (Ok (true, "Directory not found", "0B"), Demo.world, []).
Proof.
  split; [reflexivity|].
  apply (clean_directory_absent_noop Z Demo.spawn Demo.env
           Demo.device_logs Demo.world).
  reflexivity.
Defined.

Lemma clean_directory_reports_size_before_witness :
  FS.exists_ (expanduser Demo.env Demo.derived_data) (fs Demo.world) = true
  /\ clean_directory Demo.spawn Demo.env Demo.derived_data Demo.world
     = (Ok (true, "Cleaned successfully", "5216B"), Demo.world_cleaned, [])
  /\ exists flag w1,
       get_directory_size Demo.spawn Demo.env Demo.derived_data Demo.world
         = (Ok ("5216B", flag), w1, [])
       /\ remove_contents (expanduser Demo.env Demo.derived_data) w1
          = (Ok tt, Demo.world_cleaned, []).
Proof.
  split; [reflexivity|]. split; [vm_compute; reflexivity|].
  apply (clean_directory_reports_size_before Z Demo.spawn Demo.env
           Demo.derived_data Demo.world Demo.world_cleaned
           "Cleaned successfully" "5216B" []).
  - reflexivity.
  - vm_compute; reflexivity.
Defined.

(** The size reported is not the size measured afterwards. *)
Example size_after_cleaning_differs :
  get_directory_size Demo.spawn Demo.env Demo.derived_data Demo.world_cleaned
    = (Ok ("0B", 1%Z), Demo.world_cleaned, []).
Proof. vm_compute; reflexivity. Qed.

Lemma clean_directory_reports_removal_error_witness :
  FS.exists_ (expanduser Demo.env Demo.archives) (fs Demo.world) = true
  /\ get_directory_size Demo.spawn Demo.env Demo.archives Demo.world
     = (Ok ("9500B", 1%Z), Demo.world, [])
  /\ FS.listdir (expanduser Demo.env Demo.archives) (fs Demo.world)
     = Ok (["old.xcarchive"] ++ "2024" :: [])%list
  /\ remove_items (expanduser Demo.env Demo.archives) ["old.xcarchive"] Demo.world
     = (Ok tt, Demo.world_partial, [])
  /\ remove_item (expanduser Demo.env Demo.archives) "2024" Demo.world_partial
     = (Raise (eacces "App.xcarchive"),
        Demo.world_partial, [])
  /\ clean_directory Demo.spawn Demo.env Demo.archives Demo.world
     = (Ok (false,
            "Error: [Errno 13] Permission denied: 'App.xcarchive'",
            "0B"),
        Demo.world_partial, []).
Proof.
  split; [reflexivity|]. split; [vm_compute; reflexivity|].
  split; [reflexivity|]. split; [vm_compute; reflexivity|].
  split; [vm_compute; reflexivity|].
  apply (clean_directory_reports_removal_error Z Demo.spawn Demo.env
           Demo.archives Demo.world Demo.world Demo.world_partial Demo.world_partial
           "9500B" 1%Z ["old.xcarchive"] [] "2024"
           (eacces "App.xcarchive"));
    vm_compute; reflexivity.
Defined.

Lemma clean_directory_empties_only_the_directory_witness :
  du_reads_only Demo.spawn
  /\ FS.exists_ (expanduser Demo.env Demo.derived_data) (fs Demo.world) = true
  /\ proper_listing (expanduser Demo.env Demo.derived_data) (fs Demo.world) = true
  /\ clean_directory Demo.spawn Demo.env Demo.derived_data Demo.world
     = (Ok (true, "Cleaned successfully", "5216B"), Demo.world_cleaned, [])
  /\ exists (cs : list string) (wr : bool) (names : list string),
       FS.resolve (expanduser Demo.env Demo.derived_data) = Some cs
       /\ FS.stat cs (fs Demo.world) = Some (FS.IsDir wr names)
       /\ FS.stat cs (fs Demo.world_cleaned) = Some (FS.IsDir wr [])
       /\ FS.exists_ (expanduser Demo.env Demo.derived_data) (fs Demo.world_cleaned) = true
       /\ FS.isdir (expanduser Demo.env Demo.derived_data) (fs Demo.world_cleaned) = true
       /\ FS.listdir (expanduser Demo.env Demo.derived_data) (fs Demo.world_cleaned) = Ok []
       /\ forall q, ~ inside cs q ->
                    FS.stat q (fs Demo.world_cleaned) = FS.stat q (fs Demo.world).
Proof.
  split; [exact demo_du_reads_only|]. split; [reflexivity|].
  split; [reflexivity|]. split; [vm_compute; reflexivity|].
  apply (clean_directory_empties_only_the_directory Z Demo.spawn Demo.env
           Demo.derived_data Demo.world Demo.world_cleaned
           "Cleaned successfully" "5216B" []).
  - exact demo_du_reads_only.
  - reflexivity.
  - reflexivity.
  - vm_compute; reflexivity.
Defined.

Lemma perform_cleanup_one_outcome_per_target_witness :
  forallb known_kind CATEGORIES = true
  /\ exists results w' l,
       perform_cleanup Demo.spawn Demo.env CATEGORIES Demo.world = (Ok results, w', l)
       /\ List.length results = List.length CATEGORIES
       /\ Forall2 (fun c o => res_name o = cat_name c) CATEGORIES results
       /\ forall before c after,
            CATEGORIES = (before ++ c :: after)%list ->
            exists o,
              nth_error results (List.length before) = Some o
              /\ outcomes Demo.spawn Demo.env [c]
                          (final Demo.spawn Demo.env before Demo.world) = [o].
Proof.
  split; [reflexivity|].
  apply (perform_cleanup_one_outcome_per_target Z Demo.spawn Demo.env
           CATEGORIES Demo.world).
  reflexivity.
Defined.

Lemma perform_cleanup_skips_unknown_kind_witness :
  known_kind Demo.t_file = false
  /\ exists results w' l,
       perform_cleanup Demo.spawn Demo.env
                       ([Demo.t_derived] ++ Demo.t_file :: [Demo.t_simulators])
                       Demo.world
         = (Ok results, w', l)
       /\ outcomes Demo.spawn Demo.env [Demo.t_file]
                   (final Demo.spawn Demo.env [Demo.t_derived] Demo.world) = []
       /\ results
          = (outcomes Demo.spawn Demo.env [Demo.t_derived] Demo.world
             ++ outcomes Demo.spawn Demo.env [Demo.t_simulators]
                  (final Demo.spawn Demo.env [Demo.t_derived] Demo.world))%list
       /\ w' = final Demo.spawn Demo.env [Demo.t_simulators]
                     (final Demo.spawn Demo.env [Demo.t_derived] Demo.world)
       /\ List.length results
          < List.length ([Demo.t_derived] ++ Demo.t_file :: [Demo.t_simulators]).
Proof.
  split; [reflexivity|].
  apply (perform_cleanup_skips_unknown_kind Z Demo.spawn Demo.env
           [Demo.t_derived] [Demo.t_simulators] Demo.t_file Demo.world).
  reflexivity.
Defined.

Lemma command_target_outcome_witness :
  cat_type Demo.t_missing_tool = "command"
  /\ exists o w' l,
       perform_cleanup Demo.spawn Demo.env [Demo.t_missing_tool] Demo.world
         = (Ok [o], w', l)
       /\ res_name o = cat_name Demo.t_missing_tool
       /\ res_size o = "N/A"
       /\ match Demo.spawn (PyStr.split_ws (cat_path Demo.t_missing_tool)) 30%Z Demo.world with
          | (Ok cp, w1) =>
              res_success o = true /\ w' = w1
              /\ res_message o = (if (returncode cp =? 0)%Z
                                  then "Executed successfully"
                                  else "No unavailable simulators found")
          | (Raise e, w1) =>
              res_success o = false /\ w' = w1
              /\ res_message o = "Error: " ++ exn_str e
          end.
Proof.
  split; [reflexivity|].
  apply (command_target_outcome Z Demo.spawn Demo.env Demo.t_missing_tool Demo.world).
  reflexivity.
Defined.

Lemma perform_cleanup_isolates_failure_witness :
  Forall2 cleaned [Demo.t_derived; Demo.t_simulators]
          (outcomes Demo.spawn Demo.env [Demo.t_derived; Demo.t_simulators] Demo.world)
  /\ cat_type Demo.t_archives = "directory"
  /\ clean_directory Demo.spawn Demo.env (cat_path Demo.t_archives)
       (final Demo.spawn Demo.env [Demo.t_derived; Demo.t_simulators] Demo.world)
     = (Ok (false, res_message Demo.archives_failed, "0B"), Demo.world_failed, [])
  /\ Forall2 cleaned [Demo.t_swiftpm]
             (outcomes Demo.spawn Demo.env [Demo.t_swiftpm] Demo.world_failed)
  /\ exists results w' l,
       perform_cleanup Demo.spawn Demo.env
         ([Demo.t_derived; Demo.t_simulators] ++ Demo.t_archives :: [Demo.t_swiftpm])
         Demo.world = (Ok results, w', l)
       /\ results
          = (outcomes Demo.spawn Demo.env [Demo.t_derived; Demo.t_simulators] Demo.world
             ++ {| res_name := cat_name Demo.t_archives; res_success := false;
                   res_message := res_message Demo.archives_failed;
                   res_size := "0B" |}
                :: outcomes Demo.spawn Demo.env [Demo.t_swiftpm] Demo.world_failed)%list
       /\ w' = final Demo.spawn Demo.env [Demo.t_swiftpm] Demo.world_failed
       /\ List.length results
          = List.length ([Demo.t_derived; Demo.t_simulators]
                         ++ Demo.t_archives :: [Demo.t_swiftpm])
       /\ count_failed results = 1
       /\ option_map res_success
            (nth_error results (List.length [Demo.t_derived; Demo.t_simulators]))
          = Some false.
Proof.
  assert (B : Forall2 cleaned [Demo.t_derived; Demo.t_simulators]
                (outcomes Demo.spawn Demo.env [Demo.t_derived; Demo.t_simulators]
                          Demo.world)).
  { vm_compute. repeat constructor. }
  assert (A : Forall2 cleaned [Demo.t_swiftpm]
                (outcomes Demo.spawn Demo.env [Demo.t_swiftpm] Demo.world_failed)).
  { vm_compute. repeat constructor. }
  split; [exact B|]. split; [reflexivity|]. split; [vm_compute; reflexivity|].
  split; [exact A|].
  apply (perform_cleanup_isolates_failure Z Demo.spawn Demo.env
           [Demo.t_derived; Demo.t_simulators] [Demo.t_swiftpm] Demo.t_archives
           Demo.world Demo.world_failed (res_message Demo.archives_failed) "0B" B).
  - reflexivity.
  - vm_compute; reflexivity.
  - exact A.
Defined.

(* ================================================================= *)
(** ** Further properties of the engine *)

Section Progress.

Variable Ext : Type.
Variable spawn : list string -> Z -> World Ext -> res CompletedProcess * World Ext.
Variable env : Env.

Lemma cleanup_loop_events (categories : list category) :
  forall (acc : list result) (w : World Ext),
    snd (cleanup_loop spawn env categories acc w)
      = flat_map (fun c => [Update ("Cleaning: " ++ cat_name c); Advance]) categories.
Proof.
  induction categories as [|c rest IH]; intros acc w; [reflexivity|].
  destruct (cleanup_loop_turn Ext spawn env c w) as [new [w1 [T _]]].
  rewrite (T rest acc). specialize (IH (acc ++ new)%list w1).
  destruct (cleanup_loop spawn env rest (acc ++ new)%list w1) as [[r w2] l].
  simpl in IH |- *. rewrite IH. reflexivity.
Qed.

(** X1. For every input sequence and every world, whatever the kinds and
    whatever fails, [perform_cleanup] tells the progress bar the total once,
    then for each target in order its description and one advance: the bar
    advances exactly as many times as its total. *)
Theorem perform_cleanup_progress_completes
        (categories : list category) (w : World Ext) :
  snd (perform_cleanup spawn env categories w)
    = AddTask "Cleaning..." (List.length categories)
      :: flat_map (fun c => [Update ("Cleaning: " ++ cat_name c); Advance]) categories
  /\ List.length (filter (fun ev => match ev with Advance => true | _ => false end)
                         (snd (perform_cleanup spawn env categories w)))
     = List.length categories.
Proof.
  assert (E : snd (perform_cleanup spawn env categories w)
              = AddTask "Cleaning..." (List.length categories)
                :: flat_map (fun c => [Update ("Cleaning: " ++ cat_name c); Advance])
                            categories).
  { unfold perform_cleanup. unfold_py.
    pose proof (cleanup_loop_events categories [] w) as L.
    destruct (cleanup_loop spawn env categories [] w) as [[r w2] l].
    simpl in L |- *. rewrite L. reflexivity. }
  split; [exact E|]. rewrite E. clear E. simpl.
  induction categories as [|c rest IH]; [reflexivity|]. simpl. rewrite IH. reflexivity.
Qed.

End Progress.

Section Locality.

Import FS FSFacts.

Variable Ext : Type.
Variable spawn : list string -> Z -> World Ext -> res CompletedProcess * World Ext.
Variable env : Env.

Lemma update_entry_ext_at (c : string) (f g : node -> node)
      (es : list (string * node)) :
  (forall n, lookup_entry c es = Some n -> f n = g n) ->
  update_entry c f es = update_entry c g es.
Proof.
  induction es as [|[k n] es IH]; simpl; intros E; [reflexivity|].
  destruct (String.eqb k c).
  - rewrite (E n eq_refl). reflexivity.
  - rewrite (IH E). reflexivity.
Qed.

(** Writing one step below a directory is writing the directory with that
    entry changed. *)
Lemma replace_at_snoc (cs : list string) (n : string) (x : node) :
  forall t wr es,
    walk cs t = Some (Dir wr es) ->
    replace_at (cs ++ [n]) x t
      = replace_at cs (Dir wr (update_entry n (fun _ => x) es)) t.
Proof.
  induction cs as [|c cs IH]; intros t wr es W; simpl in *.
  - inversion W; subst. reflexivity.
  - destruct t as [sz|w0 es0]; [discriminate|]. f_equal.
    apply update_entry_ext_at. intros ch L. rewrite L in W.
    apply (IH ch wr es W).
Qed.

Lemma empty_out_keeps_directory (p : string) (w : bool) (es : list (string * node))
      (r : option exn) (n' : node) :
  empty_out p (Dir w es) = (r, n') -> exists es', n' = Dir w es'.
Proof.
  simpl.
  match goal with |- (let (_, _) := ?g in _) = _ -> _ => destruct g as [r0 es0] end.
  intros E. inversion E. eexists. reflexivity.
Qed.

(** One turn of the loop on the entry the listing starts with: whether it
    succeeds or raises, only the inside of the directory changes. *)
Lemma remove_item_head_local (p : string) (cs : list string) (wr : bool)
      (n : string) (ch : node) (es : list (string * node))
      (w w0 : World Ext) (r : res unit) (l : list event) :
  resolve p = Some cs ->
  walk cs (fs w) = Some (Dir wr ((n, ch) :: es)) ->
  proper_name n = true ->
  remove_item p n w = (r, w0, l) ->
  ext w0 = ext w
  /\ exists es0, fs w0 = replace_at cs (Dir wr es0) (fs w)
                 /\ (r = Ok tt -> es0 = es).
Proof.
  intros R W P.
  assert (C : components p = cs).
  { unfold resolve in R. destruct (String.eqb p ""); inversion R; reflexivity. }
  assert (Rn : resolve (os_path_join p n) = Some (cs ++ [n])%list).
  { rewrite (resolve_join p n P), C. reflexivity. }
  clear C.
  assert (Wn : walk (cs ++ [n]) (fs w) = Some ch).
  { rewrite walk_snoc, W. simpl. rewrite String.eqb_refl. reflexivity. }
  assert (Same : fs w = replace_at cs (Dir wr ((n, ch) :: es)) (fs w)).
  { symmetry. apply replace_at_same. exact W. }
  unfold remove_item. unfold_py. unfold isdir. rewrite Rn, Wn.
  destruct ch as [sz|wc ces]; cbn [is_dir].
  - unfold remove. rewrite Rn, unsnoc_snoc, W. simpl. rewrite String.eqb_refl.
    destruct wr; intros E; inversion E; subst; simpl; (split; [reflexivity|]).
    + exists es. split; [reflexivity|auto].
    + exists ((n, File sz) :: es). split; [exact Same|discriminate].
  - unfold rmtree. rewrite Rn, Wn.
    destruct (empty_out (os_path_join p n) (Dir wc ces)) as [[e|] ch'] eqn:EO.
    + intros E; inversion E; subst; simpl. split; [reflexivity|].
      exists (update_entry n (fun _ => ch') ((n, Dir wc ces) :: es)).
      split; [|discriminate].
      apply (replace_at_snoc cs n ch' (fs w) wr _ W).
    + rewrite unsnoc_snoc, W. simpl (remove_entry _ _). rewrite String.eqb_refl.
      destruct wr; intros E; inversion E; subst; simpl; (split; [reflexivity|]).
      * exists es. split; [reflexivity|auto].
      * exists (update_entry n (fun _ => ch') ((n, Dir wc ces) :: es)).
        split; [|discriminate].
        apply (replace_at_snoc cs n ch' (fs w) false _ W).
Qed.

Lemma remove_items_local (p : string) (cs : list string) (wr : bool) :
  forall (es : list (string * node)) (w w' : World Ext) (r : res unit) (l : list event),
    resolve p = Some cs ->
    walk cs (fs w) = Some (Dir wr es) ->
    forallb proper_name (map fst es) = true ->
    remove_items p (map fst es) w = (r, w', l) ->
    ext w' = ext w /\ exists es', fs w' = replace_at cs (Dir wr es') (fs w).
Proof.
  induction es as [|[n ch] es IH]; intros w w' r l R W P I.
  - simpl in I. rewrite remove_items_nil in I. inversion I; subst.
    split; [reflexivity|]. exists []. symmetry. apply replace_at_same. exact W.
  - simpl in P. apply andb_true_iff in P. destruct P as [Pn Pr].
    simpl in I. rewrite remove_items_cons in I.
    destruct (remove_item p n w) as [[r0 w0] l0] eqn:E0.
    destruct (remove_item_head_local p cs wr n ch es w w0 r0 l0 R W Pn E0)
      as [X0 [es0 [F0 K0]]].
    destruct r0 as [[]|e].
    + rewrite (K0 eq_refl) in F0.
      destruct (remove_items p (map fst es) w0) as [[r1 w1] l1] eqn:E1.
      inversion I; subst.
      assert (W0 : walk cs (fs w0) = Some (Dir wr es)).
      { rewrite F0. eapply walk_replace_at. exact W. }
      destruct (IH w0 w' _ _ R W0 Pr E1) as [X1 [es' F1]].
      split; [congruence|]. exists es'.
      rewrite F1, F0, replace_at_twice. reflexivity.
    + inversion I; subst. split; [exact X0|]. exists es0. exact F0.
Qed.

(** Success or failure, [clean_directory] stays inside its directory. *)
Lemma clean_directory_frame
        (path : string) (cs : list string) (w w' : World Ext)
        (r : res (bool * string * string)) (l : list event) :
  du_reads_only spawn ->
  proper_listing (expanduser env path) (fs w) = true ->
  resolve (expanduser env path) = Some cs ->
  clean_directory spawn env path w = (r, w', l) ->
  (forall q, ~ inside cs q -> stat q (fs w') = stat q (fs w))
  /\ exists_ (expanduser env path) (fs w') = exists_ (expanduser env path) (fs w)
  /\ isdir (expanduser env path) (fs w') = isdir (expanduser env path) (fs w).
Proof.
  intros RO PL R C.
  destruct (exists_ (expanduser env path) (fs w)) eqn:H.
  - destruct (get_directory_size_returns Ext spawn env path w) as [[sz fl] [w1 G]].
    pose proof (get_directory_size_keeps_fs Ext spawn env path w w1 _ _ RO G) as F1.
    rewrite (clean_directory_present Ext spawn env path w w1 sz fl H G) in C.
    rewrite remove_contents_unfold, F1 in C.
    unfold proper_listing in PL. unfold listdir in C, PL. rewrite R in C, PL.
    unfold exists_, isdir. rewrite R.
    destruct (walk cs (fs w)) as [[fsz|wr es]|] eqn:W.
    + inversion C; subst. rewrite F1, W. repeat split; auto.
    + destruct (remove_items (expanduser env path) (map fst es) w1)
        as [[r1 w2] l1] eqn:RI.
      assert (W1 : walk cs (fs w1) = Some (Dir wr es)) by (rewrite F1; exact W).
      destruct (remove_items_local (expanduser env path) cs wr es w1 w2 r1 l1
                                   R W1 PL RI) as [_ [es' F2]].
      rewrite F1 in F2.
      assert (E' : fs w' = replace_at cs (Dir wr es') (fs w)).
      { destruct r1 as [[]|e]; inversion C; subst; exact F2. }
      rewrite E', (walk_replace_at cs (Dir wr es') (fs w) _ W).
      split; [|split; reflexivity]. intros q O. eapply stat_replace_at_outside; eauto.
    + exfalso. unfold exists_ in H. rewrite R, W in H. discriminate.
  - rewrite (clean_directory_absent Ext spawn env path w H) in C.
    inversion C; subst. rewrite H. repeat split; auto.
Qed.

(** X2. For every path and every outcome, success or failure: given that
    the size utility only reads and the names listed in the directory are
    usable entry names, [clean_directory] changes nothing outside the
    directory; the path exists afterwards exactly if it existed before,
    and is a directory exactly if it was one. *)
Theorem clean_directory_touches_only_its_directory
        (path : string) (cs : list string) (w w' : World Ext)
        (r : res (bool * string * string)) (l : list event) :
  du_reads_only spawn ->
  proper_listing (expanduser env path) (fs w) = true ->
  resolve (expanduser env path) = Some cs ->
  clean_directory spawn env path w = (r, w', l) ->
  (forall q, ~ inside cs q -> stat q (fs w') = stat q (fs w))
  /\ exists_ (expanduser env path) (fs w') = exists_ (expanduser env path) (fs w)
  /\ isdir (expanduser env path) (fs w') = isdir (expanduser env path) (fs w).
Proof. apply clean_directory_frame. Qed.

(** X3. For every existing path that is not a directory, [clean_directory]
    reports a failure with size "0B" and, the size utility only reading,
    leaves the whole file system as it was: the file is not deleted. *)
Theorem clean_directory_refuses_a_file (path : string) (w : World Ext) :
  du_reads_only spawn ->
  exists_ (expanduser env path) (fs w) = true ->
  isdir (expanduser env path) (fs w) = false ->
  exists message w',
    clean_directory spawn env path w = (Ok (false, message, "0B"), w', [])
    /\ fs w' = fs w.
Proof.
  intros RO H D.
  destruct (get_directory_size_returns Ext spawn env path w) as [[sz fl] [w1 G]].
  pose proof (get_directory_size_keeps_fs Ext spawn env path w w1 _ _ RO G) as F1.
  rewrite (clean_directory_present Ext spawn env path w w1 sz fl H G).
  rewrite remove_contents_unfold, F1.
  unfold exists_, isdir, listdir in *.
  destruct (resolve (expanduser env path)) as [cs|]; [|discriminate].
  destruct (walk cs (fs w)) as [[fsz|wr es]|]; try discriminate.
  eexists _, w1. split; [reflexivity|exact F1].
Qed.

End Locality.

(* ----------------------------------------------------------------- *)
(** *** Splitting and stripping *)

Module TextFacts.

Import Text.

Lemma split_on_without (sep : ascii) (s : string) :
  without sep s = true -> PyStr.split_on sep s = [s].
Proof.
  induction s as [|c s IH]; simpl; intros W; [reflexivity|].
  apply andb_true_iff in W. destruct W as [Wc Ws].
  destruct (Ascii.eqb c sep); [discriminate|]. rewrite (IH Ws). reflexivity.
Qed.

Lemma every_app (p : ascii -> bool) (a b : string) :
  every p (a ++ b) = every p a && every p b.
Proof.
  induction a as [|c a IH]; simpl; [reflexivity|]. rewrite IH, andb_assoc. reflexivity.
Qed.

Lemma every_impl (p q : ascii -> bool) (s : string) :
  (forall c, p c = true -> q c = true) -> every p s = true -> every q s = true.
Proof.
  intros I. induction s as [|c s IH]; simpl; [reflexivity|]. intros E.
  apply andb_true_iff in E. destruct E as [Ec Es].
  rewrite (I c Ec), (IH Es). reflexivity.
Qed.

Lemma every_spaces (p : ascii -> bool) (n : nat) :
  p " "%char = true -> every p (spaces n) = true.
Proof. intros P. induction n as [|n IH]; simpl; [reflexivity|]. rewrite P, IH. reflexivity. Qed.

Lemma solid_parts (s : string) :
  solid s = true -> s <> "" /\ every not_blank s = true.
Proof.
  unfold solid. intros S. apply andb_true_iff in S. destruct S as [N E].
  split; [|exact E]. intros Z. subst s. discriminate.
Qed.

Lemma not_blank_without (ch : ascii) (s : string) :
  PyStr.is_space ch = true -> every not_blank s = true -> without ch s = true.
Proof.
  intros B. apply every_impl. intros c N. unfold not_blank in N.
  destruct (Ascii.eqb c ch) eqn:E; [|reflexivity].
  apply Ascii.eqb_eq in E. subst c. rewrite B in N. discriminate.
Qed.

(** *** [lstrip] and [rstrip] *)

Lemma lstrip_spaces (n : nat) (s : string) :
  PyStr.lstrip (spaces n ++ s) = PyStr.lstrip s.
Proof. induction n as [|n IH]; simpl; [reflexivity|exact IH]. Qed.

Lemma lstrip_solid_start (s t : string) :
  solid s = true -> PyStr.lstrip (s ++ t) = s ++ t.
Proof.
  intros S. destruct (solid_parts s S) as [N E].
  destruct s as [|c s]; [contradiction|]. simpl in *.
  apply andb_true_iff in E. destruct E as [Ec _]. unfold not_blank in Ec.
  destruct (PyStr.is_space c); [discriminate|reflexivity].
Qed.

Lemma rstrip_blank (s : string) : blank s = true -> PyStr.rstrip s = "".
Proof.
  unfold blank. induction s as [|c s IH]; simpl; [reflexivity|]. intros B.
  apply andb_true_iff in B. destruct B as [Bc Bs]. rewrite (IH Bs), Bc. reflexivity.
Qed.

Lemma rstrip_not_blank (s : string) :
  every not_blank s = true -> PyStr.rstrip s = s.
Proof.
  induction s as [|c s IH]; simpl; [reflexivity|]. intros E.
  apply andb_true_iff in E. destruct E as [Ec Es]. rewrite (IH Es).
  unfold not_blank in Ec. destruct s; [|reflexivity].
  destruct (PyStr.is_space c); [discriminate|reflexivity].
Qed.

(** Stripping the right end of a concatenation. *)
Lemma rstrip_app (a b : string) :
  PyStr.rstrip (a ++ b)
    = match PyStr.rstrip b with
      | EmptyString => PyStr.rstrip a
      | String _ _ => a ++ PyStr.rstrip b
      end.
Proof.
  induction a as [|c a IH]; simpl.
  - destruct (PyStr.rstrip b); reflexivity.
  - rewrite IH. destruct (PyStr.rstrip b) as [|d r]; [reflexivity|].
    destruct a; reflexivity.
Qed.

(** What [rstrip] cuts off is blank. *)
Lemma rstrip_cut (s : string) :
  exists b, s = PyStr.rstrip s ++ b /\ blank b = true.
Proof.
  unfold blank. induction s as [|c s [b [E B]]]; simpl.
  - exists "". split; reflexivity.
  - destruct (PyStr.rstrip s) as [|d r] eqn:R.
    + simpl in E. destruct (PyStr.is_space c) eqn:Sc.
      * exists (String c s). split; [reflexivity|]. simpl. rewrite Sc, E. exact B.
      * exists s. split; [reflexivity|]. rewrite E. exact B.
    + exists b. split; [|exact B]. simpl. rewrite E at 1. reflexivity.
Qed.

Lemma every_rstrip (p : ascii -> bool) (s : string) :
  every p s = true -> every p (PyStr.rstrip s) = true.
Proof.
  intros E. destruct (rstrip_cut s) as [b [C _]].
  rewrite C, every_app in E. apply andb_true_iff in E. tauto.
Qed.

(** *** [split_ws] *)

Lemma split_ws_of_blank (s : string) : blank s = true -> PyStr.split_ws s = [].
Proof.
  unfold blank. induction s as [|c s IH]; simpl; [reflexivity|]. intros B.
  apply andb_true_iff in B. destruct B as [Bc Bs]. rewrite Bc. exact (IH Bs).
Qed.

Lemma split_ws_app_blank (a b : string) :
  blank b = true -> PyStr.split_ws (a ++ b) = PyStr.split_ws a.
Proof.
  intros B. induction a as [|c a IH].
  - simpl. apply split_ws_of_blank. exact B.
  - cbn [append PyStr.split_ws]. destruct (PyStr.is_space c); [exact IH|].
    destruct a as [|c' a].
    + simpl in *. destruct b as [|d b]; [reflexivity|].
      unfold blank in B. simpl in B. apply andb_true_iff in B. destruct B as [Bd _].
      rewrite Bd, IH. reflexivity.
    + cbn [append]. cbn [append] in IH. rewrite IH. reflexivity.
Qed.

Lemma split_ws_rstrip (s : string) :
  PyStr.split_ws (PyStr.rstrip s) = PyStr.split_ws s.
Proof.
  destruct (rstrip_cut s) as [b [C B]]. rewrite C at 2.
  symmetry. apply split_ws_app_blank. exact B.
Qed.

Lemma split_ws_spaces (n : nat) (s : string) :
  PyStr.split_ws (spaces n ++ s) = PyStr.split_ws s.
Proof. induction n as [|n IH]; simpl; [reflexivity|exact IH]. Qed.

(** A word followed by nothing or by a blank is the first field. *)
Lemma split_ws_word (f rest : string) :
  solid f = true -> detached rest = true ->
  PyStr.split_ws (f ++ rest) = f :: PyStr.split_ws rest.
Proof.
  intros S D. destruct (solid_parts f S) as [N E]. clear S.
  induction f as [|c f IH]; [contradiction|].
  simpl in E. apply andb_true_iff in E. destruct E as [Ec Ef].
  unfold not_blank in Ec. apply negb_true_iff in Ec.
  cbn [append PyStr.split_ws]. rewrite Ec.
  destruct f as [|c' f].
  - simpl. destruct rest as [|d rest]; [reflexivity|].
    simpl in D. rewrite D. reflexivity.
  - assert (N' : String c' f <> "") by discriminate.
    specialize (IH N' Ef). cbn [append] in IH |- *.
    simpl in Ef. apply andb_true_iff in Ef. destruct Ef as [Ec' _].
    unfold not_blank in Ec'. apply negb_true_iff in Ec'. rewrite Ec', IH.
    reflexivity.
Qed.

(** Every field [split_ws] returns is a word. *)
Lemma split_ws_solid (s : string) : forallb solid (PyStr.split_ws s) = true.
Proof.
  assert (K : forall c w, PyStr.is_space c = false -> solid w = true ->
                          solid (String c w) = true).
  { intros c w Sc Sw. destruct (solid_parts w Sw) as [_ E].
    unfold solid. simpl. unfold not_blank at 1. rewrite Sc, E. reflexivity. }
  assert (K1 : forall c, PyStr.is_space c = false -> solid (String c "") = true).
  { intros c Sc. unfold solid. simpl. unfold not_blank. rewrite Sc. reflexivity. }
  induction s as [|c s IH]; [reflexivity|].
  cbn [PyStr.split_ws]. destruct (PyStr.is_space c) eqn:Sc; [exact IH|].
  destruct s as [|c' s]; [simpl; rewrite (K1 c Sc); reflexivity|].
  destruct (PyStr.is_space c') eqn:Sc'.
  - cbn [forallb]. rewrite (K1 c Sc), IH. reflexivity.
  - destruct (PyStr.split_ws (String c' s)) as [|w ws].
    + simpl. rewrite (K1 c Sc). reflexivity.
    + cbn [forallb] in IH |- *. apply andb_true_iff in IH. destruct IH as [Sw Sws].
      rewrite (K c w Sc Sw), Sws. reflexivity.
Qed.

Lemma nth_solid (fields : list string) (i : nat) :
  forallb solid fields = true -> i < List.length fields ->
  solid (nth i fields "") = true.
Proof.
  intros F L. rewrite forallb_forall in F. apply F. apply nth_In. exact L.
Qed.

End TextFacts.

Section Probes.

Import Text TextFacts.

Variable Ext : Type.
Variable spawn : list string -> Z -> World Ext -> res CompletedProcess * World Ext.
Variable env : Env.
Variable spawn_wait : list string -> World Ext -> run CompletedProcess * World Ext.

Lemma strip_padded (a b : nat) (word : string) :
  solid word = true ->
  PyStr.strip (spaces a ++ word ++ spaces b) = word.
Proof.
  intros S. unfold PyStr.strip.
  rewrite lstrip_spaces, (lstrip_solid_start word (spaces b) S), rstrip_app.
  rewrite (rstrip_blank (spaces b)) by (apply every_spaces; reflexivity).
  apply rstrip_not_blank. apply solid_parts. exact S.
Qed.

(** X4. When the path exists and [du] exits with 0 having printed a size,
    padded with spaces or not, then a tab and anything else, the
    measurement returns that size with flag 1. *)
Theorem get_directory_size_reads_the_size
        (path : string) (w w' : World Ext) (cp : CompletedProcess)
        (a b : nat) (size rest : string) :
  FS.exists_ (expanduser env path) (fs w) = true ->
  spawn ["du"; "-sh"; expanduser env path] 10%Z w = (Ok cp, w') ->
  returncode cp = 0%Z ->
  stdout cp = spaces a ++ size ++ spaces b ++ String "009"%char rest ->
  solid size = true ->
  get_directory_size spawn env path w = (Ok (size, 1%Z), w', []).
Proof.
  intros H D R O S.
  rewrite (get_directory_size_completed Ext spawn env path w w' cp H D).
  rewrite R. cbn [Z.eqb]. rewrite O.
  replace (spaces a ++ size ++ spaces b ++ String "009"%char rest)
    with ((spaces a ++ size ++ spaces b) ++ String "009"%char rest)
    by (rewrite !FSFacts.append_assoc; reflexivity).
  rewrite FSFacts.split_on_app.
  rewrite (split_on_without "009"%char (spaces a ++ size ++ spaces b)).
  - cbn [app hd]. rewrite (strip_padded a b size S). reflexivity.
  - unfold without. rewrite !every_app.
    rewrite !every_spaces by reflexivity.
    destruct (solid_parts size S) as [_ E].
    fold (without "009"%char size).
    rewrite (not_blank_without "009"%char size eq_refl E). reflexivity.
Qed.

Lemma get_available_space_unfold (w : World Ext) :
  get_available_space spawn_wait w =
    match spawn_wait ["df"; "-h"; "/"] w with
    | (Over (Ok cp), w') =>
        (Over (Ok (if (returncode cp =? 0)%Z then
                     let lines := PyStr.split_on "010"%char (PyStr.strip (stdout cp)) in
                     if Nat.leb 2 (List.length lines) then
                       let parts := PyStr.split_ws (nth 1 lines "") in
                       if Nat.leb 4 (List.length parts) then nth 3 parts ""
                       else "Unknown"
                     else "Unknown"
                   else "Unknown")), w', [])
    | (Over (Raise e), w') => (Over (Ok "Unknown"), w', [])
    | (Stuck, w') => (Stuck, w', [])
    end.
Proof.
  unfold get_available_space, subprocess_run_wait, wait_try, wait_bind, now, ret.
  destruct (spawn_wait ["df"; "-h"; "/"] w) as [[[cp|e]|] w']; [|reflexivity|reflexivity].
  destruct (returncode cp =? 0)%Z; [|reflexivity]. cbv zeta.
  destruct (Nat.leb 2 _); [|reflexivity].
  destruct (Nat.leb 4 _); reflexivity.
Qed.

(** X5. [get_available_space] raises nothing, whatever [df] does. It is
    stuck exactly when [df] never ends, for [df] is run without a timeout;
    when [df] ends, or could not be started, it returns one word, not
    empty and without blanks, which is "Unknown" whenever [df] could not be
    run or exits with a nonzero code. The world is left as [df] left it. *)
Theorem get_available_space_word_or_stuck (w : World Ext) :
  match fst (spawn_wait ["df"; "-h"; "/"] w) with
  | Stuck =>
      get_available_space spawn_wait w
        = (Stuck, snd (spawn_wait ["df"; "-h"; "/"] w), [])
  | Over r =>
      exists word,
        get_available_space spawn_wait w
          = (Over (Ok word), snd (spawn_wait ["df"; "-h"; "/"] w), [])
        /\ solid word = true
        /\ (du_failed r -> word = "Unknown")
  end.
Proof.
  rewrite get_available_space_unfold.
  destruct (spawn_wait ["df"; "-h"; "/"] w) as [[[cp|e]|] w']; cbn [fst snd du_failed].
  - eexists. split; [reflexivity|].
    destruct (returncode cp =? 0)%Z eqn:R.
    + split; [|intros F; apply Z.eqb_eq in R; contradiction]. cbv zeta.
      destruct (Nat.leb 2 _); [|reflexivity].
      destruct (Nat.leb 4 _) eqn:L; [|reflexivity].
      apply nth_solid; [apply split_ws_solid|]. apply Nat.leb_le in L. lia.
    + split; reflexivity.
  - eexists. repeat split; reflexivity.
  - reflexivity.
Qed.

Lemma lstrip_started (s t : string) :
  detached s = false -> PyStr.lstrip (s ++ t) = s ++ t.
Proof.
  destruct s as [|c s]; simpl; [discriminate|]. intros D. rewrite D. reflexivity.
Qed.

Lemma rstrip_starts_solid (f x : string) :
  solid f = true -> PyStr.rstrip (f ++ x) <> "".
Proof.
  intros S E. rewrite rstrip_app in E.
  destruct (solid_parts f S) as [N Ev].
  destruct (PyStr.rstrip x).
  - rewrite (rstrip_not_blank f Ev) in E. contradiction.
  - destruct f; [contradiction|discriminate].
Qed.

(** X6. When [df] exits with 0 having printed a header line and a second
    line of columns separated by spaces, [get_available_space] returns the
    fourth column of the second line. *)
Theorem get_available_space_reads_the_fourth_column
        (w w' : World Ext) (cp : CompletedProcess)
        (header f1 f2 f3 f4 rest : string) (a b c : nat) :
  spawn_wait ["df"; "-h"; "/"] w = (Over (Ok cp), w') ->
  returncode cp = 0%Z ->
  stdout cp = header ++ LF
              ++ (f1 ++ spaces (S a) ++ f2 ++ spaces (S b) ++ f3 ++ spaces (S c)
                  ++ f4 ++ rest) ++ LF ->
  detached header = false -> without "010"%char header = true ->
  solid f1 = true -> solid f2 = true -> solid f3 = true -> solid f4 = true ->
  detached rest = true -> without "010"%char rest = true ->
  get_available_space spawn_wait w = (Over (Ok f4), w', []).
Proof.
  intros D R O Hd Hl S1 S2 S3 S4 Rd Rl.
  set (line := f1 ++ spaces (S a) ++ f2 ++ spaces (S b) ++ f3 ++ spaces (S c)
               ++ f4 ++ rest) in *.
  assert (W : forall f, solid f = true -> without "010"%char f = true).
  { intros f S. apply not_blank_without; [reflexivity|]. apply solid_parts. exact S. }
  assert (Ll : without "010"%char line = true).
  { unfold line, without. rewrite !every_app.
    rewrite !every_spaces by reflexivity.
    fold (without "010"%char f1) (without "010"%char f2) (without "010"%char f3)
         (without "010"%char f4) (without "010"%char rest).
    rewrite (W f1 S1), (W f2 S2), (W f3 S3), (W f4 S4), Rl. reflexivity. }
  assert (Fields : PyStr.split_ws line = f1 :: f2 :: f3 :: f4 :: PyStr.split_ws rest).
  { unfold line.
    rewrite (split_ws_word f1 _ S1) by reflexivity. rewrite split_ws_spaces.
    rewrite (split_ws_word f2 _ S2) by reflexivity. rewrite split_ws_spaces.
    rewrite (split_ws_word f3 _ S3) by reflexivity. rewrite split_ws_spaces.
    rewrite (split_ws_word f4 _ S4 Rd). reflexivity. }
  assert (Strip : PyStr.strip (stdout cp)
                  = header ++ String "010"%char (PyStr.rstrip line)).
  { rewrite O. unfold PyStr.strip, LF.
    rewrite (lstrip_started header _ Hd), rstrip_app.
    assert (Rline : PyStr.rstrip (line ++ String "010"%char "") = PyStr.rstrip line).
    { rewrite rstrip_app. reflexivity. }
    assert (NE : PyStr.rstrip line <> "").
    { unfold line. apply rstrip_starts_solid. exact S1. }
    cbn [append PyStr.rstrip]. rewrite Rline.
    destruct (PyStr.rstrip line) as [|d r]; [contradiction|reflexivity]. }
  rewrite get_available_space_unfold, D, R. cbn [Z.eqb]. cbv zeta.
  rewrite Strip, FSFacts.split_on_app.
  rewrite (split_on_without "010"%char header Hl).
  rewrite (split_on_without "010"%char (PyStr.rstrip line))
    by (apply every_rstrip; exact Ll).
  cbn [app List.length Nat.leb nth]. rewrite split_ws_rstrip, Fields.
  reflexivity.
Qed.

End Probes.

(* ================================================================= *)
(** ** Properties of the interface *)

Section Sequences.

Context {A : Type}.

Lemma Subseq_In (l1 l2 : list A) (x : A) : Subseq l1 l2 -> In x l1 -> In x l2.
Proof.
  induction 1 as [l|y l1 l2 S IH|y l1 l2 S IH]; simpl; intros I.
  - contradiction.
  - destruct I as [E|I]; [left; exact E|right; exact (IH I)].
  - right. exact (IH I).
Qed.

Lemma Subseq_NoDup (l1 l2 : list A) : Subseq l1 l2 -> NoDup l2 -> NoDup l1.
Proof.
  induction 1 as [l|y l1 l2 S IH|y l1 l2 S IH]; intros N.
  - constructor.
  - inversion N as [|z l Nz Nl]; subst. constructor; [|exact (IH Nl)].
    intros I. apply Nz. exact (Subseq_In l1 l2 y S I).
  - inversion N; subst. auto.
Qed.

Lemma Subseq_map {B : Type} (f : A -> B) (l1 l2 : list A) :
  Subseq l1 l2 -> Subseq (map f l1) (map f l2).
Proof. induction 1; simpl; constructor; assumption. Qed.

Lemma Subseq_forallb (p : A -> bool) (l1 l2 : list A) :
  Subseq l1 l2 -> forallb p l2 = true -> forallb p l1 = true.
Proof.
  induction 1 as [l|y l1 l2 S IH|y l1 l2 S IH]; simpl; intros F.
  - reflexivity.
  - apply andb_true_iff in F. destruct F as [Fy Fl]. rewrite Fy, (IH Fl). reflexivity.
  - apply andb_true_iff in F. destruct F as [_ Fl]. exact (IH Fl).
Qed.

End Sequences.

(** The ticked values are among the values offered, in their order. *)
Lemma ticked_Subseq (choices : list choice) :
  forall ticks, Subseq (ticked choices ticks) (map ch_value choices).
Proof.
  induction choices as [|c choices IH]; intros ticks.
  - destruct ticks as [|[] ?]; constructor.
  - destruct ticks as [|[] ticks]; simpl.
    + constructor.
    + apply Subseq_take. apply IH.
    + apply Subseq_skip. apply IH.
Qed.

Lemma registry_names_distinct : NoDup (map cat_name CATEGORIES).
Proof.
  simpl. repeat constructor; simpl; intuition discriminate.
Qed.

Lemma registry_kinds_known : forallb known_kind CATEGORIES = true.
Proof. reflexivity. Qed.

Section Selection.

Variable Ext : Type.
Variable spawn : list string -> Z -> World Ext -> res CompletedProcess * World Ext.
Variable env : Env.
Variable User : Type.
Variable ask_checkbox : string -> list choice -> Session Ext User
                        -> option (list bool) * User.

Lemma select_categories_unfold (s : Session Ext User) :
  let choices := map (fun cat => {| ch_name := format_category_choice cat;
                                    ch_value := cat;
                                    ch_checked := cat_default cat |}) CATEGORIES in
  let s1 := {| world := world s; user := user s;
               screen := (((screen s
                            ++ [Printed "[bold]Select items to clean:[/bold]"])
                           ++ [Printed "Use ↑↓ to navigate, Space to toggle, 'a' to select all, Enter to confirm"])
                          ++ [Printed ""])%list |} in
  select_categories ask_checkbox s
    = (Ok (match option_map (ticked choices) (fst (ask_checkbox "" choices s1)) with
           | Some (c :: cs) => c :: cs
           | _ => []
           end),
       {| world := world s;
          user := snd (ask_checkbox "" choices s1);
          screen := (screen s1 ++ [Asked ""])%list |}, []).
Proof.
  intros choices s1.
  unfold select_categories, questionary_checkbox, console_print,
    console_print_blank, show, bind, ret.
  cbv beta iota zeta. cbn [world user screen].
  fold choices. fold s1.
  destruct (ask_checkbox "" choices s1) as [answer u]. reflexivity.
Qed.

Lemma select_categories_spec (s : Session Ext User) :
  exists selected s',
    select_categories ask_checkbox s = (Ok selected, s', [])
    /\ world s' = world s
    /\ Subseq selected CATEGORIES
    /\ NoDup (map cat_name selected)
    /\ forallb known_kind selected = true
    /\ (ticks_nothing ask_checkbox -> selected = []).
Proof.
  pose proof (select_categories_unfold s) as E. cbv zeta in E.
  set (choices := map (fun cat => {| ch_name := format_category_choice cat;
                                     ch_value := cat;
                                     ch_checked := cat_default cat |}) CATEGORIES) in *.
  match type of E with
  | context [ask_checkbox "" choices ?x] => set (s1 := x) in *
  end.
  assert (V : map ch_value choices = CATEGORIES).
  { unfold choices. rewrite map_map. simpl. reflexivity. }
  clearbody choices s1.
  eexists _, _. split; [exact E|]. split; [reflexivity|].
  assert (S : Subseq (match option_map (ticked choices)
                                       (fst (ask_checkbox "" choices s1)) with
                      | Some (c :: cs) => c :: cs
                      | _ => []
                      end) CATEGORIES).
  { destruct (fst (ask_checkbox "" choices s1)) as [ticks|]; simpl; [|constructor].
    pose proof (ticked_Subseq choices ticks) as T. rewrite V in T.
    destruct (ticked choices ticks); [constructor|exact T]. }
  split; [exact S|]. split; [|split].
  - eapply Subseq_NoDup; [apply Subseq_map; exact S|exact registry_names_distinct].
  - eapply Subseq_forallb; [exact S|exact registry_kinds_known].
  - intros T. specialize (T "" choices s1).
    destruct (fst (ask_checkbox "" choices s1)) as [ticks|]; simpl; [|reflexivity].
    rewrite T. reflexivity.
Qed.

(** X7. Whatever the user does at the checkbox prompt, [select_categories]
    returns a list, never [None] (the empty list when the prompt is
    interrupted or nothing is ticked); the list is the registry with some
    entries left out, in registry order, so its names are pairwise distinct
    and every kind in it is one [perform_cleanup] has a strategy for; and
    the world is not touched. *)
Theorem select_categories_picks_from_the_registry (s : Session Ext User) :
  exists selected s',
    select_categories ask_checkbox s = (Ok selected, s', [])
    /\ world s' = world s
    /\ Subseq selected CATEGORIES
    /\ NoDup (map cat_name selected)
    /\ forallb known_kind selected = true
    /\ (ticks_nothing ask_checkbox -> selected = []).
Proof. exact (select_categories_spec s). Qed.

(** X8. Whatever the user ticks, running [perform_cleanup] on what
    [select_categories] returned, in any world, yields exactly one outcome
    per selected category, in the order of the selection and under the
    category's name. *)
Theorem selection_is_cleaned_one_by_one
        (s s' : Session Ext User) (selected : list category) (l : list event)
        (w : World Ext) :
  select_categories ask_checkbox s = (Ok selected, s', l) ->
  exists results w' l',
    perform_cleanup spawn env selected w = (Ok results, w', l')
    /\ List.length results = List.length selected
    /\ Forall2 (fun c o => res_name o = cat_name c) selected results.
Proof.
  intros E.
  destruct (select_categories_spec s) as [sel0 [s0 [E0 [_ [_ [_ [K _]]]]]]].
  rewrite E0 in E. inversion E; subst. clear E.
  destruct (perform_cleanup_returns Ext spawn env selected w) as [l' P].
  pose proof (outcomes_known Ext spawn env selected w K) as F.
  eexists _, _, l'. split; [exact P|]. split; [|exact F].
  symmetry. eapply Forall2_length. exact F.
Qed.

End Selection.

Section Tables.

Variable Ext : Type.
Variable spawn : list string -> Z -> World Ext -> res CompletedProcess * World Ext.
Variable env : Env.
Variable spawn_wait : list string -> World Ext -> run CompletedProcess * World Ext.
Variable rich_markup : string -> option exn.
Variable rich_table : string -> list string -> list (list string) -> option exn.
Variable User : Type.

(** One turn of the loop of [show_category_details]. *)
Lemma details_loop_step (c : category) (rest : list category) (w : World Ext) :
  exists size w1,
    (cat_type c <> "directory" -> size = "N/A" /\ w1 = w)
    /\ (cat_type c = "directory" ->
        exists flag, get_directory_size spawn env (cat_path c) w
                     = (Ok (size, flag), w1, []))
    /\ forall rows,
         details_loop spawn env (c :: rest) rows w
         = details_loop spawn env rest
             (rows ++ [ [ cat_name c; cat_description c; size;
                          dict_get [ ("safe", "✓ Safe"); ("caution", "⚠️  Caution");
                                     ("advanced", "⚡ Advanced") ]
                                   (cat_safety c) "Unknown" ] ])%list w1.
Proof.
  cbn [details_loop].
  destruct (String.eqb (cat_type c) "directory") eqn:K.
  - destruct (get_directory_size_returns Ext spawn env (cat_path c) w)
      as [[size flag] [w1 G]].
    exists size, w1. split; [|split].
    + intros N. apply String.eqb_eq in K. contradiction.
    + intros _. exists flag. exact G.
    + intros rows. unfold bind at 1. unfold bind at 1. rewrite G.
      unfold ret at 1. cbv beta iota.
      destruct (details_loop spawn env rest _ w1) as [[r w2] l2]. reflexivity.
  - exists "N/A", w. split; [|split].
    + intros _. split; reflexivity.
    + intros D. rewrite D in K. discriminate.
    + intros rows. unfold bind at 1. unfold ret at 1. cbv beta iota.
      destruct (details_loop spawn env rest _ w) as [[r w2] l2]. reflexivity.
Qed.

(** The loop raises nothing and appends to the rows it was given; what it
    appends and the world it leaves do not depend on those rows. *)
Lemma details_loop_appends (categories : list category) :
  forall w : World Ext,
  exists added w',
    (forall rows,
        details_loop spawn env categories rows w = (Ok (rows ++ added)%list, w', []))
    /\ List.length added = List.length categories
    /\ (du_reads_only spawn -> fs w' = fs w).
Proof.
  induction categories as [|c rest IH]; intros w.
  - exists [], w. split; [|split; [reflexivity|reflexivity]].
    intros rows. cbn [details_loop]. rewrite app_nil_r. reflexivity.
  - destruct (details_loop_step c rest w) as [size [w1 [N [D S]]]].
    destruct (IH w1) as [added [w' [E [L RO]]]].
    eexists (_ :: added), w'. split; [|split].
    + intros rows. rewrite S, E, <- app_assoc. reflexivity.
    + cbn [List.length]. rewrite L. reflexivity.
    + intros R. rewrite (RO R).
      destruct (String.eqb (cat_type c) "directory") eqn:K.
      * apply String.eqb_eq in K. destruct (D K) as [flag G].
        exact (get_directory_size_keeps_fs Ext spawn env (cat_path c) w w1 _ _ R G).
      * assert (K' : cat_type c <> "directory").
        { intros Eq. rewrite Eq in K. discriminate. }
        destruct (N K') as [_ Ew]. rewrite Ew. reflexivity.
Qed.

Lemma details_loop_world (categories : list category) (rows : list (list string))
      (w : World Ext) :
  snd (fst (details_loop spawn env categories rows w))
  = snd (fst (details_loop spawn env categories [] w)).
Proof.
  destruct (details_loop_appends categories w) as [added [w' [E _]]].
  rewrite (E rows), (E []). reflexivity.
Qed.

(** The i-th row appended is the row of the i-th category, with the size
    measured in the world the loop had reached by then. *)
Lemma details_loop_rows (categories : list category) :
  forall (w : World Ext) (added : list (list string)) (w' : World Ext),
    (forall rows,
        details_loop spawn env categories rows w = (Ok (rows ++ added)%list, w', [])) ->
    forall i c,
      nth_error categories i = Some c ->
      exists size,
        nth_error added i
        = Some [ cat_name c; cat_description c; size;
               dict_get [ ("safe", "✓ Safe"); ("caution", "⚠️  Caution");
                          ("advanced", "⚡ Advanced") ]
                        (cat_safety c) "Unknown" ]
        /\ (cat_type c <> "directory" -> size = "N/A")
        /\ (cat_type c = "directory" ->
            exists flag w2,
              get_directory_size spawn env (cat_path c)
                (snd (fst (details_loop spawn env (firstn i categories) [] w)))
              = (Ok (size, flag), w2, [])).
Proof.
  induction categories as [|c0 rest IH]; intros w added w' E i c Hi.
  - destruct i; discriminate Hi.
  - destruct (details_loop_step c0 rest w) as [size [w1 [N [D S]]]].
    destruct (details_loop_appends rest w1) as [added1 [w1' [E1 _]]].
    pose proof (E []) as E0. rewrite S, E1 in E0. cbn [app] in E0.
    inversion E0 as [[Ea Ew]]. clear E0.
    destruct i as [|j].
    + cbn [nth_error] in Hi. inversion Hi; subst c0. clear Hi.
      exists size. split; [reflexivity|]. split.
      * intros K. exact (proj1 (N K)).
      * intros K. destruct (D K) as [flag G]. exists flag, w1.
        cbn [firstn details_loop]. exact G.
    + cbn [nth_error] in Hi.
      destruct (IH w1 added1 w1' E1 j c Hi) as [sz [Hn [Hx Hd]]].
      exists sz. split; [exact Hn|]. split; [exact Hx|].
      intros K. destruct (Hd K) as [flag [w2 G]]. exists flag, w2.
      cbn [firstn].
      destruct (details_loop_step c0 (firstn j rest) w) as [size' [w1x [N' [D' S']]]].
      rewrite (S' []), details_loop_world.
      assert (Ew1 : w1x = w1).
      { destruct (String.eqb (cat_type c0) "directory") eqn:K0.
        - apply String.eqb_eq in K0.
          destruct (D K0) as [f1 G1]. destruct (D' K0) as [f2 G2].
          rewrite G1 in G2. inversion G2. reflexivity.
        - assert (K0' : cat_type c0 <> "directory").
          { intros Eq. rewrite Eq in K0. discriminate. }
          rewrite (proj2 (N K0')), (proj2 (N' K0')). reflexivity. }
      rewrite Ew1. exact G.
Qed.

(** X9. For every list of categories, the loop of [show_category_details]
    raises nothing and adds one row per category, in order and whatever
    its kind: the name, the description, a size and the safety label
    ("Unknown" for a tier that is not in the table). The size of the i-th
    row is "N/A" for a category that is not of kind "directory", and for a
    directory it is the size [get_directory_size] returns for its path in
    the world the loop has reached after the i categories before it. When
    the size utility only reads, the file system is left as it was. *)
Theorem details_loop_lists_every_category
        (categories : list category) (rows : list (list string)) (w : World Ext) :
  exists added w',
    details_loop spawn env categories rows w = (Ok (rows ++ added)%list, w', [])
    /\ List.length added = List.length categories
    /\ (forall i c,
           nth_error categories i = Some c ->
           exists size,
             nth_error added i
             = Some [ cat_name c; cat_description c; size;
               dict_get [ ("safe", "✓ Safe"); ("caution", "⚠️  Caution");
                          ("advanced", "⚡ Advanced") ]
                        (cat_safety c) "Unknown" ]
             /\ (cat_type c <> "directory" -> size = "N/A")
             /\ (cat_type c = "directory" ->
                 exists flag w2,
                   get_directory_size spawn env (cat_path c)
                     (snd (fst (details_loop spawn env (firstn i categories) [] w)))
                   = (Ok (size, flag), w2, [])))
    /\ (du_reads_only spawn -> fs w' = fs w).
Proof.
  destruct (details_loop_appends categories w) as [added [w' [E [L RO]]]].
  exists added, w'. split; [exact (E rows)|]. split; [exact L|].
  split; [|exact RO].
  exact (details_loop_rows categories w added w' E).
Qed.

Lemma result_row_injective (r1 r2 : result) :
  result_row r1 = result_row r2 -> r1 = r2.
Proof.
  destruct r1 as [n1 s1 m1 z1], r2 as [n2 s2 m2 z2]. unfold result_row. simpl.
  intros E. inversion E as [[En Ec Ez]]. clear E.
  destruct s1, s2; simpl in Ec; inversion Ec; subst; reflexivity.
Qed.

Lemma result_rows_injective (rs1 rs2 : list result) :
  map result_row rs1 = map result_row rs2 -> rs1 = rs2.
Proof.
  revert rs2. induction rs1 as [|r1 rs1 IH]; intros [|r2 rs2] E;
    try discriminate; [reflexivity|].
  cbn [map] in E.
  pose proof (f_equal (hd []) E) as E1. pose proof (f_equal (@tl _) E) as E2.
  cbn [hd tl] in E1, E2.
  rewrite (result_row_injective r1 r2 E1), (IH rs2 E2). reflexivity.
Qed.

(** X10. [show_results] hands [rich] one table, with one row per outcome
    in order, and the rows tell the outcomes apart: two lists of outcomes
    that differ, be it only in one success flag, never give the same
    rows. When [rich] raises on the table, the exception leaves
    [show_results], which has no handler, with the world untouched; when
    it does not, the table is on the screen however [show_results] ends. *)
Theorem show_results_tells_outcomes_apart
        (results : list result) (s : Session Ext User) :
  (forall other, map result_row other = map result_row results -> other = results)
  /\ match rich_table "Results" ["Category"; "Status"; "Size Freed"]
                      (map result_row results) with
     | Some e =>
         exists s',
           show_results spawn_wait rich_markup rich_table results s
           = (Over (Raise e), s', [])
           /\ world s' = world s
     | None =>
         In (TableShown "Results" ["Category"; "Status"; "Size Freed"]
                        (map result_row results))
            (screen (snd (fst (show_results spawn_wait rich_markup rich_table
                                            results s))))
     end.
Proof.
  split; [intros other; apply result_rows_injective|].
  unfold show_results, console_print_table, console_print_f, console_print,
    console_print_blank, show, lift_wait, wait_bind, now, raise.
  cbn [world user screen].
  destruct (rich_table "Results" ["Category"; "Status"; "Size Freed"]
                       (map result_row results)) as [e|].
  - eexists. split; reflexivity.
  - cbn [world user screen].
    destruct (get_available_space spawn_wait (world s)) as [[[[word|e]|] w1] l1];
      cbn [world user screen fst snd].
    + destruct (rich_markup _) as [e|]; cbn [world user screen fst snd];
        rewrite <- !app_assoc; apply in_or_app; right; cbn [app In]; auto 10.
    + rewrite <- !app_assoc; apply in_or_app; right; cbn [app In]; auto 10.
    + rewrite <- !app_assoc; apply in_or_app; right; cbn [app In]; auto 10.
Qed.

End Tables.

Section Registry.

Import FS FSFacts.

Variable Ext : Type.
Variable spawn : list string -> Z -> World Ext -> res CompletedProcess * World Ext.
Variable env : Env.

Lemma substring_all (s : string) : substring 0 (String.length s) s = s.
Proof. induction s as [|c s IH]; simpl; [reflexivity|]. rewrite IH. reflexivity. Qed.

(** Below the home directory: every path ["~/" ++ tail] expands to a path
    that is not empty and whose components are those of [tail] after a
    prefix that depends on the environment only. *)
Lemma expanduser_below_home :
  exists prefix,
    forall tail,
      expanduser env (String "~" (String "/" tail)) <> ""
      /\ components (expanduser env (String "~" (String "/" tail)))
         = (prefix ++ components tail)%list.
Proof.
  destruct (home_of env) as [h|] eqn:Hm.
  - exists (components (PyStr.rstrip_char "/"%char h)). intros tail.
    assert (E : expanduser env (String "~" (String "/" tail))
                = PyStr.rstrip_char "/"%char h ++ String "/" tail).
    { unfold expanduser. cbn [PyStr.starts_with negb Ascii.eqb].
      replace (String.index 1 "/" (String "~" (String "/" tail))) with (Some 1)
        by (cbn; destruct tail; reflexivity).
      cbv zeta. cbn [Nat.eqb]. fold (home_of env). rewrite Hm.
      cbn [String.length Nat.sub substring].
      rewrite ?Nat.sub_0_r, substring_all.
      destruct (String.eqb (PyStr.rstrip_char "/"%char h ++ String "/" tail) "") eqn:Z;
        [|reflexivity].
      apply String.eqb_eq in Z. exfalso. revert Z.
      apply append_not_empty. discriminate. }
    rewrite E. split.
    + apply append_not_empty. discriminate.
    + apply components_app_slash.
  - exists ["~"]. intros tail.
    assert (E : expanduser env (String "~" (String "/" tail))
                = String "~" (String "/" tail)).
    { unfold expanduser. cbn [PyStr.starts_with negb Ascii.eqb].
      replace (String.index 1 "/" (String "~" (String "/" tail))) with (Some 1)
        by (cbn; destruct tail; reflexivity).
      cbv zeta. cbn [Nat.eqb]. fold (home_of env). rewrite Hm. reflexivity. }
    rewrite E. split; [discriminate|].
    exact (components_app_slash "~" tail).
Qed.

(** Two directory entries of the registry with different names expand, in
    every environment, to directories neither of which lies in the other. *)
Lemma registry_directories_apart (a b : category) :
  In a CATEGORIES -> In b CATEGORIES ->
  cat_type a = "directory" -> cat_type b = "directory" ->
  cat_name a <> cat_name b ->
  resolve (expanduser env (cat_path a))
    = Some (components (expanduser env (cat_path a)))
  /\ forall q, inside (components (expanduser env (cat_path b))) q ->
               ~ inside (components (expanduser env (cat_path a))) q.
Proof.
  destruct expanduser_below_home as [prefix P].
  intros Ia Ib Ta Tb N.
  cbn [In CATEGORIES] in Ia, Ib.
  repeat (destruct Ia as [Ia|Ia]; [subst a; try discriminate Ta|]);
    try contradiction;
    repeat (destruct Ib as [Ib|Ib]; [subst b; try discriminate Tb|]);
    try contradiction;
    try (exfalso; apply N; reflexivity);
    cbn [cat_path];
    (split;
     [ unfold resolve;
       match goal with
       | |- context [expanduser env (String "~" (String "/" ?t))] =>
           destruct (P t) as [NE _]
       end;
       apply String.eqb_neq in NE; rewrite NE; reflexivity
     | intros q [r1 Q1] [r2 Q2]; rewrite Q1 in Q2; clear Q1;
       rewrite !(proj2 (P _)) in Q2; rewrite <- !app_assoc in Q2;
       apply app_inv_head in Q2; vm_compute in Q2; discriminate Q2 ]).
Qed.

(** X11. In every environment and file system, cleaning the directory of
    one registry entry leaves the directory of every other registry entry,
    and all that lies in it, as it was: the directories of the registry
    never contain one another. *)
Theorem cleaning_a_category_spares_the_others
        (a b : category) (w w' : World Ext)
        (r : res (bool * string * string)) (l : list event) :
  du_reads_only spawn ->
  In a CATEGORIES -> In b CATEGORIES ->
  cat_type a = "directory" -> cat_type b = "directory" ->
  cat_name a <> cat_name b ->
  proper_listing (expanduser env (cat_path a)) (fs w) = true ->
  clean_directory spawn env (cat_path a) w = (r, w', l) ->
  forall q, inside (components (expanduser env (cat_path b))) q ->
            stat q (fs w') = stat q (fs w).
Proof.
  intros RO Ia Ib Ta Tb N PL C q Q.
  destruct (registry_directories_apart a b Ia Ib Ta Tb N) as [R Apart].
  destruct (clean_directory_frame Ext spawn env (cat_path a) _ w w' r l RO PL R C)
    as [Frame _].
  apply Frame. apply Apart. exact Q.
Qed.

End Registry.

(** *** Rules for [ends_in] *)

Section Rules.

Context {S : Type}.

Lemma ends_in_bind {A B : Type} (I : S -> Prop) (m : W S A) (k : A -> W S B)
      (Q : A -> Prop) (R : B -> Prop) (E : exn -> Prop) (Bl : Prop) :
  ends_in I m Q E Bl -> (forall a, Q a -> ends_in I (k a) R E Bl) ->
  ends_in I (wait_bind m k) R E Bl.
Proof.
  intros Hm Hk s Is. destruct (Hm s Is) as [I1 O]. unfold wait_bind.
  destruct (m s) as [[[[a|e]|] s1] l1]; cbn [fst snd] in *.
  - destruct (Hk a O s1 I1) as [I2 O2].
    destruct (k a s1) as [[r s2] l2]. cbn [fst snd] in *. split; assumption.
  - split; assumption.
  - split; assumption.
Qed.

Lemma ends_in_try {A : Type} (I : S -> Prop) (m : W S A) (h : exn -> W S A)
      (Q : A -> Prop) (E' E : exn -> Prop) (Bl : Prop) :
  ends_in I m Q E' Bl -> (forall e, E' e -> ends_in I (h e) Q E Bl) ->
  ends_in I (wait_try m h) Q E Bl.
Proof.
  intros Hm Hh s Is. destruct (Hm s Is) as [I1 O]. unfold wait_try.
  destruct (m s) as [[[[a|e]|] s1] l1]; cbn [fst snd] in *.
  - split; assumption.
  - destruct (Hh e O s1 I1) as [I2 O2].
    destruct (h e s1) as [[r s2] l2]. cbn [fst snd] in *. split; assumption.
  - split; assumption.
Qed.

Lemma ends_in_now {A : Type} (I : S -> Prop) (m : M S A)
      (Q : A -> Prop) (E : exn -> Prop) (Bl : Prop) :
  (forall s, I s ->
     I (snd (fst (m s)))
     /\ match fst (fst (m s)) with Ok a => Q a | Raise e => E e end) ->
  ends_in I (now m) Q E Bl.
Proof.
  intros H s Is. destruct (H s Is) as [I1 O]. unfold now.
  destruct (m s) as [[[a|e] s1] l1]; cbn [fst snd] in *; split; assumption.
Qed.

Lemma ends_in_weaken {A : Type} (I : S -> Prop) (m : W S A)
      (Q Q' : A -> Prop) (E : exn -> Prop) (Bl : Prop) :
  ends_in I m Q' E Bl -> (forall a, Q' a -> Q a) -> ends_in I m Q E Bl.
Proof.
  intros Hm HQ s Is. destruct (Hm s Is) as [I1 O]. split; [exact I1|].
  destruct (fst (fst (m s))) as [[a|e]|]; auto.
Qed.

End Rules.

Section FlowRules.

Variable Ext : Type.
Variable spawn : list string -> Z -> World Ext -> res CompletedProcess * World Ext.
Variable env : Env.
Variable spawn_wait : list string -> World Ext -> run CompletedProcess * World Ext.
Variable rich_markup : string -> option exn.
Variable rich_table : string -> list string -> list (list string) -> option exn.
Variable User : Type.
Variable ask_confirm : string -> bool -> Session Ext User -> option bool * User.
Variable ask_checkbox : string -> list choice -> Session Ext User
                        -> option (list bool) * User.

(** An invariant of the world that the two probes keep, the exceptions
    that [rich] may raise, and what holds when [df] never ends. *)
Variable J : World Ext -> Prop.
Variable E : exn -> Prop.
Variable Bl : Prop.
Hypothesis J_df : forall w, J w -> J (snd (spawn_wait ["df"; "-h"; "/"] w)).
Hypothesis J_details :
  forall categories rows w,
    J w -> J (snd (fst (details_loop spawn env categories rows w))).
Hypothesis E_markup : forall text e, rich_markup text = Some e -> E e.
Hypothesis E_table :
  forall title columns rows e, rich_table title columns rows = Some e -> E e.
Hypothesis Bl_df : df_hangs spawn_wait -> Bl.

Lemma ends_in_show (x : shown) :
  ends_in (fun s : Session Ext User => J (world s)) (now (show x))
          (fun _ => True) E Bl.
Proof. apply ends_in_now. intros s Js. split; [exact Js|exact Logic.I]. Qed.

Lemma ends_in_ret {A : Type} (a : A) (Q : A -> Prop) :
  Q a ->
  ends_in (fun s : Session Ext User => J (world s)) (now (ret a)) Q E Bl.
Proof. intros Qa. apply ends_in_now. intros s Js. split; [exact Js|exact Qa]. Qed.

Lemma ends_in_print_f (text : string) :
  ends_in (fun s : Session Ext User => J (world s))
          (now (console_print_f rich_markup text)) (fun _ => True) E Bl.
Proof.
  apply ends_in_now. intros s Js. unfold console_print_f.
  destruct (rich_markup text) as [e|] eqn:R.
  - split; [exact Js|]. exact (E_markup text e R).
  - split; [exact Js|exact Logic.I].
Qed.

Lemma ends_in_confirm (message : string) (default : bool) :
  ends_in (fun s : Session Ext User => J (world s))
          (now (questionary_confirm ask_confirm message default))
          (fun a => never_confirms_deletion ask_confirm ->
                    forall n, message = delete_question n -> truthy a = false)
          E Bl.
Proof.
  apply ends_in_now. intros s Js. unfold questionary_confirm.
  destruct (ask_confirm message default s) as [answer u] eqn:A.
  cbn [fst snd world]. split; [exact Js|].
  intros N n Em. subst message. specialize (N n default s).
  rewrite A in N. exact N.
Qed.

Lemma ends_in_header :
  ends_in (fun s : Session Ext User => J (world s))
          (show_header spawn_wait rich_markup) (fun _ => True) E Bl.
Proof.
  unfold show_header, console_clear, console_print_blank. cbv zeta.
  do 3 (eapply ends_in_bind; [apply ends_in_show|intros ? _]).
  eapply ends_in_bind with (Q := fun _ => True).
  { intros s Js. unfold lift_wait.
    rewrite get_available_space_unfold.
    pose proof (J_df (world s) Js) as K.
    destruct (spawn_wait ["df"; "-h"; "/"] (world s)) as [[[cp|e]|] w'] eqn:D;
      cbn [fst snd world] in *; (split; [exact K|]); try exact Logic.I.
    apply Bl_df. exists (world s). rewrite D. reflexivity. }
  intros available _.
  eapply ends_in_bind; [apply ends_in_print_f|intros ? _]. apply ends_in_show.
Qed.

Lemma ends_in_details :
  ends_in (fun s : Session Ext User => J (world s))
          (now (show_category_details spawn env rich_table)) (fun _ => True) E Bl.
Proof.
  apply ends_in_now. intros s Js.
  unfold show_category_details, console_print_table, console_print_blank,
    show, lift, bind, raise.
  pose proof (J_details CATEGORIES [] (world s) Js) as K.
  destruct (details_loop_appends Ext spawn env CATEGORIES (world s))
    as [added [w' [D _]]].
  rewrite (D []) in *. cbn [fst snd app] in *.
  destruct (rich_table "Cleanup Categories"
                       ["Category"; "Description"; "Size"; "Safety"] added)
    as [e|] eqn:R; cbn [fst snd world].
  - split; [exact K|]. exact (E_table _ _ _ e R).
  - split; [exact K|exact Logic.I].
Qed.

Lemma ends_in_select :
  ends_in (fun s : Session Ext User => J (world s))
          (now (select_categories ask_checkbox))
          (fun selected => ticks_nothing ask_checkbox -> selected = []) E Bl.
Proof.
  apply ends_in_now. intros s Js.
  destruct (select_categories_spec Ext User ask_checkbox s)
    as [selected [s' [Es [Wd [_ [_ [_ T]]]]]]].
  rewrite Es. cbn [fst snd]. rewrite Wd. split; [exact Js|exact T].
Qed.

Lemma ends_in_results (results : list result) :
  ends_in (fun s : Session Ext User => J (world s))
          (show_results spawn_wait rich_markup rich_table results)
          (fun _ => True) E Bl.
Proof.
  unfold show_results, console_print, console_print_blank.
  do 3 (eapply ends_in_bind; [apply ends_in_show|intros ? _]).
  eapply ends_in_bind with (Q := fun _ => True).
  { apply ends_in_now. intros s Js. unfold console_print_table.
    destruct (rich_table _ _ _) as [e|] eqn:R.
    - split; [exact Js|]. exact (E_table _ _ _ e R).
    - split; [exact Js|exact Logic.I]. }
  intros ? _.
  eapply ends_in_bind; [apply ends_in_show|intros ? _].
  eapply ends_in_bind with (Q := fun _ => True).
  { intros s Js. unfold lift_wait.
    rewrite get_available_space_unfold.
    pose proof (J_df (world s) Js) as K.
    destruct (spawn_wait ["df"; "-h"; "/"] (world s)) as [[[cp|e]|] w'] eqn:D;
      cbn [fst snd world] in *; (split; [exact K|]); try exact Logic.I.
    apply Bl_df. exists (world s). rewrite D. reflexivity. }
  intros new_space _.
  eapply ends_in_bind; [apply ends_in_print_f|intros ? _]. apply ends_in_show.
Qed.

(** The handler of [main]. *)
Lemma ends_in_handler (e : exn) (Q : ending -> Prop) :
  Q (SystemExit 1) ->
  ends_in (fun s : Session Ext User => J (world s))
          (now console_print_blank ;;
           now (console_print_f rich_markup ("[bold]Error: " ++ exn_str e ++ "[/bold]")) ;;
           now (ret (SystemExit 1)))%wait
          Q E Bl.
Proof.
  intros Qx. unfold console_print_blank.
  eapply ends_in_bind; [apply ends_in_show|intros ? _].
  eapply ends_in_bind; [apply ends_in_print_f|intros ? _].
  apply ends_in_ret. exact Qx.
Qed.

End FlowRules.

Section Flow.

Variable Ext : Type.
Variable spawn : list string -> Z -> World Ext -> res CompletedProcess * World Ext.
Variable env : Env.
Variable spawn_wait : list string -> World Ext -> run CompletedProcess * World Ext.
Variable rich_markup : string -> option exn.
Variable rich_table : string -> list string -> list (list string) -> option exn.
Variable User : Type.
Variable ask_confirm : string -> bool -> Session Ext User -> option bool * User.
Variable ask_checkbox : string -> list choice -> Session Ext User
                        -> option (list bool) * User.

Lemma ends_in_cleanup (categories : list category) (E : exn -> Prop) (Bl : Prop) :
  ends_in (fun _ : Session Ext User => True)
          (now (lift (perform_cleanup spawn env categories))) (fun _ => True) E Bl.
Proof.
  apply ends_in_now. intros s _.
  destruct (perform_cleanup_returns Ext spawn env categories (world s)) as [l P].
  unfold lift. rewrite P. cbn [fst snd]. split; exact Logic.I.
Qed.

Lemma ends_in_empty_the_trash (E : exn -> Prop) (Bl : Prop) :
  ends_in (fun _ : Session Ext User => True) (now (empty_the_trash spawn))
          (fun _ => True) E Bl.
Proof.
  apply ends_in_now. intros s _.
  unfold empty_the_trash, console_print, show, lift, subprocess_run, bind, try_except.
  cbv beta iota. cbn [world user screen].
  destruct (spawn empty_trash_argv 30%Z (world s)) as [[cp|e] w'];
    cbn [fst snd]; split; exact Logic.I.
Qed.

(** The body of [main] for a user who confirms no deletion or ticks no
    box, under an invariant of the world that the probes keep. *)
Lemma main_gate (J : World Ext -> Prop) :
  (forall w, J w -> J (snd (spawn_wait ["df"; "-h"; "/"] w))) ->
  (forall categories rows w,
      J w -> J (snd (fst (details_loop spawn env categories rows w)))) ->
  never_confirms_deletion ask_confirm \/ ticks_nothing ask_checkbox ->
  ends_in (fun s : Session Ext User => J (world s))
          (main spawn env spawn_wait rich_markup rich_table ask_confirm ask_checkbox)
          (fun _ => True) (fun _ => True) True.
Proof.
  intros Jdf Jdet Gate.
  assert (T1 : forall text e, rich_markup text = Some e -> (fun _ : exn => True) e)
    by (intros; exact Logic.I).
  assert (T2 : forall title columns rows e,
             rich_table title columns rows = Some e -> (fun _ : exn => True) e)
    by (intros; exact Logic.I).
  assert (T3 : df_hangs spawn_wait -> True) by (intros; exact Logic.I).
  unfold main.
  eapply ends_in_try with (E' := fun _ => True);
    [|intros e _; apply ends_in_handler; [exact T1|exact Logic.I]].
  eapply ends_in_bind;
    [exact (ends_in_header Ext spawn_wait rich_markup User J _ True Jdf T1 T3)|].
  intros ? _.
  eapply ends_in_bind;
    [exact (ends_in_confirm Ext User ask_confirm J _ True details_question false)|].
  intros show_details _.
  eapply ends_in_bind with (Q := fun _ => True).
  { destruct (truthy show_details).
    - eapply ends_in_bind; [exact (ends_in_show Ext User J _ True _)|].
      intros ? _.
      exact (ends_in_details Ext spawn env rich_table User J _ True Jdet T2).
    - apply ends_in_ret. exact Logic.I. }
  intros ? _.
  eapply ends_in_bind; [exact (ends_in_select Ext User ask_checkbox J _ True)|].
  intros [|c cs] T.
  - eapply ends_in_bind; [exact (ends_in_show Ext User J _ True _)|].
    intros ? _. apply ends_in_ret. exact Logic.I.
  - assert (N : never_confirms_deletion ask_confirm).
    { destruct Gate as [N|G]; [exact N|]. discriminate (T G). }
    eapply ends_in_bind; [exact (ends_in_show Ext User J _ True _)|intros ? _].
    eapply ends_in_bind;
      [exact (ends_in_print_f Ext rich_markup User J _ True T1 _)|intros ? _].
    eapply ends_in_bind; [exact (ends_in_show Ext User J _ True _)|intros ? _].
    eapply ends_in_bind;
      [exact (ends_in_confirm Ext User ask_confirm J _ True _ false)|].
    intros confirm K. rewrite (K N _ eq_refl). cbn [negb].
    eapply ends_in_bind; [exact (ends_in_show Ext User J _ True _)|].
    intros ? _. apply ends_in_ret. exact Logic.I.
Qed.

(** X12. When the two probes ([df], [du]) only read, and the user either
    never answers yes to the deletion prompt (answers no, or interrupts
    it) or ticks no box, the file system is exactly as it was when [main]
    ends, however it ends: by returning, by exiting with status 1, with an
    exception of [rich] that leaves it, or stuck in a [df] that never
    ends. Nothing is deleted without a selection and a yes. *)
Theorem main_deletes_nothing_without_consent (s : Session Ext User) :
  df_reads_only spawn_wait ->
  du_reads_only spawn ->
  never_confirms_deletion ask_confirm \/ ticks_nothing ask_checkbox ->
  fs (world (snd (fst (main spawn env spawn_wait rich_markup rich_table
                            ask_confirm ask_checkbox s))))
  = fs (world s).
Proof.
  intros DF DU Gate.
  destruct (main_gate (fun w => fs w = fs (world s))) with (s := s) as [K _].
  - intros w Jw. rewrite DF. exact Jw.
  - intros categories rows w Jw.
    destruct (details_loop_appends Ext spawn env categories w)
      as [added [w' [D [_ RO]]]].
    rewrite (D rows). cbn [fst snd]. rewrite (RO DU). exact Jw.
  - exact Gate.
  - reflexivity.
  - exact K.
Qed.

(** X13. Whatever the spawned programs, the file system and the user do,
    no failure of a subprocess or of a removal makes [main] fail: each is
    caught and reported where it happens. [main] returns normally unless
    [rich] raises on a text or a table, and then it exits with status 1,
    or the exception of [rich] leaves [main] when [rich] raises again on
    the error text; or unless [df], run without a timeout, never ends, and
    then [main] is stuck. *)
Theorem main_fails_only_with_rich_or_df (s : Session Ext User) :
  match fst (fst (main spawn env spawn_wait rich_markup rich_table
                       ask_confirm ask_checkbox s)) with
  | Over (Ok a) =>
      a = Returned
      \/ (a = SystemExit 1 /\ exists e, raised_by_rich rich_markup rich_table e)
  | Over (Raise e) => raised_by_rich rich_markup rich_table e
  | Stuck => df_hangs spawn_wait
  end.
Proof.
  assert (T0 : forall w : World Ext,
             (fun _ => True) w ->
             (fun _ => True) (snd (spawn_wait ["df"; "-h"; "/"] w)))
    by (intros; exact Logic.I).
  assert (Tdet : forall categories rows (w : World Ext),
             (fun _ => True) w ->
             (fun _ => True)
               (snd (fst (details_loop spawn env categories rows w))))
    by (intros; exact Logic.I).
  assert (T1 : forall text e,
             rich_markup text = Some e -> raised_by_rich rich_markup rich_table e)
    by (intros text e R; left; exists text; exact R).
  assert (T2 : forall title columns rows e,
             rich_table title columns rows = Some e ->
             raised_by_rich rich_markup rich_table e)
    by (intros title columns rows e R; right; exists title, columns, rows; exact R).
  assert (T3 : df_hangs spawn_wait -> df_hangs spawn_wait) by auto.
  assert (H : ends_in (fun s : Session Ext User => (fun _ : World Ext => True) (world s))
                (main spawn env spawn_wait rich_markup rich_table
                      ask_confirm ask_checkbox)
                (fun a => a = Returned
                          \/ (a = SystemExit 1
                              /\ exists e, raised_by_rich rich_markup rich_table e))
                (raised_by_rich rich_markup rich_table)
                (df_hangs spawn_wait)).
  { unfold main.
    eapply ends_in_try with (E' := raised_by_rich rich_markup rich_table);
      [|intros e Re;
        apply (ends_in_handler Ext rich_markup User (fun _ => True) _ _ T1);
        right; split; [reflexivity|exists e; exact Re]].
    eapply ends_in_weaken with (Q' := fun a => a = Returned); [|intros a Ea; left; exact Ea].
    eapply ends_in_bind;
      [exact (ends_in_header Ext spawn_wait rich_markup User (fun _ => True) _ _
                             T0 T1 T3)|].
    intros ? _.
    eapply ends_in_bind;
      [exact (ends_in_confirm Ext User ask_confirm (fun _ => True) _ _
                              details_question false)|].
    intros show_details _.
    eapply ends_in_bind with (Q := fun _ => True).
    { destruct (truthy show_details).
      - eapply ends_in_bind;
          [exact (ends_in_show Ext User (fun _ => True) _ _ _)|].
        intros ? _.
        exact (ends_in_details Ext spawn env rich_table User (fun _ => True) _ _
                               Tdet T2).
      - apply (ends_in_ret Ext User (fun _ => True)). exact Logic.I. }
    intros ? _.
    eapply ends_in_bind;
      [exact (ends_in_select Ext User ask_checkbox (fun _ => True) _ _)|].
    intros [|c cs] _.
    - eapply ends_in_bind; [exact (ends_in_show Ext User (fun _ => True) _ _ _)|].
      intros ? _. apply (ends_in_ret Ext User (fun _ => True)). reflexivity.
    - eapply ends_in_bind;
        [exact (ends_in_show Ext User (fun _ => True) _ _ _)|intros ? _].
      eapply ends_in_bind;
        [exact (ends_in_print_f Ext rich_markup User (fun _ => True) _ _ T1 _)
        |intros ? _].
      eapply ends_in_bind;
        [exact (ends_in_show Ext User (fun _ => True) _ _ _)|intros ? _].
      eapply ends_in_bind;
        [exact (ends_in_confirm Ext User ask_confirm (fun _ => True) _ _ _ false)|].
      intros confirm _. destruct (negb (truthy confirm)).
      + eapply ends_in_bind;
          [exact (ends_in_show Ext User (fun _ => True) _ _ _)|].
        intros ? _. apply (ends_in_ret Ext User (fun _ => True)). reflexivity.
      + eapply ends_in_bind;
          [exact (ends_in_show Ext User (fun _ => True) _ _ _)|intros ? _].
        eapply ends_in_bind; [apply ends_in_cleanup|]. intros results _.
        eapply ends_in_bind;
          [exact (ends_in_results Ext spawn_wait rich_markup rich_table User
                                  (fun _ => True) _ _ T0 T1 T2 T3 results)|].
        intros ? _.
        eapply ends_in_bind;
          [exact (ends_in_confirm Ext User ask_confirm (fun _ => True) _ _
                                  trash_question false)|].
        intros empty_trash _.
        eapply ends_in_bind with (Q := fun _ => True).
        { destruct (truthy empty_trash);
            [apply ends_in_empty_the_trash|apply (ends_in_ret Ext User (fun _ => True)); exact Logic.I]. }
        intros ? _.
        eapply ends_in_bind;
          [exact (ends_in_show Ext User (fun _ => True) _ _ _)|intros ? _].
        eapply ends_in_bind;
          [exact (ends_in_show Ext User (fun _ => True) _ _ _)|intros ? _].
        apply (ends_in_ret Ext User (fun _ => True)). reflexivity. }
  exact (proj2 (H s Logic.I)).
Qed.

End Flow.

Section Defaults.

Variable Ext : Type.
Variable User : Type.
Variable ask_checkbox : string -> list choice -> Session Ext User
                        -> option (list bool) * User.

Lemma ticked_as_offered (categories : list category) :
  let choices := map (fun cat => {| ch_name := format_category_choice cat;
                                    ch_value := cat;
                                    ch_checked := cat_default cat |}) categories in
  ticked choices (map ch_checked choices) = filter cat_default categories.
Proof.
  induction categories as [|c rest IH]; [reflexivity|].
  cbv zeta in *. cbn [map ch_checked ch_value filter ticked].
  destruct (cat_default c); rewrite IH; reflexivity.
Qed.

(** X14. When the user accepts the checkbox prompt with the ticks as they
    are offered, [select_categories] returns exactly the registry entries
    whose [default] is true, in registry order. *)
Theorem select_categories_offers_the_defaults (s : Session Ext User) :
  (forall message choices s0,
      fst (ask_checkbox message choices s0) = Some (map ch_checked choices)) ->
  exists s',
    select_categories ask_checkbox s = (Ok (filter cat_default CATEGORIES), s', [])
    /\ world s' = world s.
Proof.
  intros H.
  pose proof (select_categories_unfold Ext User ask_checkbox s) as E.
  cbv zeta in E. rewrite H in E. cbn [option_map] in E.
  rewrite (ticked_as_offered CATEGORIES) in E.
  assert (K : match filter cat_default CATEGORIES with
              | c :: cs => c :: cs
              | [] => []
              end = filter cat_default CATEGORIES)
    by (destruct (filter cat_default CATEGORIES); reflexivity).
  rewrite K in E. eexists. split; [exact E|reflexivity].
Qed.

End Defaults.

(* ================================================================= *)
(** ** The further properties on the concrete machine *)

Lemma desk_df_reads_only : df_reads_only Desk.spawn_wait.
Proof. intros w. reflexivity. Qed.

Lemma desk_never_confirms : never_confirms_deletion (Desk.ask_confirm false).
Proof. intros n default s. reflexivity. Qed.

Lemma desk_ticks_as_offered :
  forall message choices s0,
    fst (Desk.ask_checkbox message choices s0) = Some (map ch_checked choices).
Proof. intros message choices s0. reflexivity. Qed.

Lemma clean_directory_touches_only_its_directory_witness :
  du_reads_only Demo.spawn
  /\ proper_listing (expanduser Demo.env Demo.archives) (fs Demo.world) = true
  /\ FS.resolve (expanduser Demo.env Demo.archives)
     = Some ["Users"; "dev"; "Library"; "Developer"; "Xcode"; "Archives"]
  /\ clean_directory Demo.spawn Demo.env Demo.archives Demo.world
     = (Ok (false, res_message Demo.archives_failed, "0B"), Demo.world_partial, [])
  /\ (forall q,
         ~ inside ["Users"; "dev"; "Library"; "Developer"; "Xcode"; "Archives"] q ->
         FS.stat q (fs Demo.world_partial) = FS.stat q (fs Demo.world))
  /\ FS.exists_ (expanduser Demo.env Demo.archives) (fs Demo.world_partial)
     = FS.exists_ (expanduser Demo.env Demo.archives) (fs Demo.world)
  /\ FS.isdir (expanduser Demo.env Demo.archives) (fs Demo.world_partial)
     = FS.isdir (expanduser Demo.env Demo.archives) (fs Demo.world).
Proof.
  split; [exact demo_du_reads_only|]. split; [reflexivity|].
  split; [reflexivity|]. split; [vm_compute; reflexivity|].
  apply (clean_directory_touches_only_its_directory Z Demo.spawn Demo.env
           Demo.archives
           ["Users"; "dev"; "Library"; "Developer"; "Xcode"; "Archives"]
           Demo.world Demo.world_partial
           (Ok (false, res_message Demo.archives_failed, "0B")) []).
  - exact demo_du_reads_only.
  - reflexivity.
  - reflexivity.
  - vm_compute; reflexivity.
Defined.

Lemma clean_directory_refuses_a_file_witness :
  du_reads_only Demo.spawn
  /\ FS.exists_ (expanduser Demo.env Demo.previews) (fs Demo.world) = true
  /\ FS.isdir (expanduser Demo.env Demo.previews) (fs Demo.world) = false
  /\ exists message w',
       clean_directory Demo.spawn Demo.env Demo.previews Demo.world
         = (Ok (false, message, "0B"), w', [])
       /\ fs w' = fs Demo.world.
Proof.
  split; [exact demo_du_reads_only|]. split; [reflexivity|]. split; [reflexivity|].
  apply (clean_directory_refuses_a_file Z Demo.spawn Demo.env Demo.previews
           Demo.world).
  - exact demo_du_reads_only.
  - reflexivity.
  - reflexivity.
Defined.

Lemma get_directory_size_reads_the_size_witness :
  FS.exists_ (expanduser Demo.env Demo.derived_data) (fs Demo.world) = true
  /\ Demo.spawn ["du"; "-sh"; expanduser Demo.env Demo.derived_data] 10%Z Demo.world
     = (Ok {| returncode := 0;
              stdout := "5216B" ++ Demo.tab
                        ++ "/Users/dev/Library/Developer/Xcode/DerivedData"
                        ++ Demo.newline;
              stderr := "" |}, Demo.world)
  /\ Text.solid "5216B" = true
  /\ get_directory_size Demo.spawn Demo.env Demo.derived_data Demo.world
     = (Ok ("5216B", 1%Z), Demo.world, []).
Proof.
  split; [reflexivity|]. split; [vm_compute; reflexivity|]. split; [reflexivity|].
  apply (get_directory_size_reads_the_size Z Demo.spawn Demo.env Demo.derived_data
           Demo.world Demo.world
           {| returncode := 0;
              stdout := "5216B" ++ Demo.tab
                        ++ "/Users/dev/Library/Developer/Xcode/DerivedData"
                        ++ Demo.newline;
              stderr := "" |}
           0 0 "5216B"
           ("/Users/dev/Library/Developer/Xcode/DerivedData" ++ Demo.newline)).
  - reflexivity.
  - vm_compute; reflexivity.
  - reflexivity.
  - reflexivity.
  - reflexivity.
Defined.

Lemma get_available_space_reads_the_fourth_column_witness :
  Desk.spawn_wait ["df"; "-h"; "/"] Demo.world
    = (Over (Ok {| returncode := 0; stdout := Desk.df_output; stderr := "" |}),
       Demo.world)
  /\ Text.solid "212Gi" = true
  /\ get_available_space Desk.spawn_wait Demo.world
     = (Over (Ok "212Gi"), Demo.world, []).
Proof.
  split; [reflexivity|]. split; [reflexivity|].
  apply (get_available_space_reads_the_fourth_column Z Desk.spawn_wait
           Demo.world Demo.world
           {| returncode := 0; stdout := Desk.df_output; stderr := "" |}
           "Filesystem      Size   Used  Avail Capacity iused ifree %iused  Mounted on"
           "/dev/disk3s1" "460Gi" "10Gi" "212Gi"
           "     5%    404k  2.2G    0%   /"
           2 2 1).
  - reflexivity.
  - reflexivity.
  - reflexivity.
  - reflexivity.
  - reflexivity.
  - reflexivity.
  - reflexivity.
  - reflexivity.
  - reflexivity.
  - reflexivity.
  - reflexivity.
Defined.

Lemma selection_is_cleaned_one_by_one_witness :
  select_categories Desk.ask_checkbox Desk.start
    = (Ok (filter cat_default CATEGORIES),
       snd (fst (select_categories Desk.ask_checkbox Desk.start)), [])
  /\ exists results w' l',
       perform_cleanup Demo.spawn Demo.env (filter cat_default CATEGORIES) Demo.world
         = (Ok results, w', l')
       /\ List.length results = List.length (filter cat_default CATEGORIES)
       /\ Forall2 (fun c o => res_name o = cat_name c)
                  (filter cat_default CATEGORIES) results.
Proof.
  split; [vm_compute; reflexivity|].
  apply (selection_is_cleaned_one_by_one Z Demo.spawn Demo.env unit
           Desk.ask_checkbox Desk.start
           (snd (fst (select_categories Desk.ask_checkbox Desk.start)))
           (filter cat_default CATEGORIES) [] Demo.world).
  vm_compute; reflexivity.
Defined.

Lemma cleaning_a_category_spares_the_others_witness :
  du_reads_only Demo.spawn
  /\ In (nth 0 CATEGORIES Demo.t_file) CATEGORIES
  /\ In (nth 4 CATEGORIES Demo.t_file) CATEGORIES
  /\ cat_path (nth 0 CATEGORIES Demo.t_file) = Demo.derived_data
  /\ cat_path (nth 4 CATEGORIES Demo.t_file) = Demo.archives
  /\ clean_directory Demo.spawn Demo.env Demo.derived_data Demo.world
     = (Ok (true, "Cleaned successfully", "5216B"), Demo.world_cleaned, [])
  /\ FS.stat ["Users"; "dev"; "Library"; "Developer"; "Xcode"; "Archives";
              "old.xcarchive"] (fs Demo.world_cleaned)
     = FS.stat ["Users"; "dev"; "Library"; "Developer"; "Xcode"; "Archives";
                "old.xcarchive"] (fs Demo.world).
Proof.
  split; [exact demo_du_reads_only|].
  split; [left; reflexivity|].
  split; [do 4 right; left; reflexivity|].
  split; [reflexivity|]. split; [reflexivity|].
  split; [vm_compute; reflexivity|].
  apply (cleaning_a_category_spares_the_others Z Demo.spawn Demo.env
           (nth 0 CATEGORIES Demo.t_file) (nth 4 CATEGORIES Demo.t_file)
           Demo.world Demo.world_cleaned
           (Ok (true, "Cleaned successfully", "5216B")) []).
  - exact demo_du_reads_only.
  - left; reflexivity.
  - do 4 right; left; reflexivity.
  - reflexivity.
  - reflexivity.
  - discriminate.
  - reflexivity.
  - vm_compute; reflexivity.
  - exists ["old.xcarchive"]. reflexivity.
Defined.

Lemma main_deletes_nothing_without_consent_witness :
  df_reads_only Desk.spawn_wait
  /\ du_reads_only Demo.spawn
  /\ never_confirms_deletion (Desk.ask_confirm false)
  /\ fs (world (snd (fst (main Demo.spawn Demo.env Desk.spawn_wait
                               Desk.rich_markup Desk.rich_table
                               (Desk.ask_confirm false) Desk.ask_checkbox
                               Desk.start))))
     = fs (world Desk.start).
Proof.
  split; [exact desk_df_reads_only|]. split; [exact demo_du_reads_only|].
  split; [exact desk_never_confirms|].
  apply (main_deletes_nothing_without_consent Z Demo.spawn Demo.env
           Desk.spawn_wait Desk.rich_markup Desk.rich_table unit
           (Desk.ask_confirm false) Desk.ask_checkbox Desk.start).
  - exact desk_df_reads_only.
  - exact demo_du_reads_only.
  - left. exact desk_never_confirms.
Defined.

(** With consent, [main] returns normally and the directories ticked by
    default are cleaned. *)
Example main_with_consent :
  exists s' l,
    main Demo.spawn Demo.env Desk.spawn_wait Desk.rich_markup Desk.rich_table
         (Desk.ask_confirm true) Desk.ask_checkbox Desk.start
    = (Over (Ok Returned), s', l)
    /\ world s' = Demo.world_cleaned.
Proof. eexists _, _. split; [vm_compute; reflexivity|reflexivity]. Qed.

(** A [df] that never ends leaves [main] stuck in [show_header]. *)
Example main_with_hanging_df :
  main Demo.spawn Demo.env Desk.hanging_df Desk.rich_markup Desk.rich_table
       (Desk.ask_confirm false) Desk.ask_checkbox Desk.start
  = (Stuck, {| world := Demo.world; user := tt;
               screen := [ Cleared;
                           PanelShown ("[bold]🧹 Xcode Cleanup Tool[/bold]" ++ LF
                                       ++ "Free up disk space by removing Xcode cache files");
                           Printed "" ] |}, []).
Proof. vm_compute; reflexivity. Qed.

(** A fourth column of [df] that closes a tag nobody opened: [rich] raises
    on the header line, the handler of [main] prints the error, [rich]
    raises on that text too, and the exception leaves [main]. *)
Example main_with_odd_df :
  exists s',
    main Demo.spawn Demo.env Desk.odd_df Desk.strict_markup Desk.strict_table
         (Desk.ask_confirm false) Desk.ask_checkbox Desk.start
    = (Over (Raise Desk.markup_error), s', [])
    /\ fs (world s') = fs Demo.world.
Proof. eexists. split; [vm_compute; reflexivity|reflexivity]. Qed.

Lemma select_categories_offers_the_defaults_witness :
  (forall message choices s0,
      fst (Desk.ask_checkbox message choices s0) = Some (map ch_checked choices))
  /\ exists s',
       select_categories Desk.ask_checkbox Desk.start
         = (Ok (filter cat_default CATEGORIES), s', [])
       /\ world s' = world Desk.start.
Proof.
  split; [exact desk_ticks_as_offered|].
  apply (select_categories_offers_the_defaults Z unit Desk.ask_checkbox Desk.start).
  exact desk_ticks_as_offered.
Defined.
